(** * waiwine: the client side of the real-time translation relay

    A shallow embedding of the Vue components that receive, show and play
    translations (frontend/src/components/Translation/TranslationOverlay.vue
    and the TranslationSettings component), together with a model of the
    relay's fan-out orchestrator.

    JavaScript objects are finite maps from property names to values,
    reactive state is threaded explicitly, and everything the component
    does to the outside world (timers, started audio sources, WebSocket
    frames, HTTP requests, emitted component events) is recorded in the
    state so that it can be observed.  Console output is not modelled. *)

From Stdlib Require Import QArith Qcanon ZArith.
From stdpp Require Import gmap strings list.

(** ** JavaScript values *)

Module JS.

(** Primitive values; [JRef] stands for a reference to an array or object
    that the code only passes around (never inspects).  Numbers are
    rationals: the values at hand are JSON numbers and slider positions,
    which the code stores, compares and hands on, so NaN and the
    infinities are left out. *)
Inductive jsval : Type :=
| JUndefined
| JNull
| JBool (b : bool)
| JNum (q : Q)
| JStr (s : string)
| JRef (r : positive).

(** ToBoolean, as used by [!x], [a && b], [a || b] and [v-if]. *)
Definition truthy (v : jsval) : bool :=
  match v with
  | JUndefined | JNull => false
  | JBool b => b
  | JNum q => negb (Qeq_bool q 0)
  | JStr s => negb (String.eqb s "")
  | JRef _ => true
  end.

(** The [===] operator. *)
Definition strict_eq (a b : jsval) : bool :=
  match a, b with
  | JUndefined, JUndefined => true
  | JNull, JNull => true
  | JBool x, JBool y => Bool.eqb x y
  | JNum x, JNum y => Qeq_bool x y
  | JStr x, JStr y => String.eqb x y
  | JRef x, JRef y => Pos.eqb x y
  | _, _ => false
  end.

(** Property read [o.k]: a missing property reads as [undefined]. *)
Definition get (o : gmap string jsval) (k : string) : jsval :=
  default JUndefined (o !! k).

(** Property write [o.k = v]. *)
Definition set (o : gmap string jsval) (k : string) (v : jsval)
  : gmap string jsval :=
  <[k := v]> o.

(** [Object.assign(target, source)]: every own property of [source] is
    written to [target]; properties only [target] has are kept. *)
Definition Object_assign (target source : gmap string jsval)
  : gmap string jsval :=
  source ∪ target.

(** The result of [await fetch(...)] followed by the use the callers make
    of it: the request may fail (the promise rejects), or a response
    arrives with its [ok] flag and a body; [json = None] stands for a
    body that [response.json()] cannot parse. *)
Inductive Fetched (A : Type) : Type :=
| NetworkError
| Response (ok : bool) (json : option A).

Arguments NetworkError {A}.
Arguments Response {A} ok json.

(** The request went through and [response.ok] holds. *)
Definition accepted {A : Type} (r : Fetched A) : bool :=
  match r with
  | Response true _ => true
  | _ => false
  end.

End JS.

Import JS.

(** ** TranslationOverlay.vue *)

Module Overlay.

(** The caption object built by [displayTranslation]. *)
Record Caption : Type := {
  speakerId : jsval;
  originalText : jsval;
  translatedText : jsval;
  sourceLanguage : jsval;
  targetLanguage : jsval
}.

(** A pending [setTimeout] callback of [displayTranslation]: the time it
    is due and the [data.original_text] its closure captured. *)
Record Timer : Type := {
  due : Z;
  captured_original_text : jsval
}.

(** Decoded audio, as [decodeAudioData] resolves it. *)
Definition AudioBuffer : Type := list Z.

(** A buffer source that was started, with the value of the gain node
    between it and the context's destination. *)
Record Playback : Type := {
  buffer : AudioBuffer;
  gain : Q
}.

Inductive ReadyState : Type := CONNECTING | OPEN | CLOSING | CLOSED.

(** Frames the component writes to the translation WebSocket. *)
Inductive Frame : Type :=
| update_settings (settings : gmap string jsval).

(** Events the component emits to its parent. *)
Inductive Emit : Type := translation_ready | translation_error.

(** Browser functions the component calls.  [None] stands for a thrown
    exception or a rejected promise. *)
Record Platform : Type := {
  atob : jsval -> option string;
  decodeAudioData : list N -> option AudioBuffer;
  toNumber : jsval -> option Q
}.

(** The reactive state of [setup()] followed by what the component has
    done to the world around it. *)
Record State : Type := {
  currentTranslation : option Caption;
  availableVoices : jsval;
  translationWebSocket : option ReadyState;
  audioContext : bool;
  translationSettings : gmap string jsval;
  (* the world *)
  now : Z;
  timers : list Timer;
  started : list Playback;
  outbox : list Frame;
  requests : list (gmap string jsval);
  emitted : list Emit;
  (* byte arrays handed to decodeAudioData *)
  decode_requests : list (list N);
  (* volume set on the live audio track of a remote participant, by
     participant id; a track whose volume nobody set plays in full *)
  trackVolume : gmap string Q
}.

Definition set_currentTranslation (v : option Caption) (s : State) : State :=
  {| currentTranslation := v; availableVoices := availableVoices s;
     translationWebSocket := translationWebSocket s;
     audioContext := audioContext s;
     translationSettings := translationSettings s;
     now := now s; timers := timers s; started := started s;
     outbox := outbox s; requests := requests s; emitted := emitted s;
     decode_requests := decode_requests s; trackVolume := trackVolume s |}.

Definition set_availableVoices (v : jsval) (s : State) : State :=
  {| currentTranslation := currentTranslation s; availableVoices := v;
     translationWebSocket := translationWebSocket s;
     audioContext := audioContext s;
     translationSettings := translationSettings s;
     now := now s; timers := timers s; started := started s;
     outbox := outbox s; requests := requests s; emitted := emitted s;
     decode_requests := decode_requests s; trackVolume := trackVolume s |}.

Definition set_translationWebSocket (v : option ReadyState) (s : State)
  : State :=
  {| currentTranslation := currentTranslation s;
     availableVoices := availableVoices s;
     translationWebSocket := v;
     audioContext := audioContext s;
     translationSettings := translationSettings s;
     now := now s; timers := timers s; started := started s;
     outbox := outbox s; requests := requests s; emitted := emitted s;
     decode_requests := decode_requests s; trackVolume := trackVolume s |}.

Definition set_audioContext (v : bool) (s : State) : State :=
  {| currentTranslation := currentTranslation s;
     availableVoices := availableVoices s;
     translationWebSocket := translationWebSocket s;
     audioContext := v;
     translationSettings := translationSettings s;
     now := now s; timers := timers s; started := started s;
     outbox := outbox s; requests := requests s; emitted := emitted s;
     decode_requests := decode_requests s; trackVolume := trackVolume s |}.

Definition set_translationSettings (v : gmap string jsval) (s : State)
  : State :=
  {| currentTranslation := currentTranslation s;
     availableVoices := availableVoices s;
     translationWebSocket := translationWebSocket s;
     audioContext := audioContext s;
     translationSettings := v;
     now := now s; timers := timers s; started := started s;
     outbox := outbox s; requests := requests s; emitted := emitted s;
     decode_requests := decode_requests s; trackVolume := trackVolume s |}.

Definition set_clock (t : Z) (pending : list Timer) (s : State) : State :=
  {| currentTranslation := currentTranslation s;
     availableVoices := availableVoices s;
     translationWebSocket := translationWebSocket s;
     audioContext := audioContext s;
     translationSettings := translationSettings s;
     now := t; timers := pending; started := started s;
     outbox := outbox s; requests := requests s; emitted := emitted s;
     decode_requests := decode_requests s; trackVolume := trackVolume s |}.

Definition set_started (v : list Playback) (s : State) : State :=
  {| currentTranslation := currentTranslation s;
     availableVoices := availableVoices s;
     translationWebSocket := translationWebSocket s;
     audioContext := audioContext s;
     translationSettings := translationSettings s;
     now := now s; timers := timers s; started := v;
     outbox := outbox s; requests := requests s; emitted := emitted s;
     decode_requests := decode_requests s; trackVolume := trackVolume s |}.

Definition set_outbox (v : list Frame) (s : State) : State :=
  {| currentTranslation := currentTranslation s;
     availableVoices := availableVoices s;
     translationWebSocket := translationWebSocket s;
     audioContext := audioContext s;
     translationSettings := translationSettings s;
     now := now s; timers := timers s; started := started s;
     outbox := v; requests := requests s; emitted := emitted s;
     decode_requests := decode_requests s; trackVolume := trackVolume s |}.

Definition set_requests (v : list (gmap string jsval)) (s : State) : State :=
  {| currentTranslation := currentTranslation s;
     availableVoices := availableVoices s;
     translationWebSocket := translationWebSocket s;
     audioContext := audioContext s;
     translationSettings := translationSettings s;
     now := now s; timers := timers s; started := started s;
     outbox := outbox s; requests := v; emitted := emitted s;
     decode_requests := decode_requests s; trackVolume := trackVolume s |}.

Definition set_emitted (v : list Emit) (s : State) : State :=
  {| currentTranslation := currentTranslation s;
     availableVoices := availableVoices s;
     translationWebSocket := translationWebSocket s;
     audioContext := audioContext s;
     translationSettings := translationSettings s;
     now := now s; timers := timers s; started := started s;
     outbox := outbox s; requests := requests s; emitted := v;
     decode_requests := decode_requests s; trackVolume := trackVolume s |}.

Definition set_decode_requests (v : list (list N)) (s : State) : State :=
  {| currentTranslation := currentTranslation s;
     availableVoices := availableVoices s;
     translationWebSocket := translationWebSocket s;
     audioContext := audioContext s;
     translationSettings := translationSettings s;
     now := now s; timers := timers s; started := started s;
     outbox := outbox s; requests := requests s; emitted := emitted s;
     decode_requests := v; trackVolume := trackVolume s |}.

(** The object literal passed to [reactive(...)] (lines 211-221). *)
Definition default_settings : gmap string jsval :=
  {[ "textTranslationEnabled" := JBool true;
     "voiceTranslationEnabled" := JBool false;
     "originalVoiceVolume" := JNum 0.3;
     "translatedVoiceVolume" := JNum 0.8;
     "preferredVoiceId" := JStr "";
     "voiceSpeed" := JNum 1.0;
     "subtitlePosition" := JStr "bottom";
     "subtitleFontSize" := JNum 16;
     "subtitleBackgroundOpacity" := JNum 0.7 ]}.

(** The state [setup()] creates: [ref(null)], [ref([])] and the default
    settings; nothing has happened in the world yet.  The empty voices
    array is the reference [JRef 1]. *)
Definition initial : State :=
  {| currentTranslation := None;
     availableVoices := JRef 1;
     translationWebSocket := None;
     audioContext := false;
     translationSettings := default_settings;
     now := 0%Z; timers := []; started := []; outbox := [];
     requests := []; emitted := []; decode_requests := [];
     trackVolume := ∅ |}.

(** *** Loading settings and starting up (lines 230-313) *)

(** [loadTranslationSettings]: the stored object is merged only when the
    request succeeds with an [ok] response whose body parses; every
    failure is caught and logged. *)
Definition loadTranslationSettings
  (r : Fetched (gmap string jsval)) (s : State) : State :=
  match r with
  | Response true (Some settings) =>
      set_translationSettings
        (Object_assign (translationSettings s) settings) s
  | _ => s
  end.

Definition loadAvailableVoices (r : Fetched jsval) (s : State) : State :=
  match r with
  | Response true (Some voices) => set_availableVoices voices s
  | _ => s
  end.

(** What the browser answers while the component starts. *)
Record Env : Type := {
  innerWidth : Z;
  settings_fetch : Fetched (gmap string jsval);
  voices_fetch : Fetched jsval;
  websocket_constructs : bool;
  audiocontext_constructs : bool
}.

(** A call either returns or throws, in both cases with the state it
    leaves behind. *)
Inductive Outcome : Type :=
| Returns (s : State)
| Throws (s : State).

(** [initializeWebSocket]: the socket is created first and the audio
    context after it; an exception of either constructor is logged and
    rethrown. *)
Definition initializeWebSocket (e : Env) (s : State) : Outcome :=
  if websocket_constructs e then
    let s1 := set_translationWebSocket (Some CONNECTING) s in
    if audiocontext_constructs e
    then Returns (set_audioContext true s1)
    else Throws s1
  else Throws s.

Definition emit (ev : Emit) (s : State) : State :=
  set_emitted (emitted s ++ [ev]) s.

Definition initializeTranslation (e : Env) (s : State) : State :=
  let s1 := loadTranslationSettings (settings_fetch e) s in
  let s2 := loadAvailableVoices (voices_fetch e) s1 in
  match initializeWebSocket e s2 with
  | Returns s3 => emit translation_ready s3
  | Throws s3 => emit translation_error s3
  end.

(** [setupMobileOptimizations], as far as it touches the state: on a
    narrow window the two flags are forced.  The [orientationchange]
    listener it registers is the [OrientationChanged] event of
    [Session]. *)
Definition setupMobileOptimizations (e : Env) (s : State) : State :=
  if (innerWidth e <=? 768)%Z then
    set_translationSettings
      (set (set (translationSettings s)
                "textTranslationEnabled" (JBool true))
           "voiceTranslationEnabled" (JBool false)) s
  else s.

Definition onMounted (e : Env) (s : State) : State :=
  initializeTranslation e (setupMobileOptimizations e s).

(** *** Captions (lines 335-351 and the template, lines 4-18) *)

Definition setTimeout (text : jsval) (delay : Z) (s : State) : State :=
  set_clock (now s)
    (timers s ++ [{| due := (now s + delay)%Z;
                     captured_original_text := text |}]) s.

(** The object literal assigned to [currentTranslation.value]. *)
Definition caption_of (data : gmap string jsval) : Caption :=
  {| speakerId := get data "speaker_id";
     originalText := get data "original_text";
     translatedText := get data "translated_text";
     sourceLanguage := get data "source_language";
     targetLanguage := get data "target_language" |}.

Definition displayTranslation (s : State) (data : gmap string jsval)
  : State :=
  let s1 := set_currentTranslation (Some (caption_of data)) s in
  (* Auto-hide after 5 seconds *)
  setTimeout (get data "original_text") 5000 s1.

(** An object, as opposed to a primitive value. *)
Definition is_object (v : jsval) : bool :=
  match v with
  | JRef _ => true
  | _ => false
  end.

(** [currentTranslation.value?.originalText === data.original_text] (line
    347).  The caption object was assigned to a [ref], so what is read
    back from it is reactive: a text that is an object comes back as a
    proxy of it, which is never identical to the object the closure
    holds.  Every other value is compared as [===] does. *)
Definition still_showing (shown captured : jsval) : bool :=
  match shown with
  | JRef _ => false
  | _ => strict_eq shown captured
  end.

(** The body of the arrow function handed to [setTimeout]. *)
Definition timer_callback (tm : Timer) (s : State) : State :=
  match currentTranslation s with
  | Some c =>
      if still_showing (originalText c) (captured_original_text tm)
      then set_currentTranslation None s
      else s
  | None => s
  end.

(** Time passes until [t]: the callbacks of the timers due by then run,
    oldest first (all timers have the same delay, so registration order
    is firing order); the others stay pending. *)
Definition advance (t : Z) (s : State) : State :=
  let ready := filter (fun tm => (due tm <= t)%Z) (timers s) in
  let pending := filter (fun tm => ~ (due tm <= t)%Z) (timers s) in
  foldl (fun s tm => timer_callback tm s)
        (set_clock (Z.max (now s) t) pending s) ready.

(** What the template shows: the subtitle container is rendered when
    [translationSettings.textTranslationEnabled && currentTranslation]
    is truthy, and then shows the current caption. *)
Definition subtitle (s : State) : option Caption :=
  if truthy (get (translationSettings s) "textTranslationEnabled")
  then currentTranslation s
  else None.
(** *** Translated audio (lines 353-383) *)

(** [audioData.charCodeAt(i)]; out of range it is NaN, which a
    [Uint8Array] stores as 0. *)
Definition charCodeAt (audioData : string) (i : nat) : N :=
  match String.get i audioData with
  | Some c => Ascii.N_of_ascii c
  | None => 0%N
  end.

(** The [for] loop that copies the binary string into a fresh (zeroed)
    [Uint8Array] of the same length. *)
Definition audioArray (audioData : string) : list N :=
  foldl (fun arr i => <[i := charCodeAt audioData i]> arr)
        (replicate (String.length audioData) 0%N)
        (seq 0 (String.length audioData)).

(** Assigning to [gainNode.gain.value] converts the value to a finite
    float and throws a TypeError when there is none.  Numbers, booleans,
    [null] and [undefined] convert as the language defines; strings and
    objects are left to the platform. *)
Definition to_gain (P : Platform) (v : jsval) : option Q :=
  match v with
  | JNum q => Some q
  | JBool b => Some (if b then 1 else 0)%Q
  | JNull => Some 0%Q
  | JUndefined => None
  | JStr _ | JRef _ => toNumber P v
  end.

(** The part of [playTranslatedAudio] after [await decodeAudioData]:
    the source is connected through a gain node set from the settings as
    they are at that moment, and started.  A TypeError of the assignment
    is caught, and then nothing was started. *)
Definition play_decoded (P : Platform) (s : State) (decodedAudio : AudioBuffer)
  : State :=
  match to_gain P (get (translationSettings s) "translatedVoiceVolume") with
  | Some g =>
      set_started (started s ++ [{| buffer := decodedAudio; gain := g |}]) s
  | None => s
  end.

(** [playTranslatedAudio], with the decoding finished before the next
    event is handled. *)
Definition playTranslatedAudio (P : Platform) (s : State)
  (data : gmap string jsval) : State :=
  if negb (truthy (get (translationSettings s) "voiceTranslationEnabled"))
     || negb (audioContext s)
  then s
  else
    match atob P (get data "audio_data") with
    | None => s
    | Some audioData =>
        let s1 :=
          set_decode_requests
            (decode_requests s ++ [audioArray audioData]) s in
        match decodeAudioData P (audioArray audioData) with
        | None => s1
        | Some decodedAudio => play_decoded P s1 decodedAudio
        end
    end.

(** *** Incoming messages (lines 315-333) *)

Definition handleWebSocketMessage (P : Platform) (s : State)
  (data : gmap string jsval) : State :=
  let type := get data "type" in
  if strict_eq type (JStr "text_translation") then displayTranslation s data
  else if strict_eq type (JStr "voice_translation")
  then playTranslatedAudio P s data
  else if strict_eq type (JStr "voices_list")
  then set_availableVoices (get data "voices") s
  else s.

(** *** Editing settings (template bindings and lines 385-410) *)

(** A [v-model] binding writes the control's value into the reactive
    settings object before the [@change]/[@input] handler runs. *)
Definition v_model (key : string) (v : jsval) (s : State) : State :=
  set_translationSettings (set (translationSettings s) key v) s.

(** [updateSettings] up to [await fetch] (lines 385-395): the body of
    the PUT is the settings object as it is when the handler is
    called. *)
Definition updateSettings_request (s : State) : State :=
  set_requests (requests s ++ [translationSettings s]) s.

(** [updateSettings] from the answer on (lines 397-409): only after an
    [ok] response the settings are also sent over the WebSocket, if it
    is open.  Both [readyState] and [translationSettings] are read at
    that moment, not when the handler was called.  A failed request or
    a response that is not [ok] is logged. *)
Definition updateSettings_answer (r : Fetched unit) (s : State) : State :=
  match r with
  | Response true _ =>
      match translationWebSocket s with
      | Some OPEN =>
          set_outbox (outbox s ++ [update_settings (translationSettings s)])
                     s
      | _ => s
      end
  | _ => s
  end.

(** An update whose answer arrives before anything else happens. *)
Definition updateSettings (r : Fetched unit) (s : State) : State :=
  updateSettings_answer r (updateSettings_request s).

(** The three bounded sliders of the panel, with their [min] and [max]
    attributes counted in steps of [step="0.1"] (lines 61-66, 77-82,
    125-130). *)
Definition slider_bounds (key : string) : option (Z * Z) :=
  if String.eqb key "originalVoiceVolume" then Some (0, 10)%Z
  else if String.eqb key "translatedVoiceVolume" then Some (0, 10)%Z
  else if String.eqb key "voiceSpeed" then Some (5, 20)%Z
  else None.

(** A range control ([<input type="range" min max step>]) only ever
    holds a value on its step grid between [min] and [max], wherever the
    user tries to drag it. *)
Definition held (bounds : Z * Z) (wanted : Z) : Z :=
  Z.max (fst bounds) (Z.min (snd bounds) wanted).

Definition digit (d : Z) : Ascii.ascii :=
  Ascii.ascii_of_N (48 + Z.to_N d).

(** The control's [value] is a string: the shortest decimal text of the
    number held ("0", "0.3", "1", "1.5", "2"), here for less than a
    hundred tenths. *)
Definition tenths_text (k : Z) : string :=
  let whole := String (digit (k / 10)) "" in
  if (k mod 10 =? 0)%Z then whole
  else whole +:+ "." +:+ String (digit (k mod 10)) "".

(** Dragging one of those sliders: [v-model] (without [.number]) stores
    the control's [value], a string, then [@input="updateSettings"]
    runs. *)
Definition drag_slider (key : string) (bounds : Z * Z) (wanted : Z)
  (r : Fetched unit) (s : State) : State :=
  updateSettings r (v_model key (JStr (tenths_text (held bounds wanted))) s).

(** The [<option>] values of the position select (lines 146-148). *)
Definition position_options : list string := ["top"; "bottom"; "overlay"].

(** *** The component as a reactive system *)

(** What can happen to a mounted component: a frame arrives on the
    socket, time passes, the socket opens, or the user changes a control
    bound with [v-model] whose handler is [updateSettings] (the request
    is answered by [r] before anything else happens).  The closing and
    replacing of the socket is in [Connection], the voice preview in
    [OverlayExtras]; the [orientationchange] listener, and answers that
    arrive later, are in [Session]. *)
Inductive Event : Type :=
| Message (data : gmap string jsval)
| Clock (t : Z)
| SocketOpened
| Edit (key : string) (v : jsval) (r : Fetched unit).

Definition step (P : Platform) (s : State) (ev : Event) : State :=
  match ev with
  | Message data => handleWebSocketMessage P s data
  | Clock t => advance t s
  | SocketOpened =>
      match translationWebSocket s with
      | Some CONNECTING => set_translationWebSocket (Some OPEN) s
      | _ => s
      end
  | Edit key v r => updateSettings r (v_model key v s)
  end.

Definition run (P : Platform) (evs : list Event) (s : State) : State :=
  foldl (step P) s evs.

(** Events that only deliver something to the listener. *)
Definition is_delivery (ev : Event) : bool :=
  match ev with
  | Message _ | Clock _ | SocketOpened => true
  | Edit _ _ _ => false
  end.

(** *** The documented ranges of the bounded fields *)

Definition in_range (lo hi : Q) (v : jsval) : bool :=
  match v with
  | JNum q => Qle_bool lo q && Qle_bool q hi
  | _ => false
  end.

Definition is_position (v : jsval) : bool :=
  match v with
  | JStr p => bool_decide (p ∈ position_options)
  | _ => false
  end.


(** The settings store did not deliver settings: the request failed, the
    response was not [ok], or its body could not be read. *)
Definition settings_unavailable (r : Fetched (gmap string jsval)) : bool :=
  match r with
  | Response true (Some _) => false
  | _ => true
  end.


Definition within_bounds (settings : gmap string jsval) : bool :=
  in_range 0 1 (get settings "originalVoiceVolume")
  && in_range 0 1 (get settings "translatedVoiceVolume")
  && in_range 0.5 2.0 (get settings "voiceSpeed")
  && is_position (get settings "subtitlePosition").

(** *** The bounded fields read as numbers *)

Definition digit_value (a : Ascii.ascii) : option Z :=
  let n := Z.of_N (Ascii.N_of_ascii a) in
  if (48 <=? n)%Z && (n <=? 57)%Z then Some (n - 48)%Z else None.

(** The number a decimal text of the shape "d" or "d.d" denotes, as
    [Number(text)] gives it. *)
Definition decimal_value (text : string) : option Q :=
  match text with
  | String w EmptyString =>
      match digit_value w with
      | Some d => Some (d # 1)%Q
      | None => None
      end
  | String w (String point (String f EmptyString)) =>
      match digit_value w, digit_value f with
      | Some d, Some t =>
          if Ascii.eqb point (Ascii.ascii_of_N 46)
          then Some ((10 * d + t) # 10)%Q
          else None
      | _, _ => None
      end
  | _ => None
  end.

(** The number a stored value stands for where the code uses it as one:
    a number is itself, the text a slider stored is the number it
    denotes. *)
Definition numeric (v : jsval) : option Q :=
  match v with
  | JNum q => Some q
  | JStr text => decimal_value text
  | _ => None
  end.

Definition reads_in_range (lo hi : Q) (v : jsval) : bool :=
  match numeric v with
  | Some q => Qle_bool lo q && Qle_bool q hi
  | None => false
  end.



Definition reads_within_bounds (settings : gmap string jsval) : bool :=
  reads_in_range 0 1 (get settings "originalVoiceVolume")
  && reads_in_range 0 1 (get settings "translatedVoiceVolume")
  && reads_in_range 0.5 2.0 (get settings "voiceSpeed")
  && is_position (get settings "subtitlePosition").

(** *** What the controls of the panel can deliver *)

Definition is_checkbox (key : string) : bool :=
  String.eqb key "textTranslationEnabled"
  || String.eqb key "voiceTranslationEnabled".

(** The font size slider (lines 155-160): whole numbers from 12 to 24. *)
Definition font_size_texts : list string :=
  ["12"; "13"; "14"; "15"; "16"; "17"; "18"; "19"; "20"; "21"; "22"; "23";
   "24"].

(** The values [v-model] can write into a field of the settings: a
    checkbox a boolean, a slider a text of its grid, the position select
    one of its options, the voice select the id of a voice or the empty
    string.  Fields without a control get nothing. *)
Definition control_delivers (key : string) (v : jsval) : bool :=
  if is_checkbox key then
    match v with JBool _ => true | _ => false end
  else if String.eqb key "subtitlePosition" then is_position v
  else if String.eqb key "preferredVoiceId" then true
  else if String.eqb key "subtitleFontSize" then
    match v with
    | JStr text => bool_decide (text ∈ font_size_texts)
    | _ => false
    end
  else
    match slider_bounds key, v with
    | Some bounds, JStr text =>
        bool_decide
          (text ∈ tenths_text <$> seqZ (fst bounds)
                                    (snd bounds - fst bounds + 1))
    | _, _ => false
    end.
End Overlay.

(** ** The TranslationSettings component (settings page) *)

Module SettingsPage.

(** [saveStatus.value = { type, message }]; the message is [t(key)] and
    the model keeps the key. *)
Record SaveStatus : Type := {
  type : string;
  message : string
}.

Record State : Type := {
  settings : gmap string jsval;
  saveStatus : option SaveStatus;
  (* the world *)
  now : Z;
  status_timers : list Z;
  requests : list (gmap string jsval)
}.

(** The object literal passed to [reactive(...)] (lines 254-264). *)
Definition default_settings : gmap string jsval :=
  {[ "textTranslationEnabled" := JBool true;
     "voiceTranslationEnabled" := JBool false;
     "originalVoiceVolume" := JNum 0.3;
     "translatedVoiceVolume" := JNum 0.8;
     "preferredVoiceId" := JStr "";
     "voiceSpeed" := JNum 1.0;
     "subtitlePosition" := JStr "bottom";
     "subtitleFontSize" := JNum 16;
     "subtitleBackgroundOpacity" := JNum 0.7 ]}.

Definition initial : State :=
  {| settings := default_settings; saveStatus := None;
     now := 0%Z; status_timers := []; requests := [] |}.

(** [showSaveStatus] (lines 392-397): show the status and clear it three
    seconds later. *)
Definition showSaveStatus (ty msg : string) (s : State) : State :=
  {| settings := settings s;
     saveStatus := Some {| type := ty; message := msg |};
     now := now s;
     status_timers := status_timers s ++ [(now s + 3000)%Z];
     requests := requests s |}.


(** A [v-model] binding of the page writes into [settings]. *)
Definition v_model (key : string) (v : jsval) (s : State) : State :=
  {| settings := set (settings s) key v;
     saveStatus := saveStatus s; now := now s;
     status_timers := status_timers s; requests := requests s |}.

(** [saveSettings] (lines 302-322): PUT the whole object and report the
    result in the status line. *)
Definition saveSettings (r : Fetched unit) (s : State) : State :=
  let s1 :=
    {| settings := settings s; saveStatus := saveStatus s; now := now s;
       status_timers := status_timers s;
       requests := requests s ++ [settings s] |} in
  match r with
  | Response true _ =>
      showSaveStatus "success" "translation.save_success" s1
  | _ => showSaveStatus "error" "translation.save_error" s1
  end.

(** Time passes until [t]: every status timer due by then runs its
    callback, [saveStatus.value = null]. *)
Definition advance (t : Z) (s : State) : State :=
  {| settings := settings s;
     saveStatus :=
       if bool_decide (Exists (fun d => (d <= t)%Z) (status_timers s))
       then None else saveStatus s;
     now := Z.max (now s) t;
     status_timers := filter (fun d => ~ (d <= t)%Z) (status_timers s);
     requests := requests s |}.

(** Dragging one of the bounded sliders of the page (lines 59-66, 80-87
    and 101-108): [v-model] stores the control's [value], a string, then
    [@input="saveSettings"] runs. *)
Definition drag_slider (key : string) (bounds : Z * Z) (wanted : Z)
  (r : Fetched unit) (s : State) : State :=
  saveSettings r
    (v_model key (JStr (Overlay.tenths_text (Overlay.held bounds wanted))) s).

End SettingsPage.

(** ** The relay's fan-out orchestrator *)

Module Relay.

(** Modelled from the spec: the relay runs on the server and its code is
    not part of the frontend sources; the data model follows section 3
    (Translation Settings, Participant Channel, Utterance, Delivery
    Envelope) and the algorithm follows the six steps of section 4.3. *)
Record TranslationSettings : Type := {
  textEnabled : bool;
  voiceEnabled : bool;
  originalVolume : Qc;
  translatedVolume : Qc;
  preferredVoiceId : option string;
  voiceSpeed : Qc;
  subtitlePosition : string;
  subtitleFontSize : Qc;
  subtitleOpacity : Qc
}.

(** One entry of [Snapshot(room)]: the participant id is the key of the
    map and also names the participant's delivery queue. *)
Record Channel : Type := {
  language : string;
  settings : TranslationSettings
}.

Record Utterance : Type := {
  speaker : string;
  sourceLanguage : string;
  transcript : string;
  arrival : Z
}.

Inductive Envelope : Type :=
| TextEnvelope (speakerId original translated source target : string)
| VoiceEnvelope (speakerId target : string) (voiceId : option string)
    (audio : list N).

(** The two providers the orchestrator consumes; [None] is an error or
    an expired deadline.  A provider is a service and need not answer
    the same request twice alike (it may time out once and answer the
    next time, or phrase a translation differently): the first argument
    counts the calls the provider has been asked before. *)
Record Providers : Type := {
  Translate : nat -> string -> string -> string -> option string;
  Synthesize :
    nat -> string -> string -> option string -> Qc -> option (list N)
}.

(** A recorded call of the Translation Provider:
    (text, sourceLanguage, targetLanguage). *)
Definition TranslateCall : Type := string * string * string.

(** A recorded call of the Synthesis Provider:
    (text, targetLanguage, voiceId, speed). *)
Definition SynthesizeCall : Type := string * string * option string * Qc.

(** Step 2: the speaker's own channel is not a listener. *)
Definition listeners (snapshot : gmap string Channel) (u : Utterance)
  : gmap string Channel :=
  delete (speaker u) snapshot.

Definition wants_translation (ch : Channel) : bool :=
  textEnabled (settings ch) || voiceEnabled (settings ch).

(** Step 3: the distinct target languages among the listeners with
    [textEnabled || voiceEnabled]. *)
Definition target_languages (snapshot : gmap string Channel) (u : Utterance)
  : gset string :=
  map_img (language <$>
           filter (fun pc => wants_translation pc.2 = true)
                  (listeners snapshot u)).

(** Step 4, one language: the provider is invoked (it has been asked
    [asked] times before this utterance, and once for every call
    recorded so far), the call is recorded, and a result goes into the
    cache of this utterance. *)
Definition translate_one (P : Providers) (u : Utterance) (asked : nat)
  (acc : list TranslateCall * gmap string string) (target : string)
  : list TranslateCall * gmap string string :=
  let call := (transcript u, sourceLanguage u, target) in
  match Translate P (asked + length acc.1)
          (transcript u) (sourceLanguage u) target with
  | Some translated => (acc.1 ++ [call], <[target := translated]> acc.2)
  | None => (acc.1 ++ [call], acc.2)
  end.

(** Step 4: every distinct target language, starting from an empty
    cache. *)
Definition translate_all (P : Providers) (u : Utterance) (asked : nat)
  (targets : gset string) : list TranslateCall * gmap string string :=
  foldl (translate_one P u asked) ([], ∅) (elements targets).

(** Step 5: a Text Envelope for every listener with [textEnabled] whose
    language was translated, from the cache. *)
Definition text_envelopes (u : Utterance) (cache : gmap string string)
  (ls : gmap string Channel) : list (string * Envelope) :=
  omap (fun pc : string * Channel =>
          if textEnabled (settings pc.2) then
            translated ← cache !! language pc.2;
            Some (pc.1, TextEnvelope (speaker u) (transcript u) translated
                          (sourceLanguage u) (language pc.2))
          else None)
       (map_to_list ls).

(** Step 6: the synthesis key of a listener. *)
Definition voice_key (ch : Channel) : string * option string * Qc :=
  (language ch, preferredVoiceId (settings ch), voiceSpeed (settings ch)).

Definition voice_keys (ls : gmap string Channel)
  : gset (string * option string * Qc) :=
  map_img (voice_key <$>
           filter (fun pc => voiceEnabled (settings pc.2) = true) ls).

(** Step 6, one key: synthesize the cached translation once and hand the
    audio to every listener with exactly that key. *)
Definition synthesize_one (P : Providers) (u : Utterance) (asked : nat)
  (cache : gmap string string) (ls : gmap string Channel)
  (acc : list SynthesizeCall * list (string * Envelope))
  (key : string * option string * Qc)
  : list SynthesizeCall * list (string * Envelope) :=
  match cache !! key.1.1 with
  | None => acc
  | Some translated =>
      let call := (translated, key.1.1, key.1.2, key.2) in
      match Synthesize P (asked + length acc.1)
              translated key.1.1 key.1.2 key.2 with
      | None => (acc.1 ++ [call], acc.2)
      | Some audio =>
          (acc.1 ++ [call],
           acc.2 ++
           omap (fun pc : string * Channel =>
                   if voiceEnabled (settings pc.2)
                      && bool_decide (voice_key pc.2 = key)
                   then Some (pc.1, VoiceEnvelope (speaker u) key.1.1
                                      key.1.2 audio)
                   else None)
                (map_to_list ls))
      end
  end.

Record FanOut : Type := {
  translate_calls : list TranslateCall;
  synthesize_calls : list SynthesizeCall;
  enqueued : list (string * Envelope)
}.

(** Modelled from the spec: the orchestrator itself is missing from the
    sources; this is section 4.3, steps 1 to 6, for one utterance and
    the snapshot taken for it.  [translated] and [synthesized] say how
    often the two providers were asked before. *)
Definition fan_out (P : Providers) (translated synthesized : nat)
  (snapshot : gmap string Channel) (u : Utterance) : FanOut :=
  let ls := listeners snapshot u in
  let answers :=
    translate_all P u translated (target_languages snapshot u) in
  let texts := text_envelopes u answers.2 ls in
  let voices :=
    foldl (synthesize_one P u synthesized answers.2 ls) ([], [])
          (elements (voice_keys ls)) in
  {| translate_calls := answers.1;
     synthesize_calls := voices.1;
     enqueued := texts ++ voices.2 |}.

(** Modelled from the spec: what the relay keeps from one utterance to
    the next is not in the frontend sources either.  By section 4.3,
    step 4, no translation is kept; what remains is what has left the
    orchestrator: the calls the providers received and the envelopes put
    on the delivery queues (listener, envelope), in order. *)
Record Relayed : Type := {
  translations : list TranslateCall;
  syntheses : list SynthesizeCall;
  queued : list (string * Envelope)
}.

Definition idle : Relayed :=
  {| translations := []; syntheses := []; queued := [] |}.

(** Modelled from the spec: one recognized utterance, with the snapshot
    taken for it, is fanned out; the providers have been asked as often
    as the relay has recorded. *)
Definition relay (P : Providers) (st : Relayed)
  (work : gmap string Channel * Utterance) : Relayed :=
  let r :=
    fan_out P (length (translations st)) (length (syntheses st))
            work.1 work.2 in
  {| translations := translations st ++ translate_calls r;
     syntheses := syntheses st ++ synthesize_calls r;
     queued := queued st ++ enqueued r |}.

(** How often the Translation Provider was asked for a target
    language. *)
Definition calls_for (target : string) (calls : list TranslateCall) : nat :=
  length (filter (fun c : TranslateCall => c.2 = target) calls).

(** A listener of the utterance that needs [target]. *)
Definition needs (snapshot : gmap string Channel) (u : Utterance)
  (target : string) : Prop :=
  exists p ch, snapshot !! p = Some ch /\ p <> speaker u /\
    (textEnabled (settings ch) = true \/ voiceEnabled (settings ch) = true)
    /\ language ch = target.

(** A listener of the utterance with captions on whose language is
    [target]. *)
Definition reads_captions (snapshot : gmap string Channel) (u : Utterance)
  (target p : string) : Prop :=
  exists ch, snapshot !! p = Some ch /\ p <> speaker u /\
    language ch = target /\ textEnabled (settings ch) = true.

(** The Text Envelopes among some queued envelopes, for one target
    language: (listener, translated text). *)
Definition texts_for (target : string) (es : list (string * Envelope))
  : list (string * string) :=
  omap (fun e : string * Envelope =>
          match e.2 with
          | TextEnvelope _ _ translated _ lang =>
              if String.eqb lang target then Some (e.1, translated)
              else None
          | VoiceEnvelope _ _ _ _ => None
          end) es.

End Relay.

(** ** Concrete instances used in examples *)

Module Samples.

(** A base64 decoder for the standard alphabet with [=] padding, as a
    stand-in for the browser's [atob] on strings. *)
Definition sextet (c : Ascii.ascii) : option N :=
  let n := Ascii.N_of_ascii c in
  if (65 <=? n)%N && (n <=? 90)%N then Some (n - 65)%N
  else if (97 <=? n)%N && (n <=? 122)%N then Some (n - 71)%N
  else if (48 <=? n)%N && (n <=? 57)%N then Some (n + 4)%N
  else if (n =? 43)%N then Some 62%N
  else if (n =? 47)%N then Some 63%N
  else None.

Definition byte_of (n : N) : Ascii.ascii := Ascii.ascii_of_N (n mod 256).

Definition is_pad (c : Ascii.ascii) : bool := (Ascii.N_of_ascii c =? 61)%N.

Fixpoint base64_groups (l : list Ascii.ascii) : option (list Ascii.ascii) :=
  match l with
  | [] => Some []
  | a :: b :: c :: d :: rest =>
      x ← sextet a; y ← sextet b;
      let b1 := byte_of (x * 4 + y / 16) in
      if is_pad c && is_pad d then
        match rest with [] => Some [b1] | _ => None end
      else
        z ← sextet c;
        let b2 := byte_of (y * 16 + z / 4) in
        if is_pad d then
          match rest with [] => Some [b1; b2] | _ => None end
        else
          w ← sextet d;
          tail ← base64_groups rest;
          Some (b1 :: b2 :: byte_of (z * 64 + w) :: tail)
  | _ => None
  end.

Definition base64_decode (s : string) : option string :=
  String.string_of_list_ascii <$> base64_groups (String.list_ascii_of_string s).

(** 8-bit samples around 128; empty data is refused. *)
Definition pcm8 (bytes : list N) : option Overlay.AudioBuffer :=
  match bytes with
  | [] => None
  | _ => Some (map (fun b => (Z.of_N b - 128)%Z) bytes)
  end.

(** A browser: a string converts to the number its decimal text
    denotes, an object to none. *)
Definition browser : Overlay.Platform :=
  {| Overlay.atob := fun v =>
       match v with JStr s => base64_decode s | _ => None end;
     Overlay.decodeAudioData := pcm8;
     Overlay.toNumber := Overlay.numeric |}.

(** A [text_translation] message. *)
Definition text_message (speaker original translated : string)
  : gmap string jsval :=
  {[ "type" := JStr "text_translation";
     "speaker_id" := JStr speaker;
     "original_text" := JStr original;
     "translated_text" := JStr translated;
     "source_language" := JStr "ja";
     "target_language" := JStr "en" ]}.

(** A [voice_translation] message. *)
Definition voice_message (speaker payload : string) : gmap string jsval :=
  {[ "type" := JStr "voice_translation";
     "speaker_id" := JStr speaker;
     "target_language" := JStr "en";
     "audio_data" := JStr payload ]}.

(** A component that is up: socket open, audio context created, voice
    translation switched on. *)
Definition listening_with_voice : Overlay.State :=
  Overlay.set_translationSettings
    (set Overlay.default_settings "voiceTranslationEnabled" (JBool true))
    (Overlay.set_audioContext true
       (Overlay.set_translationWebSocket (Some Overlay.OPEN)
          Overlay.initial)).

(** A desktop browser in which the settings and voices requests fail and
    both constructors succeed. *)
Definition desktop : Overlay.Env :=
  {| Overlay.innerWidth := 1280;
     Overlay.settings_fetch := NetworkError;
     Overlay.voices_fetch := NetworkError;
     Overlay.websocket_constructs := true;
     Overlay.audiocontext_constructs := true |}.

(** A browser that refuses the audio context; the stored settings have
    voice translation switched on. *)
Definition without_audio : Overlay.Env :=
  {| Overlay.innerWidth := 1280;
     Overlay.settings_fetch :=
       Response true (Some {[ "voiceTranslationEnabled" := JBool true ]});
     Overlay.voices_fetch := NetworkError;
     Overlay.websocket_constructs := true;
     Overlay.audiocontext_constructs := false |}.

(** A desktop browser whose settings store holds an original voice
    volume of 1.5. *)
Definition stored_too_loud : Overlay.Env :=
  {| Overlay.innerWidth := 1280;
     Overlay.settings_fetch :=
       Response true (Some {[ "originalVoiceVolume" := JNum 1.5 ]});
     Overlay.voices_fetch := NetworkError;
     Overlay.websocket_constructs := true;
     Overlay.audiocontext_constructs := true |}.

(** The room of the scenario in section 8 of the specification. *)
Definition relay_settings (text voice : bool) (voiceId : option string)
  : Relay.TranslationSettings :=
  {| Relay.textEnabled := text; Relay.voiceEnabled := voice;
     Relay.originalVolume := Q2Qc 0.3; Relay.translatedVolume := Q2Qc 0.8;
     Relay.preferredVoiceId := voiceId; Relay.voiceSpeed := Q2Qc 1;
     Relay.subtitlePosition := "bottom";
     Relay.subtitleFontSize := Q2Qc 16; Relay.subtitleOpacity := Q2Qc 0.7 |}.

Definition room : gmap string Relay.Channel :=
  {[ "A" := {| Relay.language := "ja";
               Relay.settings := relay_settings true false None |};
     "B" := {| Relay.language := "en";
               Relay.settings := relay_settings true true (Some "V1") |};
     "C" := {| Relay.language := "en";
               Relay.settings := relay_settings true false None |};
     "D" := {| Relay.language := "ko";
               Relay.settings := relay_settings true true None |} ]}.

Definition greeting : Relay.Utterance :=
  {| Relay.speaker := "A"; Relay.sourceLanguage := "ja";
     Relay.transcript := "konnichiwa"; Relay.arrival := 0%Z |}.

(** Providers that always answer, the Translation Provider with another
    phrase from its third call on. *)
Definition providers : Relay.Providers :=
  {| Relay.Translate := fun asked text source target =>
       Some (target +:+ (if Nat.ltb asked 2 then ":" else ";") +:+ text)%string;
     Relay.Synthesize := fun asked text target voice speed =>
       Some [N.of_nat (String.length text)] |}.

End Samples.

(** ** TranslationOverlay.vue: the speaker label and the voice preview *)

Module OverlayExtras.

(** [getSpeakerName] (lines 463-466): the name of the first participant
    whose [id] is the speaker's, or the text for an unknown speaker when
    there is none or its name is falsy.  [t] is the translation
    function of vue-i18n. *)
Definition getSpeakerName (t : string -> string)
  (participants : list (gmap string jsval)) (speakerId : jsval) : jsval :=
  match List.find (fun p => strict_eq (get p "id") speakerId) participants with
  | Some participant =>
      if truthy (get participant "name") then get participant "name"
      else JStr (t "translation.unknown_speaker")
  | None => JStr (t "translation.unknown_speaker")
  end.

(** The overlay together with the state of its voice preview: the
    [isPlayingPreview] ref, the bodies of the synthesize requests, the
    preview sources that were started (straight on the destination, no
    gain node) and how many of them have not ended yet. *)
Record State : Type := {
  overlay : Overlay.State;
  isPlayingPreview : bool;
  synthesize_requests : list (gmap string jsval);
  preview_sources : list Overlay.AudioBuffer;
  sounding : nat
}.

Definition set_isPlayingPreview (b : bool) (s : State) : State :=
  {| overlay := overlay s; isPlayingPreview := b;
     synthesize_requests := synthesize_requests s;
     preview_sources := preview_sources s; sounding := sounding s |}.

(** The body of the POST request of [playVoicePreview]. *)
Definition preview_body (t : string -> string)
  (settings : gmap string jsval) : gmap string jsval :=
  {[ "text" := JStr (t "translation.sample_text");
     "voice_id" := get settings "preferredVoiceId";
     "speed" := get settings "voiceSpeed" ]}.

(** [playVoicePreview] of the overlay (lines 412-461), up to the start of
    the source.  A response that is not [ok] skips the [if] and nothing
    more happens; every exception ends in the [catch], which clears the
    flag; after a start the flag stays set until the source ends. *)
Definition playVoicePreview (P : Overlay.Platform) (t : string -> string)
  (r : Fetched (gmap string jsval)) (s : State) : State :=
  let settings := Overlay.translationSettings (overlay s) in
  if negb (truthy (get settings "preferredVoiceId")) || isPlayingPreview s
  then s
  else
    let s1 :=
      {| overlay := overlay s; isPlayingPreview := true;
         synthesize_requests :=
           synthesize_requests s ++ [preview_body t settings];
         preview_sources := preview_sources s; sounding := sounding s |} in
    match r with
    | NetworkError => set_isPlayingPreview false s1
    | Response false _ => s1
    | Response true None => set_isPlayingPreview false s1
    | Response true (Some result) =>
        match Overlay.atob P (get result "audio_data") with
        | None => set_isPlayingPreview false s1
        | Some audioData =>
            if Overlay.audioContext (overlay s1) then
              let o :=
                Overlay.set_decode_requests
                  (Overlay.decode_requests (overlay s1)
                   ++ [Overlay.audioArray audioData]) (overlay s1) in
              match Overlay.decodeAudioData P (Overlay.audioArray audioData)
              with
              | None =>
                  {| overlay := o; isPlayingPreview := false;
                     synthesize_requests := synthesize_requests s1;
                     preview_sources := preview_sources s1;
                     sounding := sounding s1 |}
              | Some decodedAudio =>
                  {| overlay := o; isPlayingPreview := true;
                     synthesize_requests := synthesize_requests s1;
                     preview_sources := preview_sources s1 ++ [decodedAudio];
                     sounding := S (sounding s1) |}
              end
            else set_isPlayingPreview false s1
        end
    end.

(** The [onended] handler of a preview source; it can only run for a
    source that is still sounding. *)
Definition preview_ended (s : State) : State :=
  match sounding s with
  | O => s
  | S n =>
      {| overlay := overlay s; isPlayingPreview := false;
         synthesize_requests := synthesize_requests s;
         preview_sources := preview_sources s; sounding := n |}
  end.

(** The preview button: [:disabled="!preferredVoiceId || isPlayingPreview"]
    (line 112). *)
Definition preview_disabled (s : State) : bool :=
  negb (truthy (get (Overlay.translationSettings (overlay s))
                    "preferredVoiceId"))
  || isPlayingPreview s.

Inductive Event : Type :=
| Click (r : Fetched (gmap string jsval))
| Ended
| Incoming (ev : Overlay.Event).

Definition step (P : Overlay.Platform) (t : string -> string) (s : State)
  (ev : Event) : State :=
  match ev with
  | Click r => playVoicePreview P t r s
  | Ended => preview_ended s
  | Incoming e =>
      {| overlay := Overlay.step P (overlay s) e;
         isPlayingPreview := isPlayingPreview s;
         synthesize_requests := synthesize_requests s;
         preview_sources := preview_sources s; sounding := sounding s |}
  end.

Definition run (P : Overlay.Platform) (t : string -> string)
  (evs : list Event) (s : State) : State :=
  foldl (step P t) s evs.

Definition mounted (o : Overlay.State) : State :=
  {| overlay := o; isPlayingPreview := false; synthesize_requests := [];
     preview_sources := []; sounding := 0 |}.

End OverlayExtras.

(** ** The settings page: the voice preview *)

Module PageExtras.

(** The page together with its preview state: [isPlayingPreview], the
    lazily created audio context, the synthesize requests, the sources
    started and how many have not ended yet. *)
Record State : Type := {
  page : SettingsPage.State;
  isPlayingPreview : bool;
  audioContext : bool;
  synthesize_requests : list (gmap string jsval);
  preview_sources : list Overlay.AudioBuffer;
  decode_requests : list (list N);
  sounding : nat
}.

Definition mounted (p : SettingsPage.State) : State :=
  {| page := p; isPlayingPreview := false; audioContext := false;
     synthesize_requests := []; preview_sources := [];
     decode_requests := []; sounding := 0 |}.

(** The [catch] and [finally] of [playVoicePreview] (lines 352-357), with
    the state the [try] block left behind. *)
Definition preview_failed (s : State) : State :=
  {| page :=
       SettingsPage.showSaveStatus "error" "translation.preview_error"
         (page s);
     isPlayingPreview := false; audioContext := audioContext s;
     synthesize_requests := synthesize_requests s;
     preview_sources := preview_sources s;
     decode_requests := decode_requests s; sounding := sounding s |}.

(** [playAudioFromBase64] (lines 360-390) up to the start of the source;
    the flag is [false] when it throws, with the state at that point.
    The audio context is created on first use. *)
Definition playAudioFromBase64 (P : Overlay.Platform)
  (context_constructs : bool) (base64Audio : jsval) (s : State)
  : State * bool :=
  if negb (audioContext s) && negb context_constructs then (s, false)
  else
    let s1 :=
      {| page := page s; isPlayingPreview := isPlayingPreview s;
         audioContext := true;
         synthesize_requests := synthesize_requests s;
         preview_sources := preview_sources s;
         decode_requests := decode_requests s; sounding := sounding s |} in
    match Overlay.atob P base64Audio with
    | None => (s1, false)
    | Some audioData =>
        let bytes := Overlay.audioArray audioData in
        let s2 :=
          {| page := page s1; isPlayingPreview := isPlayingPreview s1;
             audioContext := true;
             synthesize_requests := synthesize_requests s1;
             preview_sources := preview_sources s1;
             decode_requests := decode_requests s1 ++ [bytes];
             sounding := sounding s1 |} in
        match Overlay.decodeAudioData P bytes with
        | None => (s2, false)
        | Some decodedAudio =>
            ({| page := page s2; isPlayingPreview := isPlayingPreview s2;
                audioContext := true;
                synthesize_requests := synthesize_requests s2;
                preview_sources := preview_sources s2 ++ [decodedAudio];
                decode_requests := decode_requests s2;
                sounding := S (sounding s2) |}, true)
        end
    end.

(** [playVoicePreview] of the page (lines 324-358), up to the point
    where it waits for the source to end. *)
Definition playVoicePreview (P : Overlay.Platform) (t : string -> string)
  (context_constructs : bool) (r : Fetched (gmap string jsval)) (s : State)
  : State :=
  let settings := SettingsPage.settings (page s) in
  if negb (truthy (get settings "preferredVoiceId")) || isPlayingPreview s
  then s
  else
    let s1 :=
      {| page := page s; isPlayingPreview := true;
         audioContext := audioContext s;
         synthesize_requests :=
           synthesize_requests s
           ++ [OverlayExtras.preview_body t settings];
         preview_sources := preview_sources s;
         decode_requests := decode_requests s; sounding := sounding s |} in
    match r with
    | Response true (Some result) =>
        match playAudioFromBase64 P context_constructs
                (get result "audio_data") s1 with
        | (s2, true) => s2
        | (s2, false) => preview_failed s2
        end
    | _ => preview_failed s1
    end.

(** The source ends: the promise of [playAudioFromBase64] resolves and
    the [finally] block runs. *)
Definition preview_ended (s : State) : State :=
  match sounding s with
  | O => s
  | S n =>
      {| page := page s; isPlayingPreview := false;
         audioContext := audioContext s;
         synthesize_requests := synthesize_requests s;
         preview_sources := preview_sources s;
         decode_requests := decode_requests s; sounding := n |}
  end.

(** The preview runs to its end: a started source ends. *)
Definition settle (s : State) : State :=
  match sounding s with
  | O => s
  | S _ => preview_ended s
  end.

End PageExtras.

(** ** TranslationOverlay.vue: the life of the socket *)

Module Connection.

(** The overlay together with what [initializeWebSocket] and [cleanup]
    leave in the world: the pending [setTimeout(initializeWebSocket,
    3000)] timers of the [onclose] handler (their due times), the number
    of WebSocket objects constructed, and the audio contexts that were
    constructed and not closed ([current_context_running] tells whether
    the one in [audioContext.value] is among them). *)
Record State : Type := {
  overlay : Overlay.State;
  reconnects : list Z;
  sockets : nat;
  contexts_running : nat;
  current_context_running : bool
}.

(** [initializeWebSocket] (lines 282-313) with the objects it
    constructs counted.  The handlers are attached to every socket it
    constructs; a new audio context replaces the one in
    [audioContext.value], which is not closed. *)
Definition initializeWebSocket (e : Overlay.Env) (s : State) : State :=
  match Overlay.initializeWebSocket e (overlay s) with
  | Overlay.Returns o =>
      {| overlay := o; reconnects := reconnects s;
         sockets := S (sockets s);
         contexts_running := S (contexts_running s);
         current_context_running := true |}
  | Overlay.Throws o =>
      {| overlay := o; reconnects := reconnects s;
         sockets :=
           if Overlay.websocket_constructs e then S (sockets s)
           else sockets s;
         contexts_running := contexts_running s;
         current_context_running := current_context_running s |}
  end.

(** The browser opens the socket: [onopen] only logs. *)
Definition socket_opened (s : State) : State :=
  match Overlay.translationWebSocket (overlay s) with
  | Some Overlay.CONNECTING =>
      {| overlay :=
           Overlay.set_translationWebSocket (Some Overlay.OPEN) (overlay s);
         reconnects := reconnects s; sockets := sockets s;
         contexts_running := contexts_running s;
         current_context_running := current_context_running s |}
  | _ => s
  end.

(** The browser closes the socket (a socket closes once): [onclose]
    schedules [initializeWebSocket] three seconds later. *)
Definition socket_closed (s : State) : State :=
  match Overlay.translationWebSocket (overlay s) with
  | None | Some Overlay.CLOSED => s
  | Some _ =>
      {| overlay :=
           Overlay.set_translationWebSocket (Some Overlay.CLOSED)
             (overlay s);
         reconnects :=
           reconnects s ++ [(Overlay.now (overlay s) + 3000)%Z];
         sockets := sockets s;
         contexts_running := contexts_running s;
         current_context_running := current_context_running s |}
  end.

(** [cleanup] (lines 468-475), run by [onUnmounted]: [close()] on the
    socket and on the audio context, when there are any. *)
Definition cleanup (s : State) : State :=
  let o :=
    match Overlay.translationWebSocket (overlay s) with
    | Some Overlay.CONNECTING | Some Overlay.OPEN =>
        Overlay.set_translationWebSocket (Some Overlay.CLOSING) (overlay s)
    | _ => overlay s
    end in
  if Overlay.audioContext (overlay s) && current_context_running s then
    {| overlay := o; reconnects := reconnects s; sockets := sockets s;
       contexts_running := pred (contexts_running s);
       current_context_running := false |}
  else
    {| overlay := o; reconnects := reconnects s; sockets := sockets s;
       contexts_running := contexts_running s;
       current_context_running := current_context_running s |}.

(** Time passes until [t]: the caption timers run as in the overlay, and
    every reconnect timer due by then calls [initializeWebSocket]; [e]
    says how the constructors answer. *)
Definition tick (t : Z) (e : Overlay.Env) (s : State) : State :=
  let ready := filter (fun d => (d <= t)%Z) (reconnects s) in
  let pending := filter (fun d => ~ (d <= t)%Z) (reconnects s) in
  foldl (fun s _ => initializeWebSocket e s)
        {| overlay := Overlay.advance t (overlay s); reconnects := pending;
           sockets := sockets s; contexts_running := contexts_running s;
           current_context_running := current_context_running s |}
        ready.

(** The component right after [onMounted]. *)
Definition mount (e : Overlay.Env) : State :=
  {| overlay := Overlay.onMounted e Overlay.initial;
     reconnects := [];
     sockets := if Overlay.websocket_constructs e then 1 else 0;
     contexts_running :=
       if Overlay.websocket_constructs e
          && Overlay.audiocontext_constructs e then 1 else 0;
     current_context_running :=
       Overlay.websocket_constructs e && Overlay.audiocontext_constructs e |}.

Inductive Event : Type :=
| Opened
| Closed
| Tick (t : Z) (e : Overlay.Env)
| Unmounted.

Definition step (s : State) (ev : Event) : State :=
  match ev with
  | Opened => socket_opened s
  | Closed => socket_closed s
  | Tick t e => tick t e s
  | Unmounted => cleanup s
  end.

Definition run (evs : list Event) (s : State) : State := foldl step s evs.

(** The socket in [translationWebSocket.value] can still deliver or
    close. *)
Definition live (s : State) : bool :=
  match Overlay.translationWebSocket (overlay s) with
  | Some Overlay.CONNECTING | Some Overlay.OPEN | Some Overlay.CLOSING =>
      true
  | _ => false
  end.

(** One round of losing the connection: the socket closes and three
    seconds pass. *)
Definition lose_and_wait (e : Overlay.Env) (s : State) : State :=
  tick (Overlay.now (overlay s) + 3000) e (socket_closed s).

End Connection.

(** ** The mounted overlay under the browser's event loop *)

Module Session.

(** What a pending timer does when it runs. *)
Inductive Task : Type :=
  (* the arrow function of [displayTranslation], lines 346-350 *)
| HideCaption (captured_original_text : jsval)
  (* [setTimeout(initializeWebSocket, 3000)] of [onclose], line 299 *)
| Reconnect
  (* the outer timer of the [orientationchange] listener, lines 487-496 *)
| Rerender
  (* its inner timer, lines 493-495, with the caption it holds *)
| PutBack (temp : Overlay.Caption).

(** The component with its sockets and audio contexts, the browser's
    timer queue (due time and task, in the order of registration) and
    the bodies of the PUT requests of [updateSettings] that are not
    answered yet.  The [orientationchange] listener is registered by
    [setupMobileOptimizations] on every mount and never removed. *)
Record State : Type := {
  component : Connection.State;
  queue : list (Z * Task);
  in_flight : list (gmap string jsval)
}.

Definition overlay (s : State) : Overlay.State :=
  Connection.overlay (component s).

Definition with_component (c : Connection.State) (s : State) : State :=
  {| component := c; queue := queue s; in_flight := in_flight s |}.

Definition with_overlay (o : Overlay.State) (s : State) : State :=
  with_component
    {| Connection.overlay := o;
       Connection.reconnects := Connection.reconnects (component s);
       Connection.sockets := Connection.sockets (component s);
       Connection.contexts_running :=
         Connection.contexts_running (component s);
       Connection.current_context_running :=
         Connection.current_context_running (component s) |} s.

Definition with_queue (q : list (Z * Task)) (s : State) : State :=
  {| component := component s; queue := q; in_flight := in_flight s |}.

Definition with_in_flight (bodies : list (gmap string jsval)) (s : State)
  : State :=
  {| component := component s; queue := queue s; in_flight := bodies |}.

(** The timers a handler of the component has registered go to the
    browser's queue. *)
Definition collect (s : State) : State :=
  let o := overlay s in
  {| component :=
       {| Connection.overlay := Overlay.set_clock (Overlay.now o) [] o;
          Connection.reconnects := [];
          Connection.sockets := Connection.sockets (component s);
          Connection.contexts_running :=
            Connection.contexts_running (component s);
          Connection.current_context_running :=
            Connection.current_context_running (component s) |};
     queue :=
       queue s
       ++ map (fun tm => (Overlay.due tm,
                          HideCaption (Overlay.captured_original_text tm)))
              (Overlay.timers o)
       ++ map (fun d => (d, Reconnect))
              (Connection.reconnects (component s));
     in_flight := in_flight s |}.

(** No timer is left in the component's own lists. *)
Definition settled (s : State) : Prop :=
  Overlay.timers (overlay s) = []
  /\ Connection.reconnects (component s) = [].

(** The clock reaches [t]. *)
Definition at_time (t : Z) (s : State) : State :=
  let o := overlay s in
  with_overlay
    (Overlay.set_clock (Z.max (Overlay.now o) t) (Overlay.timers o) o) s.

(** The timer that runs next: the one due earliest, and among those due
    at the same time the one registered first. *)
Fixpoint earliest (q : list (Z * Task)) : option (nat * (Z * Task)) :=
  match q with
  | [] => None
  | (d, task) :: rest =>
      match earliest rest with
      | Some (i, (d', task')) =>
          if (d' <? d)%Z then Some (S i, (d', task'))
          else Some (0, (d, task))
      | None => Some (0, (d, task))
      end
  end.

(** A timer runs, at its due time [d]. *)
Definition run_task (e : Overlay.Env) (d : Z) (task : Task) (s : State)
  : State :=
  let s := at_time d s in
  match task with
  | HideCaption text =>
      with_overlay
        (Overlay.timer_callback
           {| Overlay.due := d; Overlay.captured_original_text := text |}
           (overlay s)) s
  | Reconnect =>
      with_component (Connection.initializeWebSocket e (component s)) s
  | Rerender =>
      match Overlay.currentTranslation (overlay s) with
      | Some temp =>
          with_queue
            (queue s ++ [((Overlay.now (overlay s) + 50)%Z, PutBack temp)])
            (with_overlay
               (Overlay.set_currentTranslation None (overlay s)) s)
      | None => s
      end
  | PutBack temp =>
      with_overlay
        (Overlay.set_currentTranslation (Some temp) (overlay s)) s
  end.

(** The timers due by [t] run one after the other, those that are
    registered on the way included. *)
Fixpoint fire (fuel : nat) (e : Overlay.Env) (t : Z) (s : State) : State :=
  match fuel with
  | O => s
  | S fuel =>
      match earliest (queue s) with
      | Some (i, (d, task)) =>
          if (d <=? t)%Z
          then fire fuel e t
                 (run_task e d task (with_queue (delete i (queue s)) s))
          else s
      | None => s
      end
  end.

(** Time passes until [t]; [e] says how the constructors answer a
    reconnect.  A timer registers at most one further timer, and only a
    [Rerender] does, so twice the length of the queue is fuel enough. *)
Definition tick (t : Z) (e : Overlay.Env) (s : State) : State :=
  at_time t (fire (2 * length (queue s)) e t s).

(** The socket in [translationWebSocket.value] delivers frames. *)
Definition receiving (s : State) : bool :=
  match Overlay.translationWebSocket (overlay s) with
  | Some Overlay.OPEN => true
  | _ => false
  end.

(** What can happen to the mounted component: a frame arrives on the
    open socket; time passes; the socket opens or closes; the user
    changes a control ([v-model], then [updateSettings] up to its
    [await]); the answer to the [n]-th request in flight arrives; the
    device is turned. *)
Inductive Event : Type :=
| Message (data : gmap string jsval)
| Tick (t : Z) (e : Overlay.Env)
| SocketOpened
| SocketClosed
| Submitted (key : string) (v : jsval)
| Answered (n : nat) (r : Fetched unit)
| OrientationChanged.

Definition step (P : Overlay.Platform) (s : State) (ev : Event) : State :=
  match ev with
  | Message data =>
      if receiving s
      then collect
             (with_overlay
                (Overlay.handleWebSocketMessage P (overlay s) data) s)
      else s
  | Tick t e => tick t e s
  | SocketOpened =>
      with_component (Connection.socket_opened (component s)) s
  | SocketClosed =>
      collect (with_component (Connection.socket_closed (component s)) s)
  | Submitted key v =>
      with_in_flight
        (in_flight s
         ++ [Overlay.translationSettings (Overlay.v_model key v (overlay s))])
        (with_overlay
           (Overlay.updateSettings_request
              (Overlay.v_model key v (overlay s))) s)
  | Answered n r =>
      match in_flight s !! n with
      | Some _ =>
          with_in_flight (delete n (in_flight s))
            (with_overlay (Overlay.updateSettings_answer r (overlay s)) s)
      | None => s
      end
  | OrientationChanged =>
      with_queue
        (queue s ++ [((Overlay.now (overlay s) + 100)%Z, Rerender)]) s
  end.

Definition run (P : Overlay.Platform) (evs : list Event) (s : State)
  : State :=
  foldl (step P) s evs.

(** The component right after [onMounted]. *)
Definition mount (e : Overlay.Env) : State :=
  {| component := Connection.mount e; queue := []; in_flight := [] |}.

Definition is_layout (task : Task) : bool :=
  match task with
  | Rerender | PutBack _ => true
  | _ => false
  end.

Definition is_reconnect (task : Task) : bool :=
  match task with
  | Reconnect => true
  | _ => false
  end.

Definition is_rerender (task : Task) : bool :=
  match task with
  | Rerender => true
  | _ => false
  end.

(** The timer runs still to come from a queue, counted from above: every
    entry runs once, and a [Rerender] may register one more. *)
Definition pending_work (q : list (Z * Task)) : nat :=
  length q + length (filter (fun p => is_rerender (snd p) = true) q).

(** The task is a caption timer that would take a caption with the
    original text [text] off the screen. *)
Definition hides (text : jsval) (task : Task) : bool :=
  match task with
  | HideCaption captured => Overlay.still_showing text captured
  | _ => false
  end.

Definition is_close (ev : Event) : bool :=
  match ev with
  | SocketClosed => true
  | _ => false
  end.

End Session.

(** ** The video room, which hosts the overlay *)

Module VideoRoom.

(** The room object LiveKit hands to [onRoomConnected], as far as the
    component reads it. *)
Record RoomInstance : Type := {
  room_name : string;
  room_localParticipant : gmap string jsval
}.

(** The refs of [setup()] (lines 254-283) and the routes pushed to the
    router. *)
Record State : Type := {
  isConnecting : bool;
  isConnected : bool;
  isLeaving : bool;
  error : option string;
  roomToken : jsval;
  serverUrl : jsval;
  wineInfo : option (gmap string jsval);
  room : option RoomInstance;
  localParticipant : option (gmap string jsval);
  remoteParticipants : list (gmap string jsval);
  isCameraEnabled : bool;
  isMicrophoneEnabled : bool;
  isScreenSharing : bool;
  showParticipantsList : bool;
  showSettings : bool;
  isTranslationEnabled : bool;
  translationReady : bool;
  navigated : list string
}.

Definition set_isConnecting (v : bool) (s : State) : State :=
  {| isConnecting := v; isConnected := isConnected s;
     isLeaving := isLeaving s; error := error s; roomToken := roomToken s;
     serverUrl := serverUrl s; wineInfo := wineInfo s; room := room s;
     localParticipant := localParticipant s;
     remoteParticipants := remoteParticipants s;
     isCameraEnabled := isCameraEnabled s;
     isMicrophoneEnabled := isMicrophoneEnabled s;
     isScreenSharing := isScreenSharing s;
     showParticipantsList := showParticipantsList s;
     showSettings := showSettings s;
     isTranslationEnabled := isTranslationEnabled s;
     translationReady := translationReady s; navigated := navigated s |}.

Definition set_isConnected (v : bool) (s : State) : State :=
  {| isConnecting := isConnecting s; isConnected := v;
     isLeaving := isLeaving s; error := error s; roomToken := roomToken s;
     serverUrl := serverUrl s; wineInfo := wineInfo s; room := room s;
     localParticipant := localParticipant s;
     remoteParticipants := remoteParticipants s;
     isCameraEnabled := isCameraEnabled s;
     isMicrophoneEnabled := isMicrophoneEnabled s;
     isScreenSharing := isScreenSharing s;
     showParticipantsList := showParticipantsList s;
     showSettings := showSettings s;
     isTranslationEnabled := isTranslationEnabled s;
     translationReady := translationReady s; navigated := navigated s |}.

Definition set_isLeaving (v : bool) (s : State) : State :=
  {| isConnecting := isConnecting s; isConnected := isConnected s;
     isLeaving := v; error := error s; roomToken := roomToken s;
     serverUrl := serverUrl s; wineInfo := wineInfo s; room := room s;
     localParticipant := localParticipant s;
     remoteParticipants := remoteParticipants s;
     isCameraEnabled := isCameraEnabled s;
     isMicrophoneEnabled := isMicrophoneEnabled s;
     isScreenSharing := isScreenSharing s;
     showParticipantsList := showParticipantsList s;
     showSettings := showSettings s;
     isTranslationEnabled := isTranslationEnabled s;
     translationReady := translationReady s; navigated := navigated s |}.

Definition set_error (v : option string) (s : State) : State :=
  {| isConnecting := isConnecting s; isConnected := isConnected s;
     isLeaving := isLeaving s; error := v; roomToken := roomToken s;
     serverUrl := serverUrl s; wineInfo := wineInfo s; room := room s;
     localParticipant := localParticipant s;
     remoteParticipants := remoteParticipants s;
     isCameraEnabled := isCameraEnabled s;
     isMicrophoneEnabled := isMicrophoneEnabled s;
     isScreenSharing := isScreenSharing s;
     showParticipantsList := showParticipantsList s;
     showSettings := showSettings s;
     isTranslationEnabled := isTranslationEnabled s;
     translationReady := translationReady s; navigated := navigated s |}.

Definition set_roomToken (v : jsval) (s : State) : State :=
  {| isConnecting := isConnecting s; isConnected := isConnected s;
     isLeaving := isLeaving s; error := error s; roomToken := v;
     serverUrl := serverUrl s; wineInfo := wineInfo s; room := room s;
     localParticipant := localParticipant s;
     remoteParticipants := remoteParticipants s;
     isCameraEnabled := isCameraEnabled s;
     isMicrophoneEnabled := isMicrophoneEnabled s;
     isScreenSharing := isScreenSharing s;
     showParticipantsList := showParticipantsList s;
     showSettings := showSettings s;
     isTranslationEnabled := isTranslationEnabled s;
     translationReady := translationReady s; navigated := navigated s |}.

Definition set_serverUrl (v : jsval) (s : State) : State :=
  {| isConnecting := isConnecting s; isConnected := isConnected s;
     isLeaving := isLeaving s; error := error s; roomToken := roomToken s;
     serverUrl := v; wineInfo := wineInfo s; room := room s;
     localParticipant := localParticipant s;
     remoteParticipants := remoteParticipants s;
     isCameraEnabled := isCameraEnabled s;
     isMicrophoneEnabled := isMicrophoneEnabled s;
     isScreenSharing := isScreenSharing s;
     showParticipantsList := showParticipantsList s;
     showSettings := showSettings s;
     isTranslationEnabled := isTranslationEnabled s;
     translationReady := translationReady s; navigated := navigated s |}.

Definition set_wineInfo (v : option (gmap string jsval)) (s : State) : State :=
  {| isConnecting := isConnecting s; isConnected := isConnected s;
     isLeaving := isLeaving s; error := error s; roomToken := roomToken s;
     serverUrl := serverUrl s; wineInfo := v; room := room s;
     localParticipant := localParticipant s;
     remoteParticipants := remoteParticipants s;
     isCameraEnabled := isCameraEnabled s;
     isMicrophoneEnabled := isMicrophoneEnabled s;
     isScreenSharing := isScreenSharing s;
     showParticipantsList := showParticipantsList s;
     showSettings := showSettings s;
     isTranslationEnabled := isTranslationEnabled s;
     translationReady := translationReady s; navigated := navigated s |}.

Definition set_room (v : option RoomInstance) (s : State) : State :=
  {| isConnecting := isConnecting s; isConnected := isConnected s;
     isLeaving := isLeaving s; error := error s; roomToken := roomToken s;
     serverUrl := serverUrl s; wineInfo := wineInfo s; room := v;
     localParticipant := localParticipant s;
     remoteParticipants := remoteParticipants s;
     isCameraEnabled := isCameraEnabled s;
     isMicrophoneEnabled := isMicrophoneEnabled s;
     isScreenSharing := isScreenSharing s;
     showParticipantsList := showParticipantsList s;
     showSettings := showSettings s;
     isTranslationEnabled := isTranslationEnabled s;
     translationReady := translationReady s; navigated := navigated s |}.

Definition set_localParticipant (v : option (gmap string jsval)) (s : State) : State :=
  {| isConnecting := isConnecting s; isConnected := isConnected s;
     isLeaving := isLeaving s; error := error s; roomToken := roomToken s;
     serverUrl := serverUrl s; wineInfo := wineInfo s; room := room s;
     localParticipant := v; remoteParticipants := remoteParticipants s;
     isCameraEnabled := isCameraEnabled s;
     isMicrophoneEnabled := isMicrophoneEnabled s;
     isScreenSharing := isScreenSharing s;
     showParticipantsList := showParticipantsList s;
     showSettings := showSettings s;
     isTranslationEnabled := isTranslationEnabled s;
     translationReady := translationReady s; navigated := navigated s |}.

Definition set_remoteParticipants (v : list (gmap string jsval)) (s : State) : State :=
  {| isConnecting := isConnecting s; isConnected := isConnected s;
     isLeaving := isLeaving s; error := error s; roomToken := roomToken s;
     serverUrl := serverUrl s; wineInfo := wineInfo s; room := room s;
     localParticipant := localParticipant s; remoteParticipants := v;
     isCameraEnabled := isCameraEnabled s;
     isMicrophoneEnabled := isMicrophoneEnabled s;
     isScreenSharing := isScreenSharing s;
     showParticipantsList := showParticipantsList s;
     showSettings := showSettings s;
     isTranslationEnabled := isTranslationEnabled s;
     translationReady := translationReady s; navigated := navigated s |}.

Definition set_isCameraEnabled (v : bool) (s : State) : State :=
  {| isConnecting := isConnecting s; isConnected := isConnected s;
     isLeaving := isLeaving s; error := error s; roomToken := roomToken s;
     serverUrl := serverUrl s; wineInfo := wineInfo s; room := room s;
     localParticipant := localParticipant s;
     remoteParticipants := remoteParticipants s; isCameraEnabled := v;
     isMicrophoneEnabled := isMicrophoneEnabled s;
     isScreenSharing := isScreenSharing s;
     showParticipantsList := showParticipantsList s;
     showSettings := showSettings s;
     isTranslationEnabled := isTranslationEnabled s;
     translationReady := translationReady s; navigated := navigated s |}.

Definition set_isMicrophoneEnabled (v : bool) (s : State) : State :=
  {| isConnecting := isConnecting s; isConnected := isConnected s;
     isLeaving := isLeaving s; error := error s; roomToken := roomToken s;
     serverUrl := serverUrl s; wineInfo := wineInfo s; room := room s;
     localParticipant := localParticipant s;
     remoteParticipants := remoteParticipants s;
     isCameraEnabled := isCameraEnabled s; isMicrophoneEnabled := v;
     isScreenSharing := isScreenSharing s;
     showParticipantsList := showParticipantsList s;
     showSettings := showSettings s;
     isTranslationEnabled := isTranslationEnabled s;
     translationReady := translationReady s; navigated := navigated s |}.

Definition set_isScreenSharing (v : bool) (s : State) : State :=
  {| isConnecting := isConnecting s; isConnected := isConnected s;
     isLeaving := isLeaving s; error := error s; roomToken := roomToken s;
     serverUrl := serverUrl s; wineInfo := wineInfo s; room := room s;
     localParticipant := localParticipant s;
     remoteParticipants := remoteParticipants s;
     isCameraEnabled := isCameraEnabled s;
     isMicrophoneEnabled := isMicrophoneEnabled s; isScreenSharing := v;
     showParticipantsList := showParticipantsList s;
     showSettings := showSettings s;
     isTranslationEnabled := isTranslationEnabled s;
     translationReady := translationReady s; navigated := navigated s |}.

Definition set_showParticipantsList (v : bool) (s : State) : State :=
  {| isConnecting := isConnecting s; isConnected := isConnected s;
     isLeaving := isLeaving s; error := error s; roomToken := roomToken s;
     serverUrl := serverUrl s; wineInfo := wineInfo s; room := room s;
     localParticipant := localParticipant s;
     remoteParticipants := remoteParticipants s;
     isCameraEnabled := isCameraEnabled s;
     isMicrophoneEnabled := isMicrophoneEnabled s;
     isScreenSharing := isScreenSharing s; showParticipantsList := v;
     showSettings := showSettings s;
     isTranslationEnabled := isTranslationEnabled s;
     translationReady := translationReady s; navigated := navigated s |}.

Definition set_showSettings (v : bool) (s : State) : State :=
  {| isConnecting := isConnecting s; isConnected := isConnected s;
     isLeaving := isLeaving s; error := error s; roomToken := roomToken s;
     serverUrl := serverUrl s; wineInfo := wineInfo s; room := room s;
     localParticipant := localParticipant s;
     remoteParticipants := remoteParticipants s;
     isCameraEnabled := isCameraEnabled s;
     isMicrophoneEnabled := isMicrophoneEnabled s;
     isScreenSharing := isScreenSharing s;
     showParticipantsList := showParticipantsList s; showSettings := v;
     isTranslationEnabled := isTranslationEnabled s;
     translationReady := translationReady s; navigated := navigated s |}.

Definition set_isTranslationEnabled (v : bool) (s : State) : State :=
  {| isConnecting := isConnecting s; isConnected := isConnected s;
     isLeaving := isLeaving s; error := error s; roomToken := roomToken s;
     serverUrl := serverUrl s; wineInfo := wineInfo s; room := room s;
     localParticipant := localParticipant s;
     remoteParticipants := remoteParticipants s;
     isCameraEnabled := isCameraEnabled s;
     isMicrophoneEnabled := isMicrophoneEnabled s;
     isScreenSharing := isScreenSharing s;
     showParticipantsList := showParticipantsList s;
     showSettings := showSettings s; isTranslationEnabled := v;
     translationReady := translationReady s; navigated := navigated s |}.

Definition set_translationReady (v : bool) (s : State) : State :=
  {| isConnecting := isConnecting s; isConnected := isConnected s;
     isLeaving := isLeaving s; error := error s; roomToken := roomToken s;
     serverUrl := serverUrl s; wineInfo := wineInfo s; room := room s;
     localParticipant := localParticipant s;
     remoteParticipants := remoteParticipants s;
     isCameraEnabled := isCameraEnabled s;
     isMicrophoneEnabled := isMicrophoneEnabled s;
     isScreenSharing := isScreenSharing s;
     showParticipantsList := showParticipantsList s;
     showSettings := showSettings s;
     isTranslationEnabled := isTranslationEnabled s; translationReady := v;
     navigated := navigated s |}.

Definition set_navigated (v : list string) (s : State) : State :=
  {| isConnecting := isConnecting s; isConnected := isConnected s;
     isLeaving := isLeaving s; error := error s; roomToken := roomToken s;
     serverUrl := serverUrl s; wineInfo := wineInfo s; room := room s;
     localParticipant := localParticipant s;
     remoteParticipants := remoteParticipants s;
     isCameraEnabled := isCameraEnabled s;
     isMicrophoneEnabled := isMicrophoneEnabled s;
     isScreenSharing := isScreenSharing s;
     showParticipantsList := showParticipantsList s;
     showSettings := showSettings s;
     isTranslationEnabled := isTranslationEnabled s;
     translationReady := translationReady s; navigated := v |}.

Definition initial : State :=
  {| isConnecting := false; isConnected := false; isLeaving := false;
     error := None; roomToken := JNull; serverUrl := JStr "";
     wineInfo := None; room := None; localParticipant := None;
     remoteParticipants := []; isCameraEnabled := true;
     isMicrophoneEnabled := true; isScreenSharing := false;
     showParticipantsList := false; showSettings := false;
     isTranslationEnabled := false; translationReady := false;
     navigated := [] |}.

(** [participantCount] (lines 268-270). *)
Definition participantCount (s : State) : nat :=
  1 + length (remoteParticipants s).

(** [allParticipants] (lines 298-304): the remote participants, with the
    local one put in front when there is one. *)
Definition allParticipants (s : State) : list (gmap string jsval) :=
  match localParticipant s with
  | Some local => local :: remoteParticipants s
  | None => remoteParticipants s
  end.

(** What the server and the browser answer to [joinRoom]: the two
    responses, the status text of the join response, and the message of
    the exception raised by a failed request or an unreadable body. *)
Record JoinEnv : Type := {
  join : Fetched (gmap string jsval);
  statusText : string;
  failure : string;
  wine : Fetched (gmap string jsval)
}.

(** [fetchWineInfo] (lines 347-361). *)
Definition fetchWineInfo (r : Fetched (gmap string jsval)) (s : State)
  : State :=
  match r with
  | Response true (Some info) => set_wineInfo (Some info) s
  | _ => s
  end.

(** [joinRoom] (lines 312-345) before its first [await]. *)
Definition joinRoom_begin (s : State) : State :=
  set_error None (set_isConnecting true s).

(** [joinRoom] after the answers arrived, with [catch] and [finally]. *)
Definition joinRoom_finish (e : JoinEnv) (s : State) : State :=
  let s1 :=
    match join e with
    | NetworkError => set_error (Some (failure e)) s
    | Response false _ =>
        set_error (Some ("Failed to join room: " +:+ statusText e)) s
    | Response true None => set_error (Some (failure e)) s
    | Response true (Some roomData) =>
        fetchWineInfo (wine e)
          (set_serverUrl (get roomData "livekit_url")
             (set_roomToken (get roomData "access_token") s))
    end in
  set_isConnecting false s1.

(** [retryConnection] (lines 393-396), up to the first [await] of
    [joinRoom]. *)
Definition retryConnection (s : State) : State :=
  joinRoom_begin (set_error None s).

(** [leaveRoom] (lines 363-391) before its first [await]. *)
Definition leaveRoom_begin (s : State) : State := set_isLeaving true s.

(** [leaveRoom] after the awaits: [room.disconnect()] may throw, the
    request may fail; only then the router is not pushed.  The response
    itself is not looked at. *)
Definition leaveRoom_finish (disconnects : bool) (r : Fetched unit)
  (s : State) : State :=
  let pushed :=
    match room s, disconnects, r with
    | Some _, false, _ => false
    | _, _, NetworkError => false
    | _, _, Response _ _ => true
    end in
  set_isLeaving false
    (if pushed then set_navigated (navigated s ++ ["/"]) s else s).

(** The three media toggles (lines 399-431): without a local participant
    nothing happens; the flag flips only when the LiveKit call went
    through. *)
Definition toggleCamera (succeeds : bool) (s : State) : State :=
  match localParticipant s with
  | None => s
  | Some _ =>
      if succeeds then set_isCameraEnabled (negb (isCameraEnabled s)) s
      else s
  end.

Definition toggleMicrophone (succeeds : bool) (s : State) : State :=
  match localParticipant s with
  | None => s
  | Some _ =>
      if succeeds
      then set_isMicrophoneEnabled (negb (isMicrophoneEnabled s)) s
      else s
  end.

Definition toggleScreenShare (succeeds : bool) (s : State) : State :=
  match localParticipant s with
  | None => s
  | Some _ =>
      if succeeds then set_isScreenSharing (negb (isScreenSharing s)) s
      else s
  end.

Definition toggleParticipantsList (s : State) : State :=
  set_showParticipantsList (negb (showParticipantsList s)) s.

Definition toggleSettings (s : State) : State :=
  set_showSettings (negb (showSettings s)) s.

Definition toggleTranslation (s : State) : State :=
  set_isTranslationEnabled (negb (isTranslationEnabled s)) s.

(** The LiveKit event handlers (lines 479-510). *)
Definition onRoomConnected (roomInstance : RoomInstance) (s : State)
  : State :=
  set_localParticipant (Some (room_localParticipant roomInstance))
    (set_isConnected true (set_room (Some roomInstance) s)).

Definition onRoomDisconnected (s : State) : State :=
  set_remoteParticipants []
    (set_localParticipant None (set_room None (set_isConnected false s))).

Definition onParticipantConnected (participant : gmap string jsval)
  (s : State) : State :=
  set_remoteParticipants (remoteParticipants s ++ [participant]) s.

Definition onParticipantDisconnected (participant : gmap string jsval)
  (s : State) : State :=
  match
    list_find
      (fun p => strict_eq (get p "identity") (get participant "identity")
                = true)
      (remoteParticipants s)
  with
  | Some (index, _) =>
      set_remoteParticipants (delete index (remoteParticipants s)) s
  | None => s
  end.

(** [onRoomError]: its parameter is called [error] too, so the
    assignment [error.value = error.message] writes to the object that
    was passed in and the ref of the component stays as it is. *)
Definition onRoomError (s : State) : State := s.

(** The handlers of the overlay's events (lines 517-525). *)
Definition onTranslationReady (s : State) : State :=
  set_translationReady true s.

Definition onTranslationError (s : State) : State :=
  set_translationReady false s.

(** The events of a mounted overlay reach the room in order. *)
Definition overlay_emits (evs : list Overlay.Emit) (s : State) : State :=
  foldl (fun s ev =>
           match ev with
           | Overlay.translation_ready => onTranslationReady s
           | Overlay.translation_error => onTranslationError s
           end) s evs.

(** Which of the alternative blocks of the template is on screen
    (lines 38, 179, 185): [v-if="isConnected"],
    [v-else-if="isConnecting"], [v-else-if="error"]. *)
Inductive View : Type := VideoContainer | Loading | ErrorBox | Nothing.

Definition view (s : State) : View :=
  if isConnected s then VideoContainer
  else if isConnecting s then Loading
  else match error s with
       | Some msg => if String.eqb msg "" then Nothing else ErrorBox
       | None => Nothing
       end.

(** [<LiveKitRoom v-if="roomToken">] sits inside the video container
    (lines 38-41), and the overlay and the control buttons sit inside
    it. *)
Definition livekit_rendered (s : State) : bool :=
  isConnected s && truthy (roomToken s).

(** What can happen to the mounted component. *)
Inductive Event : Type :=
| JoinAnswered (e : JoinEnv)
| RetryClicked
| LeaveClicked
| LeaveAnswered (disconnects : bool) (r : Fetched unit)
| RoomConnected (roomInstance : RoomInstance)
| RoomDisconnected
| ParticipantConnected (participant : gmap string jsval)
| ParticipantDisconnected (participant : gmap string jsval)
| RoomError
| OverlayEmitted (ev : Overlay.Emit)
| CameraClicked (succeeds : bool)
| MicrophoneClicked (succeeds : bool)
| ScreenShareClicked (succeeds : bool)
| ParticipantsListClicked
| TranslationClicked
| SettingsClicked
| ParticipantsListClosed
| SettingsClosed.

(** An event needs the element that raises it on screen: the answers
    need a request in flight, the retry button the error block, the
    leave button is disabled while leaving, the LiveKit events, the
    overlay's events and the control buttons need [LiveKitRoom], and the
    two panels can be closed while they are shown. *)
Definition enabled (s : State) (ev : Event) : bool :=
  match ev with
  | JoinAnswered _ => isConnecting s
  | RetryClicked =>
      match view s with ErrorBox => true | _ => false end
  | LeaveClicked => negb (isLeaving s)
  | LeaveAnswered _ _ => isLeaving s
  | RoomConnected _ | RoomDisconnected | ParticipantConnected _
  | ParticipantDisconnected _ | RoomError | OverlayEmitted _
  | CameraClicked _ | MicrophoneClicked _ | ScreenShareClicked _
  | ParticipantsListClicked | TranslationClicked | SettingsClicked =>
      livekit_rendered s
  | ParticipantsListClosed => showParticipantsList s
  | SettingsClosed => showSettings s
  end.

Definition step (s : State) (ev : Event) : State :=
  match ev with
  | JoinAnswered e => joinRoom_finish e s
  | RetryClicked => retryConnection s
  | LeaveClicked => leaveRoom_begin s
  | LeaveAnswered d r => leaveRoom_finish d r s
  | RoomConnected ri => onRoomConnected ri s
  | RoomDisconnected => onRoomDisconnected s
  | ParticipantConnected p => onParticipantConnected p s
  | ParticipantDisconnected p => onParticipantDisconnected p s
  | RoomError => onRoomError s
  | OverlayEmitted Overlay.translation_ready => onTranslationReady s
  | OverlayEmitted Overlay.translation_error => onTranslationError s
  | CameraClicked ok => toggleCamera ok s
  | MicrophoneClicked ok => toggleMicrophone ok s
  | ScreenShareClicked ok => toggleScreenShare ok s
  | ParticipantsListClicked | ParticipantsListClosed =>
      toggleParticipantsList s
  | TranslationClicked => toggleTranslation s
  | SettingsClicked | SettingsClosed => toggleSettings s
  end.

(** A run in which every event is raised by something on screen;
    [None] when one is not. *)
Fixpoint run (evs : list Event) (s : State) : option State :=
  match evs with
  | [] => Some s
  | ev :: evs => if enabled s ev then run evs (step s ev) else None
  end.

(** [onMounted] (lines 559-562): [joinRoom] starts. *)
Definition mounted : State := joinRoom_begin initial.

End VideoRoom.

(** * Properties *)

(** ** Copying the decoded base64 string into the byte array *)

Lemma fill_prefix (f : nat -> N) (n k : nat) :
  k <= n ->
  foldl (fun arr i => <[i := f i]> arr) (replicate n 0%N) (seq 0 k)
  = map f (seq 0 k) ++ replicate (n - k) 0%N.
Proof.
  induction k as [|k IH]; intros Hk.
  - simpl. by rewrite Nat.sub_0_r.
  - rewrite seq_S, foldl_app, IH by lia. simpl.
    rewrite map_app. simpl.
    replace (n - k) with (S (n - S k)) by lia. simpl.
    rewrite <- (Nat.add_0_r k) at 1.
    replace k with (length (map f (seq 0 k))) at 1
      by (by rewrite length_map, length_seq).
    rewrite insert_app_r. simpl. by rewrite <- app_assoc.
Qed.

Lemma get_list_ascii (s : string) (i : nat) :
  String.get i s = String.list_ascii_of_string s !! i.
Proof.
  revert i. induction s as [|c s IH]; intros [|i]; simpl; auto.
Qed.

Lemma length_list_ascii (s : string) :
  length (String.list_ascii_of_string s) = String.length s.
Proof. induction s; simpl; auto. Qed.

(** The loop of [playTranslatedAudio] produces the char codes of the
    decoded string, in order. *)
Lemma audioArray_bytes (audioData : string) :
  Overlay.audioArray audioData
  = map Ascii.N_of_ascii (String.list_ascii_of_string audioData).
Proof.
  unfold Overlay.audioArray.
  rewrite fill_prefix by lia.
  rewrite Nat.sub_diag. simpl. rewrite app_nil_r.
  apply list_eq. intros i.
  rewrite !list_lookup_fmap.
  destruct (decide (i < String.length audioData)) as [Hi|Hi].
  - rewrite lookup_seq_lt by done. simpl.
    unfold Overlay.charCodeAt. rewrite get_list_ascii.
    destruct (String.list_ascii_of_string audioData !! i) eqn:E; [done|].
    apply lookup_ge_None in E. rewrite length_list_ascii in E. lia.
  - rewrite lookup_seq_ge by lia. simpl.
    rewrite (proj2 (lookup_ge_None _ i)); [done|].
    rewrite length_list_ascii. lia.
Qed.

(** ** The overlay: what the handlers leave alone *)

Section OverlayFrames.

Import Overlay.

Variable P : Platform.

Ltac handler_cases :=
  repeat match goal with
  | |- context [if ?b then _ else _] => destruct b
  | |- context [match ?o with Some _ => _ | None => _ end] => destruct o
  | |- context [match ?r with CONNECTING => _ | _ => _ end] => destruct r
  | |- context [match ?r with NetworkError => _ | Response _ _ => _ end] =>
      destruct r
  end; try reflexivity.

Lemma handle_text_translation (s : State) (data : gmap string jsval) :
  get data "type" = JStr "text_translation" ->
  handleWebSocketMessage P s data = displayTranslation s data.
Proof. intros E. unfold handleWebSocketMessage. by rewrite E. Qed.

Lemma handle_voice_translation (s : State) (data : gmap string jsval) :
  get data "type" = JStr "voice_translation" ->
  handleWebSocketMessage P s data = playTranslatedAudio P s data.
Proof. intros E. unfold handleWebSocketMessage. by rewrite E. Qed.

Lemma timer_callback_frame (tm : Timer) (s : State) :
  translationSettings (timer_callback tm s) = translationSettings s
  /\ trackVolume (timer_callback tm s) = trackVolume s
  /\ started (timer_callback tm s) = started s.
Proof. unfold timer_callback. handler_cases; auto. Qed.

Lemma callbacks_frame (ready : list Timer) (s : State) :
  let s' := foldl (fun s tm => timer_callback tm s) s ready in
  translationSettings s' = translationSettings s
  /\ trackVolume s' = trackVolume s
  /\ started s' = started s.
Proof.
  revert s. induction ready as [|tm ready IH]; intros s; simpl; [done|].
  destruct (IH (timer_callback tm s)) as (-> & -> & ->).
  apply timer_callback_frame.
Qed.

Lemma advance_frame (t : Z) (s : State) :
  translationSettings (advance t s) = translationSettings s
  /\ trackVolume (advance t s) = trackVolume s
  /\ started (advance t s) = started s.
Proof.
  unfold advance.
  exact (callbacks_frame (filter (fun tm => (due tm <= t)%Z) (timers s))
           (set_clock (Z.max (now s) t)
              (filter (fun tm => ~ (due tm <= t)%Z) (timers s)) s)).
Qed.

Lemma playTranslatedAudio_frame (s : State) (data : gmap string jsval) :
  translationSettings (playTranslatedAudio P s data) = translationSettings s
  /\ trackVolume (playTranslatedAudio P s data) = trackVolume s
  /\ currentTranslation (playTranslatedAudio P s data) = currentTranslation s.
Proof.
  unfold playTranslatedAudio, play_decoded. simpl.
  handler_cases; auto.
Qed.

Lemma handle_frame (s : State) (data : gmap string jsval) :
  translationSettings (handleWebSocketMessage P s data)
  = translationSettings s
  /\ trackVolume (handleWebSocketMessage P s data) = trackVolume s.
Proof.
  unfold handleWebSocketMessage.
  destruct (strict_eq _ (JStr "text_translation")); [done|].
  destruct (strict_eq _ (JStr "voice_translation")).
  { split; apply playTranslatedAudio_frame. }
  destruct (strict_eq _ (JStr "voices_list")); done.
Qed.

Lemma updateSettings_frame (r : Fetched unit) (s : State) :
  translationSettings (updateSettings r s) = translationSettings s
  /\ trackVolume (updateSettings r s) = trackVolume s
  /\ currentTranslation (updateSettings r s) = currentTranslation s.
Proof.
  unfold updateSettings, updateSettings_answer, updateSettings_request.
  simpl. handler_cases; auto.
Qed.

(** Deliveries never write the settings. *)
Lemma delivery_keeps_settings (s : State) (ev : Event) :
  is_delivery ev = true ->
  translationSettings (step P s ev) = translationSettings s.
Proof.
  destruct ev; simpl; try discriminate; intros _.
  - apply handle_frame.
  - apply advance_frame.
  - handler_cases.
Qed.

Lemma deliveries_keep_settings (evs : list Event) (s : State) :
  forallb is_delivery evs = true ->
  translationSettings (run P evs s) = translationSettings s.
Proof.
  unfold run. revert s.
  induction evs as [|ev evs IH]; intros s; simpl; [done|].
  intros [H1 H2]%andb_prop.
  rewrite IH by done. by apply delivery_keeps_settings.
Qed.

(** No handler of the component sets the volume of a live track. *)
Lemma step_keeps_trackVolume (s : State) (ev : Event) :
  trackVolume (step P s ev) = trackVolume s.
Proof.
  destruct ev; simpl.
  - apply handle_frame.
  - apply advance_frame.
  - handler_cases.
  - destruct (updateSettings_frame r (v_model key v s)) as (_ & -> & _).
    done.
Qed.

Lemma run_keeps_trackVolume (evs : list Event) (s : State) :
  trackVolume (run P evs s) = trackVolume s.
Proof.
  unfold run. revert s.
  induction evs as [|ev evs IH]; intros s; simpl; [done|].
  rewrite IH. apply step_keeps_trackVolume.
Qed.

End OverlayFrames.

(** ** The overlay: captions *)

Section OverlayCaptions.

Import Overlay.

Variable P : Platform.

Lemma callbacks_keep_timers (ready : list Timer) (s : State) :
  timers (foldl (fun s tm => timer_callback tm s) s ready) = timers s.
Proof.
  revert s. induction ready as [|tm ready IH]; intros s; simpl; [done|].
  rewrite IH. unfold timer_callback.
  destruct (currentTranslation s); [|done].
  by destruct (still_showing _ _).
Qed.

Lemma timers_advance (t : Z) (s : State) :
  timers (advance t s) = filter (fun tm => ~ (due tm <= t)%Z) (timers s).
Proof. unfold advance. by rewrite callbacks_keep_timers. Qed.

(** A callback whose captured text differs from the text of the caption
    on display leaves that caption alone. *)
Lemma still_showing_other (shown captured : jsval) :
  strict_eq shown captured = false -> still_showing shown captured = false.
Proof. intros H. unfold still_showing. by destruct shown. Qed.

Lemma timer_callback_other_text (tm : Timer) (s : State) (c : Caption) :
  currentTranslation s = Some c ->
  strict_eq (originalText c) (captured_original_text tm) = false ->
  timer_callback tm s = s.
Proof.
  intros Hc Hne. unfold timer_callback.
  by rewrite Hc, (still_showing_other _ _ Hne).
Qed.

(** C9: the component holds at most one caption ([currentTranslation] is
    a single optional value), and every [text_translation] message that
    is handled replaces it with the caption of that message, whatever was
    on display and whoever spoke.  In particular a second message that
    arrives at any time [t] before the first one's five seconds are over
    takes the first caption's place while the first timer is still
    pending. *)
Theorem caption_last_wins (s : State) (first second : gmap string jsval)
  (t : Z) :
  get first "type" = JStr "text_translation" ->
  get second "type" = JStr "text_translation" ->
  (now s <= t < now s + 5000)%Z ->
  let s1 := handleWebSocketMessage P s first in
  let s2 := handleWebSocketMessage P (advance t s1) second in
  currentTranslation s1 = Some (caption_of first)
  /\ currentTranslation s2 = Some (caption_of second)
  /\ {| due := (now s + 5000)%Z;
        captured_original_text := get first "original_text" |} ∈ timers s2.
Proof.
  intros H1 H2 Ht. simpl.
  rewrite !handle_text_translation by done.
  split; [done|]. split; [done|].
  unfold displayTranslation at 1, setTimeout at 1. simpl.
  apply elem_of_app. left.
  rewrite timers_advance.
  apply list_elem_of_filter. split; [simpl; lia|].
  unfold displayTranslation, setTimeout. simpl.
  apply elem_of_app. right. by apply list_elem_of_singleton.
Qed.

(** C6: a listener whose [textTranslationEnabled] is false is shown no
    caption, whatever messages and timer ticks are delivered, and also
    after the [text_translation] message of an utterance that another
    listener, with the setting on, is shown as a caption. *)
Theorem text_disabled_never_shows_caption (s other : State)
  (evs : list Event) (data : gmap string jsval) :
  truthy (get (translationSettings s) "textTranslationEnabled") = false ->
  truthy (get (translationSettings other) "textTranslationEnabled") = true ->
  forallb is_delivery evs = true ->
  get data "type" = JStr "text_translation" ->
  subtitle (run P (evs ++ [Message data]) s) = None
  /\ subtitle (run P (evs ++ [Message data]) other) = Some (caption_of data).
Proof.
  intros Hoff Hon Hevs Hty.
  assert (Hall : forallb is_delivery (evs ++ [Message data]) = true).
  { rewrite forallb_app, Hevs. done. }
  unfold subtitle.
  rewrite !deliveries_keep_settings by done.
  rewrite Hoff, Hon. split; [done|].
  unfold run. rewrite foldl_app. simpl.
  by rewrite handle_text_translation.
Qed.

End OverlayCaptions.

Lemma caption_last_wins_witness :
  let s1 :=
    Overlay.handleWebSocketMessage Samples.browser Overlay.initial
      (Samples.text_message "A" "Hello" "Bonjour") in
  let s2 :=
    Overlay.handleWebSocketMessage Samples.browser (Overlay.advance 1000 s1)
      (Samples.text_message "B" "Ciao" "Salut") in
  Overlay.currentTranslation s1
  = Some (Overlay.caption_of (Samples.text_message "A" "Hello" "Bonjour"))
  /\ Overlay.currentTranslation s2
     = Some (Overlay.caption_of (Samples.text_message "B" "Ciao" "Salut"))
  /\ {| Overlay.due := (Overlay.now Overlay.initial + 5000)%Z;
        Overlay.captured_original_text :=
          get (Samples.text_message "A" "Hello" "Bonjour") "original_text" |}
     ∈ Overlay.timers s2.
Proof.
  apply (caption_last_wins Samples.browser Overlay.initial
           (Samples.text_message "A" "Hello" "Bonjour")
           (Samples.text_message "B" "Ciao" "Salut") 1000).
  - vm_compute. reflexivity.
  - vm_compute. reflexivity.
  - simpl. lia.
Defined.

Lemma text_disabled_never_shows_caption_witness :
  let off :=
    Overlay.v_model "textTranslationEnabled" (JBool false) Overlay.initial in
  let evs := [Overlay.Message (Samples.text_message "A" "Hello" "Bonjour");
              Overlay.Clock 2000] in
  let data := Samples.text_message "B" "Ciao" "Salut" in
  Overlay.subtitle
    (Overlay.run Samples.browser (evs ++ [Overlay.Message data]) off) = None
  /\ Overlay.subtitle
       (Overlay.run Samples.browser (evs ++ [Overlay.Message data])
          Overlay.initial)
     = Some (Overlay.caption_of data).
Proof.
  apply (text_disabled_never_shows_caption Samples.browser).
  - vm_compute. reflexivity.
  - vm_compute. reflexivity.
  - reflexivity.
  - vm_compute. reflexivity.
Defined.

(** ** The overlay: translated audio *)

Section OverlayAudio.

Import Overlay.

Variable P : Platform.

(** C10: a [voice_translation] message that is handled while
    [voiceTranslationEnabled] is falsy, or while there is no audio
    context, changes nothing: nothing is handed to the decoder, no source
    is started, and every other part of the state is as before. *)
Theorem voice_translation_ignored_when_off (s : State)
  (data : gmap string jsval) :
  get data "type" = JStr "voice_translation" ->
  truthy (get (translationSettings s) "voiceTranslationEnabled") = false
  \/ audioContext s = false ->
  handleWebSocketMessage P s data = s.
Proof.
  intros Hty Hoff. rewrite handle_voice_translation by done.
  unfold playTranslatedAudio.
  destruct Hoff as [-> | ->]; [done|].
  by rewrite orb_true_r.
Qed.


End OverlayAudio.

Lemma voice_translation_ignored_when_off_witness :
  get (Samples.voice_message "A" "SGk=") "type" = JStr "voice_translation"
  /\ Overlay.handleWebSocketMessage Samples.browser Overlay.initial
       (Samples.voice_message "A" "SGk=")
     = Overlay.initial.
Proof.
  split; [vm_compute; reflexivity|].
  apply (voice_translation_ignored_when_off Samples.browser).
  - vm_compute. reflexivity.
  - left. vm_compute. reflexivity.
Defined.


(** C3: the code at a failing input.  The listener has voice translation
    on and [originalVoiceVolume] at 0.3; a [voice_translation] message
    for speaker A arrives and is played at 0.8, and afterwards, and after
    any further events, the volume of A's live track has still not been
    set: the original audio plays in full. *)
Theorem live_audio_is_not_attenuated (evs : list Overlay.Event) :
  let s := Samples.listening_with_voice in
  let s' :=
    Overlay.handleWebSocketMessage Samples.browser s
      (Samples.voice_message "A" "SGk=") in
  get (Overlay.translationSettings s) "voiceTranslationEnabled" = JBool true
  /\ get (Overlay.translationSettings s) "originalVoiceVolume" = JNum 0.3
  /\ Overlay.started s'
     = [{| Overlay.buffer := [(-56)%Z; (-23)%Z]; Overlay.gain := 0.8 |}]
  /\ Overlay.trackVolume s' !! "A" = None
  /\ Overlay.trackVolume (Overlay.run Samples.browser evs s') !! "A" = None.
Proof.
  simpl. rewrite run_keeps_trackVolume.
  repeat split; vm_compute; reflexivity.
Qed.

(** ** The overlay: the caption timer *)

Section OverlayTimer.

Import Overlay.

Lemma strict_eq_refl (v : jsval) : strict_eq v v = true.
Proof.
  destruct v; simpl; try done.
  - by destruct b.
  - apply Qeq_bool_iff. reflexivity.
  - apply String.eqb_refl.
  - apply Pos.eqb_refl.
Qed.

Lemma still_showing_same (v : jsval) :
  is_object v = false -> still_showing v v = true.
Proof.
  intros H. unfold still_showing.
  destruct v; try apply strict_eq_refl. discriminate H.
Qed.

Lemma callbacks_only_clear (ready : list Timer) (s : State) :
  let s' := foldl (fun s tm => timer_callback tm s) s ready in
  currentTranslation s' = None
  \/ currentTranslation s' = currentTranslation s.
Proof.
  revert s. induction ready as [|tm ready IH]; intros s; simpl; [by right|].
  destruct (IH (timer_callback tm s)) as [H|H]; [by left|].
  simpl in H. rewrite H. unfold timer_callback.
  destruct (currentTranslation s) eqn:E; [|by right].
  destruct (still_showing _ _); simpl; [by left|by right].
Qed.

(** Five seconds after a caption was put on display it is no longer
    shown (its own timer clears it, if nothing else did), when its
    original text is not an object. *)
Lemma caption_gone_after_five_seconds (s : State)
  (data : gmap string jsval) :
  is_object (get data "original_text") = false ->
  currentTranslation (advance (now s + 5000) (displayTranslation s data))
  = None.
Proof.
  intros Htext.
  unfold advance, displayTranslation, setTimeout. simpl.
  rewrite !filter_app, foldl_app.
  rewrite (filter_cons_True (fun tm => (due tm <= now s + 5000)%Z))
    by (simpl; lia).
  simpl.
  match goal with
  | |- context [foldl ?f ?s0 ?l] =>
      destruct (callbacks_only_clear l s0) as [H|H]; simpl in H
  end.
  - unfold timer_callback at 1. by rewrite H.
  - unfold timer_callback at 1. rewrite H. simpl.
    by rewrite still_showing_same.
Qed.

Lemma callbacks_keep_now (ready : list Timer) (s : State) :
  now (foldl (fun s tm => timer_callback tm s) s ready) = now s.
Proof.
  revert s. induction ready as [|tm ready IH]; intros s; simpl; [done|].
  rewrite IH. unfold timer_callback.
  destruct (currentTranslation s); [|done].
  by destruct (still_showing _ _).
Qed.

Lemma now_advance (t : Z) (s : State) :
  now (advance t s) = Z.max (now s) t.
Proof. unfold advance. by rewrite callbacks_keep_now. Qed.

(** With no other timer pending, a caption that takes the place of an
    earlier one with a different original text stays on display when the
    earlier timer runs, and goes when its own five seconds are over. *)
Lemma superseding_caption_outlives_earlier_timer (s : State)
  (first second : gmap string jsval) (t : Z) :
  timers s = [] ->
  (now s < t < now s + 5000)%Z ->
  strict_eq (get second "original_text") (get first "original_text")
  = false ->
  is_object (get second "original_text") = false ->
  let s2 :=
    displayTranslation (advance t (displayTranslation s first)) second in
  currentTranslation (advance (now s + 5000) s2) = Some (caption_of second)
  /\ currentTranslation (advance (t + 5000) s2) = None.
Proof.
  intros Hnone Ht Hne Htext. split.
  - unfold advance, displayTranslation, setTimeout. simpl.
    rewrite Hnone. simpl.
    rewrite (filter_cons_False (fun tm => (due tm <= t)%Z))
      by (simpl; lia).
    rewrite (filter_cons_True (fun tm => ~ (due tm <= t)%Z))
      by (simpl; lia).
    rewrite !filter_nil. simpl.
    rewrite (filter_cons_True (fun tm => (due tm <= now s + 5000)%Z))
      by (simpl; lia).
    rewrite (filter_cons_False (fun tm => (due tm <= now s + 5000)%Z))
      by (simpl; lia).
    rewrite !filter_nil. simpl.
    unfold timer_callback. simpl.
    by rewrite (still_showing_other _ _ Hne).
  - set (s1 := advance t (displayTranslation s first)).
    assert (Hnow : now s1 = t).
    { unfold s1. rewrite now_advance.
      unfold displayTranslation, setTimeout. simpl. lia. }
    rewrite <- Hnow at 1. by apply caption_gone_after_five_seconds.
Qed.

End OverlayTimer.

(** C4: the code at a failing input.  Speaker A's caption with original
    text "Hi" is shown at time 0; at 3000 ms a caption of speaker B with
    the same original text takes its place.  At 4999 ms B's caption is
    on display; at 5000 ms the timer of A's caption runs, finds the same
    original text and clears B's caption, two seconds after it appeared,
    while B's own timer (due at 8000 ms) is still pending. *)
Theorem same_text_caption_cleared_early :
  let first := Samples.text_message "A" "Hi" "Salut" in
  let second := Samples.text_message "B" "Hi" "Salut" in
  let shown :=
    Overlay.run Samples.browser
      [Overlay.Clock 0; Overlay.Message first;
       Overlay.Clock 3000; Overlay.Message second] Overlay.initial in
  Overlay.subtitle shown = Some (Overlay.caption_of second)
  /\ Overlay.subtitle (Overlay.advance 4999 shown)
     = Some (Overlay.caption_of second)
  /\ Overlay.subtitle (Overlay.advance 5000 shown) = None
  /\ Overlay.timers (Overlay.advance 5000 shown)
     = [{| Overlay.due := 8000;
           Overlay.captured_original_text := JStr "Hi" |}].
Proof. repeat split; vm_compute; reflexivity. Qed.

(** ** The overlay: start-up *)

Section OverlayStart.

Import Overlay.

Lemma forced_flags_are_the_defaults :
  set (set default_settings "textTranslationEnabled" (JBool true))
      "voiceTranslationEnabled" (JBool false)
  = default_settings.
Proof. vm_compute. reflexivity. Qed.

(** C5: when the settings store does not deliver settings while the
    component starts (the request fails, the response is not ok, or the
    body is unreadable), the settings in force are the defaults, with
    text translation enabled and voice translation disabled, and the
    start goes on: whether [translation-ready] is emitted depends only on
    the socket and the audio context. *)
Theorem settings_unavailable_falls_back_to_defaults (e : Env) :
  settings_unavailable (settings_fetch e) = true ->
  let s := onMounted e initial in
  translationSettings s = default_settings
  /\ get (translationSettings s) "textTranslationEnabled" = JBool true
  /\ get (translationSettings s) "voiceTranslationEnabled" = JBool false
  /\ emitted s
     = [if websocket_constructs e && audiocontext_constructs e
        then translation_ready else translation_error]
  /\ translationWebSocket s
     = (if websocket_constructs e then Some CONNECTING else None).
Proof.
  intros Hun.
  assert (Hload : forall s0,
             loadTranslationSettings (settings_fetch e) s0 = s0).
  { intros s0. unfold loadTranslationSettings.
    destruct (settings_fetch e) as [|[] []]; simpl in Hun; done. }
  assert (Hmob : translationSettings (setupMobileOptimizations e initial)
                 = default_settings).
  { unfold setupMobileOptimizations.
    destruct (innerWidth e <=? 768)%Z; [|done].
    simpl. apply forced_flags_are_the_defaults. }
  assert (Hs : translationSettings (onMounted e initial) = default_settings).
  { unfold onMounted, initializeTranslation. rewrite Hload.
    unfold initializeWebSocket, loadAvailableVoices.
    destruct (voices_fetch e) as [|[] []];
      destruct (websocket_constructs e);
      destruct (audiocontext_constructs e); simpl; exact Hmob. }
  simpl. rewrite Hs.
  split; [done|]. split; [vm_compute; reflexivity|].
  split; [vm_compute; reflexivity|].
  unfold onMounted, initializeTranslation. rewrite Hload.
  unfold initializeWebSocket, loadAvailableVoices, setupMobileOptimizations.
  destruct (innerWidth e <=? 768)%Z;
    destruct (voices_fetch e) as [|[] []];
    destruct (websocket_constructs e);
    destruct (audiocontext_constructs e); simpl; done.
Qed.

End OverlayStart.

Lemma settings_unavailable_falls_back_to_defaults_witness :
  let e :=
    {| Overlay.innerWidth := 1280;
       Overlay.settings_fetch := NetworkError;
       Overlay.voices_fetch := Response true (Some (JRef 2));
       Overlay.websocket_constructs := true;
       Overlay.audiocontext_constructs := true |} in
  let s := Overlay.onMounted e Overlay.initial in
  Overlay.translationSettings s = Overlay.default_settings
  /\ get (Overlay.translationSettings s) "textTranslationEnabled"
     = JBool true
  /\ get (Overlay.translationSettings s) "voiceTranslationEnabled"
     = JBool false
  /\ Overlay.emitted s = [Overlay.translation_ready]
  /\ Overlay.translationWebSocket s = Some Overlay.CONNECTING.
Proof.
  apply (settings_unavailable_falls_back_to_defaults
           {| Overlay.innerWidth := 1280;
              Overlay.settings_fetch := NetworkError;
              Overlay.voices_fetch := Response true (Some (JRef 2));
              Overlay.websocket_constructs := true;
              Overlay.audiocontext_constructs := true |}).
  reflexivity.
Defined.

(** ** Settings: loading, editing, saving *)

Section SettingsFacts.

Lemma get_Object_assign (target source : gmap string jsval) (k : string) :
  get (Object_assign target source) k
  = match source !! k with
    | Some v => v
    | None => get target k
    end.
Proof.
  unfold get, Object_assign. rewrite lookup_union.
  destruct (source !! k), (target !! k); done.
Qed.





(** What a slider holds lies between its bounds. *)
Lemma held_between (key : string) (bounds : Z * Z) (wanted : Z) :
  Overlay.slider_bounds key = Some bounds ->
  (0 <= fst bounds <= Overlay.held bounds wanted)%Z
  /\ (Overlay.held bounds wanted <= snd bounds <= 20)%Z.
Proof.
  unfold Overlay.slider_bounds, Overlay.held. intros Hb.
  repeat (destruct (String.eqb key _); [injection Hb as <-; simpl; lia|]).
  discriminate Hb.
Qed.



(** What a drag stores is among the values the slider can deliver. *)
Lemma drag_is_delivered (key : string) (bounds : Z * Z) (wanted : Z) :
  Overlay.slider_bounds key = Some bounds ->
  Overlay.control_delivers key
    (JStr (Overlay.tenths_text (Overlay.held bounds wanted))) = true.
Proof.
  intros Hb. pose proof (held_between key bounds wanted Hb) as Hk.
  assert (Hin : Overlay.tenths_text (Overlay.held bounds wanted)
                ∈ Overlay.tenths_text
                  <$> seqZ (fst bounds) (snd bounds - fst bounds + 1)).
  { apply list_elem_of_fmap. exists (Overlay.held bounds wanted).
    split; [done|]. apply elem_of_seqZ. lia. }
  assert (Hkey : key = "originalVoiceVolume"
                 \/ key = "translatedVoiceVolume" \/ key = "voiceSpeed").
  { unfold Overlay.slider_bounds in Hb.
    destruct (String.eqb key "originalVoiceVolume") eqn:K1;
      [left; by apply String.eqb_eq|].
    destruct (String.eqb key "translatedVoiceVolume") eqn:K2;
      [right; left; by apply String.eqb_eq|].
    destruct (String.eqb key "voiceSpeed") eqn:K3;
      [right; right; by apply String.eqb_eq|done]. }
  destruct Hkey as [-> | [-> | ->]]; injection Hb as <-;
    unfold Overlay.control_delivers; simpl;
    by apply bool_decide_eq_true.
Qed.


Lemma in_range_reads (lo hi : Q) (v : jsval) :
  Overlay.in_range lo hi v = true -> Overlay.reads_in_range lo hi v = true.
Proof. by destruct v. Qed.

(** Numbers within bounds read within bounds. *)
Lemma within_bounds_reads (o : gmap string jsval) :
  Overlay.within_bounds o = true -> Overlay.reads_within_bounds o = true.
Proof.
  unfold Overlay.within_bounds, Overlay.reads_within_bounds. intros Ho.
  apply andb_prop in Ho as [Ho H4].
  apply andb_prop in Ho as [Ho H3].
  apply andb_prop in Ho as [H1 H2].
  by rewrite !in_range_reads, H4.
Qed.


End SettingsFacts.

(** ** Settings: updates and bounds *)

(** The statement of C2 fails on the code.  The settings store answers
    the load at start-up with an [originalVoiceVolume] of 1.5, which is
    merged as it is; the user then ticks the voice translation checkbox,
    and the store rejects the update.  The local settings afterwards
    hold the ticked checkbox: they are not what they were before the
    rejected update. *)
Lemma rejected_update_is_not_rolled_back :
  ~ (forall (e : Overlay.Env) (key : string) (v : jsval)
            (r : Fetched unit),
       let s := Overlay.onMounted e Overlay.initial in
       Overlay.control_delivers key v = true ->
       Overlay.reads_within_bounds
         (Overlay.translationSettings (Overlay.v_model key v s)) = false ->
       accepted r = false ->
       Overlay.translationSettings
         (Overlay.updateSettings r (Overlay.v_model key v s))
       = Overlay.translationSettings s).
Proof.
  intros H.
  specialize (H Samples.stored_too_loud
                "voiceTranslationEnabled" (JBool true)
                (Response false None)).
  cbv zeta in H.
  specialize (H eq_refl).
  assert (E : forall a b : gmap string jsval,
            a = b ->
            get a "voiceTranslationEnabled" = get b "voiceTranslationEnabled")
    by (by intros a b ->).
  apply E in H; [|vm_compute; reflexivity|reflexivity].
  vm_compute in H. discriminate H.
Qed.

(** C2 (amended): an edit is written into the client's settings object
    before it is submitted, and nothing rolls it back: the request
    carries the whole edited object, and the answer, accepted or not,
    leaves the settings as they are when it arrives, which is as edited
    when only messages, timers and the opening of the socket came in
    between.  What a rejection prevents is the forwarding to the relay:
    the [update_settings] frame is sent only after an accepted request
    and only if the socket is open when the answer arrives, and it
    carries the settings as they are at that moment.  [saveSettings] on
    the settings page leaves the edited settings alone as well. *)
Theorem update_leaves_settings_as_edited (P : Overlay.Platform)
  (s : Overlay.State) (page : SettingsPage.State) (key : string)
  (v : jsval) (between : list Overlay.Event) (r : Fetched unit) :
  let edited := set (Overlay.translationSettings s) key v in
  let submitted := Overlay.updateSettings_request (Overlay.v_model key v s) in
  let arrived := Overlay.run P between submitted in
  let after := Overlay.updateSettings_answer r arrived in
  Overlay.translationSettings submitted = edited
  /\ Overlay.requests submitted = Overlay.requests s ++ [edited]
  /\ Overlay.outbox submitted = Overlay.outbox s
  /\ Overlay.translationSettings after = Overlay.translationSettings arrived
  /\ (forallb Overlay.is_delivery between = true ->
      Overlay.translationSettings after = edited)
  /\ Overlay.requests after = Overlay.requests arrived
  /\ Overlay.outbox after
     = (if accepted r then
          match Overlay.translationWebSocket arrived with
          | Some Overlay.OPEN =>
              Overlay.outbox arrived
              ++ [Overlay.update_settings
                    (Overlay.translationSettings arrived)]
          | _ => Overlay.outbox arrived
          end
        else Overlay.outbox arrived)
  /\ SettingsPage.settings
       (SettingsPage.saveSettings r (SettingsPage.v_model key v page))
     = set (SettingsPage.settings page) key v.
Proof.
  cbv zeta.
  assert (Hans : forall o,
            Overlay.translationSettings (Overlay.updateSettings_answer r o)
            = Overlay.translationSettings o
            /\ Overlay.requests (Overlay.updateSettings_answer r o)
               = Overlay.requests o).
  { intros o. unfold Overlay.updateSettings_answer.
    destruct r as [|[] body]; simpl; try done.
    by destruct (Overlay.translationWebSocket o) as [[]|]. }
  split; [done|]. split; [done|]. split; [done|].
  split; [apply Hans|].
  split.
  { intros Hd. destruct (Hans (Overlay.run P between
                                 (Overlay.updateSettings_request
                                    (Overlay.v_model key v s)))) as [-> _].
    by rewrite deliveries_keep_settings. }
  split; [apply Hans|].
  split.
  { unfold Overlay.updateSettings_answer.
    destruct r as [|[] body]; simpl; try done.
    by destruct (Overlay.translationWebSocket _) as [[]|]. }
  unfold SettingsPage.saveSettings.
  by destruct r as [|[] body].
Qed.

Lemma update_leaves_settings_as_edited_witness :
  let s := Overlay.onMounted Samples.stored_too_loud Overlay.initial in
  let submitted :=
    Overlay.updateSettings_request
      (Overlay.v_model "voiceTranslationEnabled" (JBool true) s) in
  let arrived :=
    Overlay.run Samples.browser
      [Overlay.Message (Samples.text_message "A" "Hello" "Bonjour")]
      submitted in
  let after := Overlay.updateSettings_answer (Response false None) arrived in
  get (Overlay.translationSettings after) "voiceTranslationEnabled"
  = JBool true
  /\ get (Overlay.translationSettings after) "originalVoiceVolume"
     = JNum 1.5
  /\ Overlay.outbox after = [].
Proof.
  destruct (update_leaves_settings_as_edited Samples.browser
              (Overlay.onMounted Samples.stored_too_loud Overlay.initial)
              SettingsPage.initial "voiceTranslationEnabled" (JBool true)
              [Overlay.Message (Samples.text_message "A" "Hello" "Bonjour")]
              (Response false None))
    as (_ & _ & _ & _ & Hedit & _ & Hout & _).
  cbv zeta. rewrite Hout, (Hedit eq_refl).
  split; [vm_compute; reflexivity|].
  split; vm_compute; reflexivity.
Defined.




(** ** The relay: one Translation Provider call per target language *)

Section RelayFacts.

Import Relay.

Variable P : Providers.

Lemma translate_fold_calls (u : Utterance) (asked : nat)
  (targets : list string)
  (acc : list TranslateCall * gmap string string) :
  (foldl (translate_one P u asked) acc targets).1
  = acc.1 ++ map (fun t => (transcript u, sourceLanguage u, t)) targets.
Proof.
  revert acc. induction targets as [|t targets IH]; intros acc; simpl.
  - by rewrite app_nil_r.
  - rewrite IH. unfold translate_one.
    destruct (Translate P _ _ _ t); simpl; by rewrite <- app_assoc.
Qed.

Lemma translate_fold_miss (u : Utterance) (asked : nat)
  (targets : list string)
  (acc : list TranslateCall * gmap string string) (L : string) :
  L ∉ targets ->
  (foldl (translate_one P u asked) acc targets).2 !! L = acc.2 !! L.
Proof.
  revert acc. induction targets as [|t targets IH]; intros acc Hnot; [done|].
  apply not_elem_of_cons in Hnot as [Hne Hnot]. simpl.
  rewrite IH by done. unfold translate_one.
  destruct (Translate P _ _ _ t); simpl; [|done].
  by rewrite lookup_insert_ne.
Qed.

(** The cache holds, for the language at position [k] of the loop, what
    the provider answered to the call made for it. *)
Lemma translate_fold_hit (u : Utterance) (asked : nat)
  (targets : list string)
  (acc : list TranslateCall * gmap string string) (k : nat) (L : string) :
  NoDup targets -> targets !! k = Some L -> acc.2 !! L = None ->
  (foldl (translate_one P u asked) acc targets).2 !! L
  = Translate P (asked + length acc.1 + k)
      (transcript u) (sourceLanguage u) L.
Proof.
  revert acc k.
  induction targets as [|t targets IH]; intros acc k Hnd Hk Hfresh;
    [done|].
  apply NoDup_cons in Hnd as [Hnot Hnd]. destruct k as [|k]; simpl in *.
  - injection Hk as ->. rewrite translate_fold_miss by done.
    unfold translate_one. rewrite Nat.add_0_r.
    destruct (Translate P _ _ _ L); simpl; [|done].
    by rewrite lookup_insert_eq.
  - assert (Hne : t <> L).
    { intros ->. apply Hnot. by eapply list_elem_of_lookup_2. }
    assert (Hfresh' : (translate_one P u asked acc t).2 !! L = None).
    { unfold translate_one.
      destruct (Translate P _ _ _ t); simpl; [|done].
      by rewrite lookup_insert_ne. }
    assert (Hlen : length (translate_one P u asked acc t).1
                   = S (length acc.1)).
    { unfold translate_one.
      destruct (Translate P _ _ _ t); simpl; rewrite length_app;
        simpl; lia. }
    rewrite (IH _ k Hnd Hk Hfresh'), Hlen. f_equal. lia.
Qed.

Lemma fan_out_translate_calls (asked synthesized : nat)
  (snapshot : gmap string Channel) (u : Utterance) :
  translate_calls (fan_out P asked synthesized snapshot u)
  = map (fun t => (transcript u, sourceLanguage u, t))
        (elements (target_languages snapshot u)).
Proof.
  unfold fan_out, translate_all. simpl. by rewrite translate_fold_calls.
Qed.

Lemma calls_for_app (target : string) (xs ys : list TranslateCall) :
  calls_for target (xs ++ ys) = calls_for target xs + calls_for target ys.
Proof. unfold calls_for. by rewrite filter_app, length_app. Qed.

Lemma calls_for_absent (u : Utterance) (target : string)
  (targets : list string) :
  target ∉ targets ->
  calls_for target
    (map (fun t => (transcript u, sourceLanguage u, t)) targets) = 0.
Proof.
  unfold calls_for.
  induction targets as [|t targets IH]; intros Hnot; simpl; [done|].
  apply not_elem_of_cons in Hnot as [Hne Hnot].
  rewrite filter_cons_False by (simpl; congruence).
  by apply IH.
Qed.

Lemma calls_for_present (u : Utterance) (target : string)
  (targets : list string) :
  NoDup targets -> target ∈ targets ->
  calls_for target
    (map (fun t => (transcript u, sourceLanguage u, t)) targets) = 1.
Proof.
  induction 1 as [|t targets Hfresh Hnodup IH]; intros Hin.
  - by apply elem_of_nil in Hin.
  - simpl. apply elem_of_cons in Hin as [->|Hin].
    + unfold calls_for. rewrite filter_cons_True by done. simpl.
      f_equal. by apply (calls_for_absent u t targets).
    + unfold calls_for. rewrite filter_cons_False.
      * by apply IH.
      * simpl. intros ->. contradiction.
Qed.

Lemma target_languages_needs (snapshot : gmap string Channel)
  (u : Utterance) (target : string) :
  target ∈ target_languages snapshot u <-> needs snapshot u target.
Proof.
  unfold target_languages, needs, listeners, wants_translation.
  rewrite elem_of_map_img. split.
  - intros [p Hp]. apply lookup_fmap_Some in Hp as (ch & Hlang & Hp).
    apply map_lookup_filter_Some in Hp as [Hp Hwant]. simpl in Hwant.
    apply lookup_delete_Some in Hp as [Hne Hp].
    exists p, ch. repeat split; [done|congruence| |done].
    by apply orb_prop.
  - intros (p & ch & Hp & Hne & Hwant & Hlang). exists p.
    apply lookup_fmap_Some. exists ch. split; [done|].
    apply map_lookup_filter_Some. split.
    + apply lookup_delete_Some. split; [congruence|done].
    + simpl. destruct Hwant as [-> | ->]; [done|]. apply orb_true_r.
Qed.

Lemma texts_for_app (target : string) (xs ys : list (string * Envelope)) :
  texts_for target (xs ++ ys) = texts_for target xs ++ texts_for target ys.
Proof. unfold texts_for. apply omap_app. Qed.

(** The synthesis loop queues Voice Envelopes only. *)
Lemma synthesize_fold_no_texts (u : Utterance) (asked : nat)
  (cache : gmap string string) (ls : gmap string Channel)
  (keys : list (string * option string * Qc))
  (acc : list SynthesizeCall * list (string * Envelope)) (target : string) :
  texts_for target acc.2 = [] ->
  texts_for target (foldl (synthesize_one P u asked cache ls) acc keys).2
  = [].
Proof.
  revert acc. induction keys as [|key keys IH]; intros acc Hacc; [done|].
  simpl. apply IH. unfold synthesize_one.
  destruct (cache !! key.1.1); [|done].
  destruct (Synthesize P _ _ _ _ _); simpl; [|done].
  rewrite texts_for_app, Hacc. simpl.
  generalize (map_to_list ls). intros pcs.
  induction pcs as [|pc pcs IHl]; [done|]. simpl.
  destruct (voiceEnabled (settings pc.2) && _); simpl; done.
Qed.

(** The Text Envelopes an utterance puts on the queues for one language:
    one for every listener with captions on, all with the answer the
    provider gave to the one call for that language. *)
Lemma fan_out_texts (asked synthesized : nat)
  (snapshot : gmap string Channel) (u : Utterance) (target : string)
  (k : nat) :
  elements (target_languages snapshot u) !! k = Some target ->
  forall p tr,
    (p, tr) ∈ texts_for target
                (enqueued (fan_out P asked synthesized snapshot u))
    <-> reads_captions snapshot u target p
        /\ Translate P (asked + k) (transcript u) (sourceLanguage u) target
           = Some tr.
Proof.
  intros Hk p tr. unfold fan_out. simpl.
  rewrite texts_for_app, synthesize_fold_no_texts by done.
  rewrite app_nil_r.
  assert (Hcache : (translate_all P u asked (target_languages snapshot u)).2
                   !! target
                   = Translate P (asked + k) (transcript u)
                       (sourceLanguage u) target).
  { unfold translate_all.
    rewrite (translate_fold_hit u asked _ _ k target);
      [simpl; f_equal; lia|apply NoDup_elements|done|done]. }
  unfold texts_for, text_envelopes, reads_captions, listeners.
  rewrite list_elem_of_omap. split.
  - intros ([q e] & Hin & Hsome).
    apply list_elem_of_omap in Hin as ([q' ch] & Hin & Hmk).
    apply elem_of_map_to_list in Hin.
    apply lookup_delete_Some in Hin as [Hne Hin]. simpl in *.
    destruct (textEnabled (settings ch)) eqn:Htext; [|done].
    destruct (_ !! language ch) as [tr'|] eqn:Htr; [|done].
    simpl in Hmk. injection Hmk as <- <-. simpl in Hsome.
    destruct (String.eqb (language ch) target) eqn:Hlang; [|done].
    apply String.eqb_eq in Hlang. injection Hsome as <- <-.
    rewrite Hlang in Htr. rewrite Hcache in Htr.
    split; [|done]. exists ch. repeat split; (done || congruence).
  - intros [(ch & Hp & Hne & Hlang & Htext) Htr].
    exists (p, TextEnvelope (speaker u) (transcript u) tr
                 (sourceLanguage u) target).
    split.
    + apply list_elem_of_omap. exists (p, ch). split.
      * apply elem_of_map_to_list, lookup_delete_Some.
        split; [congruence|done].
      * simpl. rewrite Htext, Hlang, Hcache, Htr. done.
    + simpl. by rewrite String.eqb_refl.
Qed.

Lemma relay_translations (st : Relayed)
  (work : gmap string Channel * Utterance) :
  translations (relay P st work)
  = translations st
    ++ translate_calls
         (fan_out P (length (translations st)) (length (syntheses st))
            work.1 work.2).
Proof. reflexivity. Qed.

Lemma relay_queued (st : Relayed)
  (work : gmap string Channel * Utterance) :
  queued (relay P st work)
  = queued st
    ++ enqueued
         (fan_out P (length (translations st)) (length (syntheses st))
            work.1 work.2).
Proof. reflexivity. Qed.

(** C1: for an utterance and the snapshot taken for it, a target
    language that some listener other than the speaker needs (text or
    voice translation enabled) is asked of the Translation Provider
    exactly once, however many listeners share it, with the utterance's
    transcript and source language; a language no such listener needs is
    not asked for at all.  The answer to that one call is what every
    listener of that language with captions on receives as a Text
    Envelope, and nobody receives anything else for that language.  It
    is kept for that utterance only: when the same utterance is fanned
    out again, the provider is asked again, and the envelopes of the
    second round carry the answer to the second call. *)
Theorem translation_once_per_target_language (st : Relayed)
  (snapshot : gmap string Channel) (u : Utterance) (target : string) :
  needs snapshot u target ->
  let asked := length (translations st) in
  let r := fan_out P asked (length (syntheses st)) snapshot u in
  let st1 := relay P st (snapshot, u) in
  let st2 := relay P st1 (snapshot, u) in
  calls_for target (translate_calls r) = 1
  /\ (forall other, ~ needs snapshot u other ->
        calls_for other (translate_calls r) = 0)
  /\ (forall c, c ∈ translate_calls r ->
        c.1 = (transcript u, sourceLanguage u))
  /\ exists k,
       elements (target_languages snapshot u) !! k = Some target
       /\ (forall p tr,
             (p, tr) ∈ texts_for target (enqueued r)
             <-> reads_captions snapshot u target p
                 /\ Translate P (asked + k) (transcript u)
                      (sourceLanguage u) target = Some tr)
       /\ calls_for target (translations st2)
          = calls_for target (translations st) + 2
       /\ length (translations st1) > asked + k
       /\ (forall p tr,
             (p, tr) ∈ texts_for target
                         (drop (length (queued st1)) (queued st2))
             <-> reads_captions snapshot u target p
                 /\ Translate P (length (translations st1) + k)
                      (transcript u) (sourceLanguage u) target = Some tr).
Proof.
  intros Hneeds. cbv zeta.
  assert (Hone : forall a b,
             calls_for target (translate_calls (fan_out P a b snapshot u))
             = 1).
  { intros a b. rewrite fan_out_translate_calls. apply calls_for_present.
    - apply NoDup_elements.
    - apply elem_of_elements. by apply target_languages_needs. }
  split; [apply Hone|]. split; [|split].
  - intros other Hnot. rewrite fan_out_translate_calls.
    apply calls_for_absent. rewrite elem_of_elements.
    by rewrite target_languages_needs.
  - intros c. rewrite fan_out_translate_calls.
    intros Hc. apply list_elem_of_fmap in Hc as (t & -> & _). done.
  - assert (Hin : target ∈ elements (target_languages snapshot u)).
    { apply elem_of_elements. by apply target_languages_needs. }
    apply list_elem_of_lookup in Hin as [k Hk]. exists k.
    split; [done|]. split; [by apply fan_out_texts|]. split; [|split].
    + rewrite !relay_translations. cbn [fst snd].
      rewrite !calls_for_app, !Hone. lia.
    + rewrite relay_translations. cbn [fst snd].
      rewrite length_app, fan_out_translate_calls, length_map.
      apply lookup_lt_Some in Hk. lia.
    + rewrite (relay_queued (relay P st (snapshot, u))). cbn [fst snd].
      rewrite drop_app_length. by apply fan_out_texts.
Qed.

End RelayFacts.

Lemma translation_once_per_target_language_witness :
  let r := Relay.fan_out Samples.providers 0 0 Samples.room Samples.greeting in
  Relay.needs Samples.room Samples.greeting "en"
  /\ Relay.calls_for "en" (Relay.translate_calls r) = 1.
Proof.
  assert (H : Relay.needs Samples.room Samples.greeting "en").
  { exists "B", {| Relay.language := "en";
                   Relay.settings :=
                     Samples.relay_settings true true (Some "V1") |}.
    split; [vm_compute; reflexivity|].
    split; [discriminate|].
    split; [by left|reflexivity]. }
  split; [exact H|].
  exact (proj1 (translation_once_per_target_language Samples.providers
                  Relay.idle Samples.room Samples.greeting "en" H)).
Defined.

(** * Further properties of the overlay *)

Section OverlayMore.

Import Overlay.

Variable P : Platform.

(** X3: the byte array built from a decoded string has one entry per
    character, each entry is the character's code, and every entry fits
    a byte. *)
Theorem audioArray_is_the_byte_string (audioData : string) :
  length (audioArray audioData) = String.length audioData
  /\ (forall i, i < String.length audioData ->
        audioArray audioData !! i = Some (charCodeAt audioData i))
  /\ Forall (fun b => (b < 256)%N) (audioArray audioData).
Proof.
  rewrite audioArray_bytes. split; [|split].
  - by rewrite length_map, length_list_ascii.
  - intros i Hi. rewrite list_lookup_fmap. unfold charCodeAt.
    rewrite get_list_ascii.
    destruct (String.list_ascii_of_string audioData !! i) eqn:E; [done|].
    apply lookup_ge_None in E. rewrite length_list_ascii in E. lia.
  - apply Forall_fmap, Forall_forall. intros c _. simpl.
    apply Ascii.N_ascii_bounded.
Qed.

(** X4: a message starts at most one audio source, and only a
    [voice_translation] message handled while voice translation is on
    and the audio context exists does; the source then plays at the gain
    the [translatedVoiceVolume] setting converts to. *)
Theorem message_starts_at_most_one_source (s : State)
  (data : gmap string jsval) :
  started (handleWebSocketMessage P s data) = started s
  \/ (strict_eq (get data "type") (JStr "voice_translation") = true
      /\ truthy (get (translationSettings s) "voiceTranslationEnabled")
         = true
      /\ audioContext s = true
      /\ exists decodedAudio g,
           to_gain P (get (translationSettings s) "translatedVoiceVolume")
           = Some g
           /\ started (handleWebSocketMessage P s data)
              = started s ++ [{| buffer := decodedAudio; gain := g |}]).
Proof.
  unfold handleWebSocketMessage.
  destruct (strict_eq _ (JStr "text_translation")) eqn:E1; [by left|].
  destruct (strict_eq _ (JStr "voice_translation")) eqn:E2.
  2:{ left. by destruct (strict_eq _ (JStr "voices_list")). }
  unfold playTranslatedAudio.
  destruct (truthy _) eqn:Hon; [|by left].
  destruct (audioContext s) eqn:Hctx; [|by left]. simpl.
  destruct (atob P _) as [audioData|]; [|by left].
  destruct (decodeAudioData P _) as [decodedAudio|]; [|by left].
  unfold play_decoded. simpl.
  destruct (to_gain P _) as [g|] eqn:Hg; [|by left].
  right. repeat split; try done. by exists decodedAudio, g.
Qed.

Lemma timer_callback_world (tm : Timer) (s : State) :
  outbox (timer_callback tm s) = outbox s
  /\ requests (timer_callback tm s) = requests s
  /\ audioContext (timer_callback tm s) = audioContext s.
Proof.
  unfold timer_callback. destruct (currentTranslation s); [|done].
  by destruct (Overlay.still_showing _ _).
Qed.

Lemma advance_world (t : Z) (s : State) :
  outbox (advance t s) = outbox s
  /\ requests (advance t s) = requests s
  /\ audioContext (advance t s) = audioContext s.
Proof.
  unfold advance.
  generalize (filter (fun tm => (due tm <= t)%Z) (timers s)).
  generalize (filter (fun tm => ~ (due tm <= t)%Z) (timers s)).
  intros pending ready.
  change (outbox s) with (outbox (set_clock (Z.max (now s) t) pending s)).
  change (requests s)
    with (requests (set_clock (Z.max (now s) t) pending s)).
  change (audioContext s)
    with (audioContext (set_clock (Z.max (now s) t) pending s)).
  generalize (set_clock (Z.max (now s) t) pending s). clear s.
  induction ready as [|tm ready IH]; intros s; simpl; [done|].
  destruct (IH (timer_callback tm s)) as (-> & -> & ->).
  apply timer_callback_world.
Qed.

Lemma handle_world (s : State) (data : gmap string jsval) :
  outbox (handleWebSocketMessage P s data) = outbox s
  /\ requests (handleWebSocketMessage P s data) = requests s
  /\ audioContext (handleWebSocketMessage P s data) = audioContext s.
Proof.
  unfold handleWebSocketMessage.
  destruct (strict_eq _ (JStr "text_translation")); [done|].
  destruct (strict_eq _ (JStr "voice_translation")).
  { unfold playTranslatedAudio, play_decoded. simpl.
    destruct (_ || _); [done|].
    destruct (atob P _); [|done]. simpl.
    destruct (decodeAudioData P _); [|done]. simpl.
    by destruct (to_gain P _). }
  by destruct (strict_eq _ (JStr "voices_list")).
Qed.

Lemma delivery_world (s : State) (ev : Event) :
  is_delivery ev = true ->
  outbox (step P s ev) = outbox s /\ requests (step P s ev) = requests s.
Proof.
  destruct ev; simpl; try discriminate; intros _.
  - split; apply handle_world.
  - split; apply advance_world.
  - by destruct (translationWebSocket s) as [[]|].
Qed.

(** X5: the component never answers what it is delivered: no sequence
    of incoming messages, timer ticks and socket openings makes it send a
    frame or a request. *)
Theorem deliveries_send_nothing (evs : list Event) (s : State) :
  forallb is_delivery evs = true ->
  outbox (run P evs s) = outbox s /\ requests (run P evs s) = requests s.
Proof.
  unfold run. revert s.
  induction evs as [|ev evs IH]; intros s; simpl; [done|].
  intros [H1 H2]%andb_prop.
  destruct (IH (step P s ev) H2) as [-> ->].
  by apply delivery_world.
Qed.

End OverlayMore.

Lemma deliveries_send_nothing_witness :
  Overlay.outbox
    (Overlay.run Samples.browser
       [Overlay.Message (Samples.text_message "A" "Hello" "Bonjour");
        Overlay.Clock 6000;
        Overlay.Message (Samples.voice_message "A" "SGk=")]
       Samples.listening_with_voice) = [].
Proof.
  apply (deliveries_send_nothing Samples.browser
           [Overlay.Message (Samples.text_message "A" "Hello" "Bonjour");
            Overlay.Clock 6000;
            Overlay.Message (Samples.voice_message "A" "SGk=")]
           Samples.listening_with_voice).
  reflexivity.
Defined.

Section OverlayTraffic.

Import Overlay.

Variable P : Platform.

Lemma step_keeps_audioContext (s : State) (ev : Event) :
  audioContext (step P s ev) = audioContext s.
Proof.
  destruct ev as [data|t| |key v r]; simpl.
  - apply handle_world.
  - apply advance_world.
  - by destruct (translationWebSocket s) as [[]|].
  - unfold updateSettings, updateSettings_answer, updateSettings_request.
    simpl. destruct r as [|[] ?]; simpl; try done.
    by destruct (translationWebSocket s) as [[]|].
Qed.

Lemma step_without_context_starts_nothing (s : State) (ev : Event) :
  audioContext s = false ->
  started (step P s ev) = started s.
Proof.
  intros Hctx. destruct ev as [data|t| |key v r]; simpl.
  - unfold handleWebSocketMessage.
    destruct (strict_eq _ (JStr "text_translation")); [done|].
    destruct (strict_eq _ (JStr "voice_translation")).
    + unfold playTranslatedAudio. by rewrite Hctx, orb_true_r.
    + by destruct (strict_eq _ (JStr "voices_list")).
  - apply advance_frame.
  - by destruct (translationWebSocket s) as [[]|].
  - unfold updateSettings, updateSettings_answer, updateSettings_request.
    simpl. destruct r as [|[] ?]; simpl; try done.
    by destruct (translationWebSocket s) as [[]|].
Qed.

(** X9: loading merges field by field: a stored field replaces the
    field of the settings, a field the store does not carry keeps its
    value (the default on a fresh component), and loading the same
    answer a second time changes nothing. *)
Theorem load_merges_field_by_field (data : gmap string jsval) (s : State) :
  let r := Response true (Some data) in
  let s' := loadTranslationSettings r s in
  (forall k v, data !! k = Some v -> get (translationSettings s') k = v)
  /\ (forall k, data !! k = None ->
        get (translationSettings s') k = get (translationSettings s) k)
  /\ loadTranslationSettings r s' = s'.
Proof.
  simpl. split; [|split].
  - intros k v Hk. by rewrite get_Object_assign, Hk.
  - intros k Hk. by rewrite get_Object_assign, Hk.
  - unfold set_translationSettings, Object_assign. simpl. f_equal.
    by rewrite (assoc_L (∪)), (idemp_L (∪) data).
Qed.

End OverlayTraffic.

(** * Further properties of the settings page *)

Section PageStatus.

Import SettingsPage.

(** X10: the status line has no guard at all: a status shown less than
    three seconds after an earlier one is wiped when the earlier one's
    timer runs, while its own timer is still pending. *)
Theorem status_wiped_by_earlier_timer (s : State)
  (ty1 msg1 ty2 msg2 : string) (t : Z) :
  (now s < t < now s + 3000)%Z ->
  let s1 := showSaveStatus ty1 msg1 s in
  let s2 := showSaveStatus ty2 msg2 (advance t s1) in
  saveStatus s2 = Some {| type := ty2; message := msg2 |}
  /\ saveStatus (advance (now s + 3000) s2) = None
  /\ (t + 3000)%Z ∈ status_timers (advance (now s + 3000) s2).
Proof.
  intros Ht. simpl. split; [done|]. split.
  - rewrite bool_decide_eq_true_2; [done|].
    apply Exists_exists. exists (now s + 3000)%Z. split; [|lia].
    apply elem_of_app. left. apply list_elem_of_filter. split; [lia|].
    apply elem_of_app. right. by apply list_elem_of_singleton.
  - apply list_elem_of_filter. split; [lia|].
    apply elem_of_app. right. apply list_elem_of_singleton. lia.
Qed.

(** X11: a status is gone from three seconds after it was shown, at
    every later moment; and it is on screen until then when no earlier
    status timer falls due in between. *)
Theorem status_shown_for_three_seconds (s : State) (ty msg : string)
  (early late : Z) :
  (early < now s + 3000 <= late)%Z ->
  Forall (fun d => (early < d)%Z) (status_timers s) ->
  saveStatus (advance early (showSaveStatus ty msg s))
  = Some {| type := ty; message := msg |}
  /\ saveStatus (advance late (showSaveStatus ty msg s)) = None.
Proof.
  intros Ht Hnone. simpl. split.
  - rewrite bool_decide_eq_false_2; [done|].
    intros (d & Hd & Hle)%Exists_exists.
    apply elem_of_app in Hd as [Hd|Hd].
    + rewrite Forall_forall in Hnone. specialize (Hnone d Hd). lia.
    + apply list_elem_of_singleton in Hd. lia.
  - rewrite bool_decide_eq_true_2; [done|].
    apply Exists_exists. exists (now s + 3000)%Z. split; [|lia].
    apply elem_of_app. right. by apply list_elem_of_singleton.
Qed.

End PageStatus.

Lemma status_wiped_by_earlier_timer_witness :
  let s1 :=
    SettingsPage.showSaveStatus "success" "translation.save_success"
      SettingsPage.initial in
  let s2 :=
    SettingsPage.showSaveStatus "error" "translation.save_error"
      (SettingsPage.advance 2000 s1) in
  SettingsPage.saveStatus s2
  = Some {| SettingsPage.type := "error";
            SettingsPage.message := "translation.save_error" |}
  /\ SettingsPage.saveStatus (SettingsPage.advance 3000 s2) = None
  /\ 5000%Z ∈ SettingsPage.status_timers (SettingsPage.advance 3000 s2).
Proof.
  apply (status_wiped_by_earlier_timer SettingsPage.initial
           "success" "translation.save_success"
           "error" "translation.save_error" 2000).
  simpl. lia.
Defined.

Lemma status_shown_for_three_seconds_witness :
  let s :=
    SettingsPage.showSaveStatus "success" "translation.save_success"
      SettingsPage.initial in
  SettingsPage.saveStatus (SettingsPage.advance 2999 s)
  = Some {| SettingsPage.type := "success";
            SettingsPage.message := "translation.save_success" |}
  /\ SettingsPage.saveStatus (SettingsPage.advance 3000 s) = None.
Proof.
  apply (status_shown_for_three_seconds SettingsPage.initial
           "success" "translation.save_success" 2999 3000).
  - simpl. lia.
  - apply Forall_nil_2.
Defined.

(** * The speaker label and the voice preview of the overlay *)

Section SpeakerLabel.

Import OverlayExtras.

Variable t : string -> string.

(** X12: the speaker label is never blank: as long as the text for an
    unknown speaker is not empty, [getSpeakerName] returns a truthy
    value for every list of participants and every speaker id. *)
Theorem speaker_label_is_never_blank
  (participants : list (gmap string jsval)) (speakerId : jsval) :
  t "translation.unknown_speaker" <> "" ->
  truthy (getSpeakerName t participants speakerId) = true.
Proof.
  intros Ht. unfold getSpeakerName.
  assert (Hf : truthy (JStr (t "translation.unknown_speaker")) = true).
  { simpl. apply negb_true_iff. by apply String.eqb_neq. }
  destruct (find _ participants) as [p|]; [|done].
  by destruct (truthy (get p "name")) eqn:E.
Qed.

(** X13: the first participant with the speaker's id decides the label:
    once the list has one, participants that come after it change
    nothing. *)
Theorem first_participant_with_the_id_wins
  (participants more : list (gmap string jsval)) (speakerId : jsval) :
  Exists (fun p => strict_eq (get p "id") speakerId = true) participants ->
  getSpeakerName t (participants ++ more) speakerId
  = getSpeakerName t participants speakerId.
Proof.
  intros Hex. unfold getSpeakerName.
  replace (find (fun p => strict_eq (get p "id") speakerId)
                (participants ++ more))
    with (find (fun p => strict_eq (get p "id") speakerId) participants);
    [done|].
  induction Hex as [p ps Hp|p ps Hex IH]; simpl.
  - by rewrite Hp.
  - by destruct (strict_eq (get p "id") speakerId).
Qed.

(** X14: participants that carry no [id] property are never found under
    a speaker id, so the label is the text for an unknown speaker; but a
    message without [speaker_id] is labelled with the name of the first
    of them, since [undefined === undefined]. *)
Theorem participants_without_id
  (participants : list (gmap string jsval)) (speakerId : jsval) :
  Forall (fun p => p !! "id" = None) participants ->
  (speakerId <> JUndefined ->
   getSpeakerName t participants speakerId
   = JStr (t "translation.unknown_speaker"))
  /\ (forall p rest, participants = p :: rest ->
        truthy (get p "name") = true ->
        getSpeakerName t participants JUndefined = get p "name").
Proof.
  intros Hno. split.
  - intros Hid. unfold getSpeakerName.
    replace (find (fun p => strict_eq (get p "id") speakerId) participants)
      with (@None (gmap string jsval)); [done|].
    induction Hno as [|p ps Hp Hno IH]; simpl; [done|].
    unfold get at 1. rewrite Hp. simpl.
    by destruct speakerId.
  - intros p rest -> Hname. apply Forall_cons in Hno as [Hp _].
    unfold getSpeakerName. simpl. unfold get at 1. rewrite Hp. simpl.
    by rewrite Hname.
Qed.

End SpeakerLabel.

Lemma speaker_label_is_never_blank_witness :
  truthy
    (OverlayExtras.getSpeakerName (fun key => key)
       [ {[ "id" := JStr "A"; "name" := JStr "" ]} ] (JStr "A")) = true.
Proof.
  apply (speaker_label_is_never_blank (fun key => key)). discriminate.
Defined.

Lemma first_participant_with_the_id_wins_witness :
  OverlayExtras.getSpeakerName (fun key => key)
    ([ {[ "id" := JStr "A"; "name" := JStr "Aiko" ]} ]
     ++ [ {[ "id" := JStr "A"; "name" := JStr "Other" ]} ]) (JStr "A")
  = OverlayExtras.getSpeakerName (fun key => key)
      [ {[ "id" := JStr "A"; "name" := JStr "Aiko" ]} ] (JStr "A").
Proof.
  apply (first_participant_with_the_id_wins (fun key => key)).
  apply Exists_cons_hd. vm_compute. reflexivity.
Defined.

Lemma participants_without_id_witness :
  OverlayExtras.getSpeakerName (fun key => key)
    [ {[ "identity" := JStr "user-1"; "name" := JStr "Aiko" ]} ]
    (JStr "user-1")
  = JStr "translation.unknown_speaker".
Proof.
  apply (participants_without_id (fun key => key)
           [ {[ "identity" := JStr "user-1"; "name" := JStr "Aiko" ]} ]
           (JStr "user-1")).
  - apply Forall_cons_2; [vm_compute; reflexivity | apply Forall_nil_2].
  - discriminate.
Defined.

Section OverlayPreview.

Import OverlayExtras.

Variable P : Overlay.Platform.
Variable t : string -> string.

Lemma incoming_keeps_preview (s : State) (e : Overlay.Event) :
  isPlayingPreview (step P t s (Incoming e)) = isPlayingPreview s
  /\ sounding (step P t s (Incoming e)) = sounding s
  /\ preview_sources (step P t s (Incoming e)) = preview_sources s.
Proof. done. Qed.

(** X15: after a synthesize response that is not [ok] the preview flag
    stays set for good: nothing clears it, every later click on the
    preview button is ignored, and the button stays disabled. *)
Theorem preview_stuck_after_refused_request (s : State)
  (body : option (gmap string jsval)) (evs : list Event) :
  truthy (get (Overlay.translationSettings (overlay s)) "preferredVoiceId")
  = true ->
  isPlayingPreview s = false ->
  sounding s = 0 ->
  let s' := run P t evs (playVoicePreview P t (Response false body) s) in
  isPlayingPreview s' = true
  /\ preview_disabled s' = true
  /\ preview_sources s' = preview_sources s.
Proof.
  intros Hvoice Hflag Hquiet. simpl.
  assert (Hinv : forall s0,
             isPlayingPreview s0 = true -> sounding s0 = 0 ->
             isPlayingPreview (run P t evs s0) = true
             /\ preview_sources (run P t evs s0) = preview_sources s0).
  { unfold run. induction evs as [|ev evs IH]; intros s0 H1 H2; [done|].
    simpl. destruct ev as [r| |e].
    - simpl. unfold playVoicePreview. rewrite H1, orb_true_r.
      by apply IH.
    - simpl. unfold preview_ended. rewrite H2. by apply IH.
    - destruct (IH (step P t s0 (Incoming e))) as [Ha Hb]; try done. }
  destruct (Hinv (playVoicePreview P t (Response false body) s))
    as [Ha Hb].
  - unfold playVoicePreview. by rewrite Hvoice, Hflag.
  - unfold playVoicePreview. by rewrite Hvoice, Hflag.
  - split; [done|]. split.
    + unfold preview_disabled. rewrite Ha. apply orb_true_r.
    + rewrite Hb. unfold playVoicePreview. by rewrite Hvoice, Hflag.
Qed.

(** X16: previews never overlap: from a freshly mounted component, at
    most one preview source is sounding at any time, whatever is clicked,
    delivered or answered. *)
Theorem at_most_one_preview_sounds (o : Overlay.State)
  (evs : list Event) :
  sounding (run P t evs (mounted o)) <= 1.
Proof.
  assert (Hinv : forall s,
             sounding s = 0 \/ (sounding s = 1 /\ isPlayingPreview s = true)
             -> sounding (run P t evs s) = 0
                \/ (sounding (run P t evs s) = 1
                    /\ isPlayingPreview (run P t evs s) = true)).
  { unfold run. induction evs as [|ev evs IH]; intros s Hs; [done|].
    simpl. apply IH. destruct ev as [r| |e].
    - simpl. unfold playVoicePreview.
      destruct (negb _ || isPlayingPreview s) eqn:Hguard; [done|].
      apply orb_false_elim in Hguard as [_ Hflag].
      destruct Hs as [Hs|[_ Hs]]; [|congruence].
      destruct r as [|[] [result|]]; simpl; try (by left).
      destruct (Overlay.atob P _); simpl; [|by left].
      destruct (Overlay.audioContext (overlay s)); simpl; [|by left].
      destruct (Overlay.decodeAudioData P _); simpl; [|by left].
      right. by rewrite Hs.
    - simpl. unfold preview_ended.
      destruct (sounding s) as [|n] eqn:E; simpl; [by left|].
      destruct Hs as [Hs|[Hs _]]; [discriminate|left; lia].
    - exact Hs. }
  destruct (Hinv (mounted o)) as [->|[-> _]]; [by left|lia|lia].
Qed.

(** X17: after a click that passed the guard the flag is still set in
    exactly two cases: a source was started, or the response was not
    [ok].  In every other case (failed request, unreadable body, payload
    that does not decode, no audio context yet) it has been cleared and
    nothing plays. *)
Theorem preview_flag_after_click (s : State)
  (r : Fetched (gmap string jsval)) :
  truthy (get (Overlay.translationSettings (overlay s)) "preferredVoiceId")
  = true ->
  isPlayingPreview s = false ->
  let s' := playVoicePreview P t r s in
  (sounding s' = sounding s \/ sounding s' = S (sounding s))
  /\ isPlayingPreview s'
     = (Nat.eqb (sounding s') (S (sounding s))
        || match r with Response false _ => true | _ => false end)
  /\ (Overlay.audioContext (overlay s) = false ->
      sounding s' = sounding s /\ preview_sources s' = preview_sources s).
Proof.
  intros Hvoice Hflag. simpl. unfold playVoicePreview.
  rewrite Hvoice, Hflag. simpl.
  assert (Hne : Nat.eqb (sounding s) (S (sounding s)) = false).
  { apply Nat.eqb_neq. lia. }
  destruct r as [|[] [result|]]; simpl; rewrite ?Hne; try by auto.
  destruct (Overlay.atob P _); simpl; rewrite ?Hne; try by auto.
  destruct (Overlay.audioContext (overlay s)); simpl;
    rewrite ?Hne; try by auto.
  destruct (Overlay.decodeAudioData P _); simpl; rewrite ?Hne;
    try by auto.
  rewrite Nat.eqb_refl. split; [by right|]. split; [done|]. done.
Qed.

End OverlayPreview.

Lemma preview_stuck_after_refused_request_witness :
  let s :=
    OverlayExtras.mounted
      (Overlay.v_model "preferredVoiceId" (JStr "V1")
         Samples.listening_with_voice) in
  let ok : Fetched (gmap string jsval) :=
    Response true (Some {[ "audio_data" := JStr "SGk=" ]}) in
  let s' :=
    OverlayExtras.run Samples.browser (fun key => key)
      [OverlayExtras.Click ok; OverlayExtras.Ended; OverlayExtras.Click ok]
      (OverlayExtras.playVoicePreview Samples.browser (fun key => key)
         (Response false None) s) in
  OverlayExtras.isPlayingPreview s' = true
  /\ OverlayExtras.preview_disabled s' = true
  /\ OverlayExtras.preview_sources s' = [].
Proof.
  apply (preview_stuck_after_refused_request Samples.browser
           (fun key => key)
           (OverlayExtras.mounted
              (Overlay.v_model "preferredVoiceId" (JStr "V1")
                 Samples.listening_with_voice))).
  - vm_compute. reflexivity.
  - reflexivity.
  - reflexivity.
Defined.

Lemma preview_flag_after_click_witness :
  let s :=
    OverlayExtras.mounted
      (Overlay.v_model "preferredVoiceId" (JStr "V1") Overlay.initial) in
  let s' :=
    OverlayExtras.playVoicePreview Samples.browser (fun key => key)
      (Response true (Some {[ "audio_data" := JStr "SGk=" ]})) s in
  OverlayExtras.sounding s' = 0 /\ OverlayExtras.preview_sources s' = [].
Proof.
  apply (preview_flag_after_click Samples.browser (fun key => key)
           (OverlayExtras.mounted
              (Overlay.v_model "preferredVoiceId" (JStr "V1")
                 Overlay.initial))
           (Response true (Some {[ "audio_data" := JStr "SGk=" ]}))).
  - vm_compute. reflexivity.
  - reflexivity.
  - reflexivity.
Defined.

(** * The voice preview of the settings page *)

Section PagePreview.

Import PageExtras.

Variable P : Overlay.Platform.
Variable t : string -> string.

(** X18: on the settings page the preview flag is always released: once
    a click has run to its end (a started source has ended) the flag is
    clear, whatever the server answered; and when the click passed the
    guard and no source was started, the status line reports
    [translation.preview_error]. *)
Theorem page_preview_always_releases (construct : bool)
  (r : Fetched (gmap string jsval)) (s : State) :
  isPlayingPreview s = false ->
  let s' := playVoicePreview P t construct r s in
  isPlayingPreview (settle s') = false
  /\ (truthy (get (SettingsPage.settings (page s)) "preferredVoiceId")
      = true ->
      sounding s' = sounding s ->
      SettingsPage.saveStatus (page s')
      = Some {| SettingsPage.type := "error";
                SettingsPage.message := "translation.preview_error" |}).
Proof.
  intros Hflag. simpl. unfold playVoicePreview. rewrite Hflag, orb_false_r.
  destruct (truthy _) eqn:Hvoice; simpl.
  2:{ split; [|discriminate]. unfold settle, preview_ended.
      by destruct (sounding s). }
  destruct r as [|[] [result|]]; simpl;
    try (split; [unfold settle, preview_ended; simpl;
                 by destruct (sounding s) | done]).
  unfold playAudioFromBase64. simpl.
  destruct (negb (audioContext s) && negb construct); simpl.
  { split; [unfold settle, preview_ended; simpl;
            by destruct (sounding s) | done]. }
  destruct (Overlay.atob P _); simpl.
  2:{ split; [unfold settle, preview_ended; simpl;
              by destruct (sounding s) | done]. }
  destruct (Overlay.decodeAudioData P _); simpl.
  2:{ split; [unfold settle, preview_ended; simpl;
              by destruct (sounding s) | done]. }
  split; [done|]. intros _ H. lia.
Qed.

End PagePreview.

Lemma page_preview_always_releases_witness :
  let s :=
    PageExtras.mounted
      (SettingsPage.v_model "preferredVoiceId" (JStr "V1")
         SettingsPage.initial) in
  PageExtras.isPlayingPreview
    (PageExtras.settle
       (PageExtras.playVoicePreview Samples.browser (fun key => key) true
          (Response false None) s)) = false.
Proof.
  apply (page_preview_always_releases Samples.browser (fun key => key) true
           (Response false None)
           (PageExtras.mounted
              (SettingsPage.v_model "preferredVoiceId" (JStr "V1")
                 SettingsPage.initial))).
  reflexivity.
Defined.

(** * The life of the overlay's socket *)

Section SocketLife.

Import Connection.

Lemma advance_keeps_socket (t : Z) (o : Overlay.State) :
  Overlay.translationWebSocket (Overlay.advance t o)
  = Overlay.translationWebSocket o
  /\ Overlay.audioContext (Overlay.advance t o) = Overlay.audioContext o.
Proof.
  unfold Overlay.advance.
  generalize (filter (fun tm => (Overlay.due tm <= t)%Z) (Overlay.timers o)).
  generalize (filter (fun tm => ~ (Overlay.due tm <= t)%Z)
                (Overlay.timers o)).
  intros pending ready.
  change (Overlay.translationWebSocket o)
    with (Overlay.translationWebSocket
            (Overlay.set_clock (Z.max (Overlay.now o) t) pending o)).
  change (Overlay.audioContext o)
    with (Overlay.audioContext
            (Overlay.set_clock (Z.max (Overlay.now o) t) pending o)).
  generalize (Overlay.set_clock (Z.max (Overlay.now o) t) pending o).
  clear o. induction ready as [|tm ready IH]; intros o; simpl; [done|].
  destruct (IH (Overlay.timer_callback tm o)) as [-> ->].
  unfold Overlay.timer_callback.
  destruct (Overlay.currentTranslation o); [|done].
  by destruct (Overlay.still_showing _ _).
Qed.

(** X19: a socket that closes is replaced three seconds later, not
    before: until then the closed socket stays in place, and at any
    moment from then on a newly constructed socket has taken it. *)
Theorem closed_socket_is_replaced_after_three_seconds (s : State)
  (e : Overlay.Env) (early late : Z) :
  live s = true ->
  reconnects s = [] ->
  Overlay.websocket_constructs e = true ->
  (early < Overlay.now (overlay s) + 3000 <= late)%Z ->
  let closed := socket_closed s in
  Overlay.translationWebSocket (overlay (tick early e closed))
  = Some Overlay.CLOSED
  /\ sockets (tick early e closed) = sockets s
  /\ Overlay.translationWebSocket (overlay (tick late e closed))
     = Some Overlay.CONNECTING
  /\ sockets (tick late e closed) = S (sockets s)
  /\ reconnects (tick late e closed) = [].
Proof.
  intros Hlive Hnone Hws Ht. simpl.
  unfold live in Hlive. unfold socket_closed.
  destruct (Overlay.translationWebSocket (overlay s)) as [[]|] eqn:Hsock;
    try discriminate; unfold tick; simpl; rewrite Hnone; simpl;
    rewrite (filter_cons_False (fun d => (d <= early)%Z)) by lia;
    rewrite (filter_cons_True (fun d => (d <= late)%Z)) by lia;
    rewrite (filter_cons_False (fun d => ~ (d <= late)%Z)) by lia;
    rewrite !filter_nil; simpl;
    unfold initializeWebSocket, Overlay.initializeWebSocket; simpl;
    rewrite Hws;
    (split; [apply advance_keeps_socket|]);
    (split; [done|]);
    destruct (Overlay.audiocontext_constructs e); simpl; done.
Qed.

(** X20: [cleanup] does not end the reconnecting: when the socket it
    closed reports its close, the [onclose] handler schedules
    [initializeWebSocket] as ever, and three seconds after the component
    was unmounted a new socket and a new audio context exist. *)
Theorem cleanup_does_not_stop_reconnecting (s : State) (e : Overlay.Env) :
  live s = true ->
  reconnects s = [] ->
  Overlay.websocket_constructs e = true ->
  Overlay.audiocontext_constructs e = true ->
  let s' := lose_and_wait e (cleanup s) in
  Overlay.translationWebSocket (overlay s') = Some Overlay.CONNECTING
  /\ Overlay.audioContext (overlay s') = true
  /\ current_context_running s' = true
  /\ sockets s' = S (sockets s).
Proof.
  intros Hlive Hnone Hws Hctx. simpl.
  unfold live in Hlive. unfold lose_and_wait, cleanup, socket_closed.
  destruct (Overlay.translationWebSocket (overlay s)) as [[]|] eqn:Hsock;
    try discriminate;
    destruct (Overlay.audioContext (overlay s) && current_context_running s);
    simpl; rewrite ?Hsock; simpl; unfold tick; simpl; rewrite Hnone; simpl;
    rewrite (filter_cons_True
               (fun d => (d <= Overlay.now (overlay s) + 3000)%Z)) by lia;
    rewrite !filter_nil; simpl;
    unfold initializeWebSocket, Overlay.initializeWebSocket; simpl;
    rewrite Hws, Hctx; simpl; done.
Qed.

End SocketLife.

Section SocketLifeMore.

Import Connection.

Lemma live_advance (t : Z) (s : State) (pending : list Z) :
  live {| overlay := Overlay.advance t (overlay s); reconnects := pending;
          sockets := sockets s; contexts_running := contexts_running s;
          current_context_running := current_context_running s |}
  = live s.
Proof.
  unfold live. simpl.
  by destruct (advance_keeps_socket t (overlay s)) as [-> _].
Qed.

(** X21: when the WebSocket constructor throws in a reconnect, the
    reconnecting is over for good: the closed socket stays in
    [translationWebSocket.value], no timer is pending, and nothing that
    can happen afterwards constructs another socket. *)
Theorem reconnecting_ends_when_the_constructor_throws (s : State)
  (e : Overlay.Env) (evs : list Event) :
  live s = true ->
  reconnects s = [] ->
  Overlay.websocket_constructs e = false ->
  let dead := lose_and_wait e s in
  Overlay.translationWebSocket (overlay (run evs dead))
  = Some Overlay.CLOSED
  /\ reconnects (run evs dead) = []
  /\ sockets (run evs dead) = sockets s.
Proof.
  intros Hlive Hnone Hws. simpl.
  assert (Hdead : Overlay.translationWebSocket (overlay (lose_and_wait e s))
                  = Some Overlay.CLOSED
                  /\ reconnects (lose_and_wait e s) = []
                  /\ sockets (lose_and_wait e s) = sockets s).
  { unfold live in Hlive. unfold lose_and_wait, socket_closed.
    destruct (Overlay.translationWebSocket (overlay s)) as [[]|] eqn:Hsock;
      try discriminate; unfold tick; simpl; rewrite Hnone; simpl;
      rewrite (filter_cons_True
                 (fun d => (d <= Overlay.now (overlay s) + 3000)%Z)) by lia;
      rewrite (filter_cons_False
                 (fun d => ~ (d <= Overlay.now (overlay s) + 3000)%Z))
        by lia;
      rewrite !filter_nil; simpl;
      unfold initializeWebSocket, Overlay.initializeWebSocket; simpl;
      rewrite Hws; simpl;
      (split; [apply advance_keeps_socket|done]). }
  destruct Hdead as (Hsock & Hrec & Hcount). rewrite <- Hcount.
  revert Hsock Hrec. generalize (lose_and_wait e s). clear.
  unfold run. induction evs as [|ev evs IH]; intros s Hsock Hrec; [done|].
  simpl.
  assert (Hstep : Overlay.translationWebSocket (overlay (step s ev))
                  = Some Overlay.CLOSED
                  /\ reconnects (step s ev) = []
                  /\ sockets (step s ev) = sockets s).
  { destruct ev as [| |t e|]; simpl.
    - unfold socket_opened. by rewrite Hsock.
    - unfold socket_closed. by rewrite Hsock.
    - unfold tick. rewrite Hrec. simpl.
      destruct (advance_keeps_socket t (overlay s)) as [-> _]. done.
    - unfold cleanup. rewrite Hsock.
      by destruct (Overlay.audioContext (overlay s)
                   && current_context_running s). }
  destruct Hstep as (H1 & H2 & H3).
  destruct (IH (step s ev) H1 H2) as (-> & -> & ->). done.
Qed.

Lemma lose_and_wait_reconnects (e : Overlay.Env) (s : State) :
  Overlay.websocket_constructs e = true ->
  Overlay.audiocontext_constructs e = true ->
  live s = true ->
  reconnects s = [] ->
  live (lose_and_wait e s) = true
  /\ reconnects (lose_and_wait e s) = []
  /\ contexts_running (lose_and_wait e s) = S (contexts_running s)
  /\ sockets (lose_and_wait e s) = S (sockets s).
Proof.
  intros Hws Hctx Hlive Hnone.
  unfold live in Hlive. unfold lose_and_wait, socket_closed.
  destruct (Overlay.translationWebSocket (overlay s)) as [[]|] eqn:Hsock;
    try discriminate; unfold tick; simpl; rewrite Hnone; simpl;
    rewrite (filter_cons_True
               (fun d => (d <= Overlay.now (overlay s) + 3000)%Z)) by lia;
    rewrite (filter_cons_False
               (fun d => ~ (d <= Overlay.now (overlay s) + 3000)%Z))
      by lia;
    rewrite !filter_nil; simpl;
    unfold initializeWebSocket, Overlay.initializeWebSocket; simpl;
    rewrite Hws, Hctx; simpl; done.
Qed.

(** X22: audio contexts pile up: every reconnect constructs a new
    audio context and none is closed, so after [n] rounds of losing and
    regaining the connection [n] more contexts are running (and [n] more
    sockets have been constructed). *)
Theorem every_reconnect_adds_an_audio_context (e : Overlay.Env)
  (s : State) (n : nat) :
  Overlay.websocket_constructs e = true ->
  Overlay.audiocontext_constructs e = true ->
  live s = true ->
  reconnects s = [] ->
  contexts_running (Nat.iter n (lose_and_wait e) s) = contexts_running s + n
  /\ sockets (Nat.iter n (lose_and_wait e) s) = sockets s + n.
Proof.
  intros Hws Hctx Hlive Hnone.
  assert (H : live (Nat.iter n (lose_and_wait e) s) = true
              /\ reconnects (Nat.iter n (lose_and_wait e) s) = []
              /\ contexts_running (Nat.iter n (lose_and_wait e) s)
                 = contexts_running s + n
              /\ sockets (Nat.iter n (lose_and_wait e) s) = sockets s + n).
  { induction n as [|n (IH1 & IH2 & IH3 & IH4)]; simpl.
    - repeat split; try done; lia.
    - destruct (lose_and_wait_reconnects e _ Hws Hctx IH1 IH2)
        as (-> & -> & -> & ->).
      repeat split; try done; lia. }
  destruct H as (_ & _ & H1 & H2). done.
Qed.

(** X23: there is never a reconnect pending while a socket is alive,
    and never more than one reconnect pending: from the mounted
    component on, whatever happens, the component has at most one socket
    that can still deliver. *)
Theorem one_socket_at_a_time (e : Overlay.Env) (evs : list Event) :
  let s := run evs (mount e) in
  length (reconnects s) <= 1
  /\ (reconnects s <> [] -> live s = false).
Proof.
  simpl.
  assert (Hinv : forall s,
             reconnects s = []
             \/ (exists d, reconnects s = [d]) /\ live s = false ->
             reconnects (run evs s) = []
             \/ (exists d, reconnects (run evs s) = [d])
                /\ live (run evs s) = false).
  { unfold run. induction evs as [|ev evs IH]; intros s Hs; [done|].
    simpl. apply IH. destruct ev as [| |t e'|]; simpl.
    - unfold socket_opened.
      destruct (Overlay.translationWebSocket (overlay s)) as [[]|] eqn:Hsock;
        try done.
      destruct Hs as [Hs|[_ Hs]]; [by left|].
      unfold live in Hs. by rewrite Hsock in Hs.
    - unfold socket_closed.
      destruct (Overlay.translationWebSocket (overlay s)) as [[]|] eqn:Hsock;
        try done;
        (destruct Hs as [Hs|[_ Hs]];
         [right; simpl; rewrite Hs; split; [by eexists|done]
         |unfold live in Hs; by rewrite Hsock in Hs]).
    - unfold tick. destruct Hs as [Hs|[[d Hs] Hdead]]; rewrite Hs; simpl.
      { by left. }
      destruct (decide (d <= t)%Z) as [Hd|Hd].
      + rewrite (filter_cons_True (fun d => (d <= t)%Z)) by done.
        rewrite (filter_cons_False (fun d => ~ (d <= t)%Z)) by tauto.
        rewrite !filter_nil. simpl. left.
        unfold initializeWebSocket.
        by destruct (Overlay.initializeWebSocket e' _).
      + rewrite (filter_cons_False (fun d => (d <= t)%Z)) by done.
        rewrite (filter_cons_True (fun d => ~ (d <= t)%Z)) by done.
        rewrite !filter_nil. simpl. right. split; [by eexists|].
        by rewrite live_advance.
    - unfold cleanup.
      destruct Hs as [Hs|[[d Hs] Hdead]].
      + left. by destruct (_ && _).
      + right. unfold live in Hdead.
        destruct (Overlay.translationWebSocket (overlay s)) as [[]|]
          eqn:Hsock; try discriminate;
          destruct (_ && _); simpl;
          (split; [by eexists|unfold live; simpl; by rewrite Hsock]). }
  destruct (Hinv (mount e)) as [->|[[d ->] Hdead]]; [by left| |].
  - split; [simpl; lia|done].
  - split; [simpl; lia|done].
Qed.

End SocketLifeMore.

Lemma closed_socket_is_replaced_after_three_seconds_witness :
  let e :=
    {| Overlay.innerWidth := 1280;
       Overlay.settings_fetch := NetworkError;
       Overlay.voices_fetch := NetworkError;
       Overlay.websocket_constructs := true;
       Overlay.audiocontext_constructs := true |} in
  let closed := Connection.socket_closed (Connection.mount e) in
  Overlay.translationWebSocket
    (Connection.overlay (Connection.tick 2999 e closed))
  = Some Overlay.CLOSED
  /\ Connection.sockets (Connection.tick 2999 e closed) = 1
  /\ Overlay.translationWebSocket
       (Connection.overlay (Connection.tick 3000 e closed))
     = Some Overlay.CONNECTING
  /\ Connection.sockets (Connection.tick 3000 e closed) = 2
  /\ Connection.reconnects (Connection.tick 3000 e closed) = [].
Proof.
  apply (closed_socket_is_replaced_after_three_seconds
           (Connection.mount
              {| Overlay.innerWidth := 1280;
                 Overlay.settings_fetch := NetworkError;
                 Overlay.voices_fetch := NetworkError;
                 Overlay.websocket_constructs := true;
                 Overlay.audiocontext_constructs := true |})).
  - reflexivity.
  - reflexivity.
  - reflexivity.
  - simpl. lia.
Defined.

Lemma cleanup_does_not_stop_reconnecting_witness :
  let e :=
    {| Overlay.innerWidth := 1280;
       Overlay.settings_fetch := NetworkError;
       Overlay.voices_fetch := NetworkError;
       Overlay.websocket_constructs := true;
       Overlay.audiocontext_constructs := true |} in
  let s' :=
    Connection.lose_and_wait e (Connection.cleanup (Connection.mount e)) in
  Overlay.translationWebSocket (Connection.overlay s')
  = Some Overlay.CONNECTING
  /\ Overlay.audioContext (Connection.overlay s') = true
  /\ Connection.current_context_running s' = true
  /\ Connection.sockets s' = 2.
Proof.
  apply (cleanup_does_not_stop_reconnecting
           (Connection.mount
              {| Overlay.innerWidth := 1280;
                 Overlay.settings_fetch := NetworkError;
                 Overlay.voices_fetch := NetworkError;
                 Overlay.websocket_constructs := true;
                 Overlay.audiocontext_constructs := true |}));
    reflexivity.
Defined.

Lemma reconnecting_ends_when_the_constructor_throws_witness :
  let up :=
    {| Overlay.innerWidth := 1280;
       Overlay.settings_fetch := NetworkError;
       Overlay.voices_fetch := NetworkError;
       Overlay.websocket_constructs := true;
       Overlay.audiocontext_constructs := true |} in
  let down :=
    {| Overlay.innerWidth := 1280;
       Overlay.settings_fetch := NetworkError;
       Overlay.voices_fetch := NetworkError;
       Overlay.websocket_constructs := false;
       Overlay.audiocontext_constructs := true |} in
  let s :=
    Connection.run [Connection.Tick 10000 up; Connection.Closed;
                    Connection.Tick 20000 up]
      (Connection.lose_and_wait down (Connection.mount up)) in
  Overlay.translationWebSocket (Connection.overlay s) = Some Overlay.CLOSED
  /\ Connection.reconnects s = []
  /\ Connection.sockets s = 1.
Proof.
  apply (reconnecting_ends_when_the_constructor_throws
           (Connection.mount
              {| Overlay.innerWidth := 1280;
                 Overlay.settings_fetch := NetworkError;
                 Overlay.voices_fetch := NetworkError;
                 Overlay.websocket_constructs := true;
                 Overlay.audiocontext_constructs := true |}));
    reflexivity.
Defined.

Lemma every_reconnect_adds_an_audio_context_witness :
  let e :=
    {| Overlay.innerWidth := 1280;
       Overlay.settings_fetch := NetworkError;
       Overlay.voices_fetch := NetworkError;
       Overlay.websocket_constructs := true;
       Overlay.audiocontext_constructs := true |} in
  Connection.contexts_running
    (Nat.iter 5 (Connection.lose_and_wait e) (Connection.mount e)) = 6
  /\ Connection.sockets
       (Nat.iter 5 (Connection.lose_and_wait e) (Connection.mount e)) = 6.
Proof.
  apply (every_reconnect_adds_an_audio_context
           {| Overlay.innerWidth := 1280;
              Overlay.settings_fetch := NetworkError;
              Overlay.voices_fetch := NetworkError;
              Overlay.websocket_constructs := true;
              Overlay.audiocontext_constructs := true |}
           (Connection.mount
              {| Overlay.innerWidth := 1280;
                 Overlay.settings_fetch := NetworkError;
                 Overlay.voices_fetch := NetworkError;
                 Overlay.websocket_constructs := true;
                 Overlay.audiocontext_constructs := true |}) 5);
    reflexivity.
Defined.

(** * The video room around the overlay *)

Section Room.

Import VideoRoom.

(** What holds of the room as long as LiveKit has not reported a
    connection. *)
Lemma unconnected_step (s : State) (ev : Event) :
  isConnected s = false ->
  showParticipantsList s = false ->
  showSettings s = false ->
  enabled s ev = true ->
  isConnected (step s ev) = false
  /\ showParticipantsList (step s ev) = false
  /\ showSettings (step s ev) = false
  /\ room (step s ev) = room s
  /\ localParticipant (step s ev) = localParticipant s
  /\ remoteParticipants (step s ev) = remoteParticipants s
  /\ translationReady (step s ev) = translationReady s
  /\ isTranslationEnabled (step s ev) = isTranslationEnabled s.
Proof.
  intros Hc Hp Hs Hen.
  destruct ev; simpl in Hen; unfold livekit_rendered in Hen;
    rewrite ?Hc, ?Hp, ?Hs in Hen; simpl in Hen; try discriminate.
  - unfold step, joinRoom_finish, fetchWineInfo.
    destruct (join e) as [|[] [roomData|]]; simpl; try done.
    by destruct (wine e) as [|[] [info|]].
  - done.
  - done.
  - unfold step, leaveRoom_finish.
    by destruct (match room s, disconnects, r with
                 | Some _, false, _ => false
                 | _, _, NetworkError => false
                 | _, _, Response _ _ => true
                 end).
Qed.

(** X24: the room never connects.  [LiveKitRoom], whose [connected]
    event is the only thing that sets [isConnected], is rendered inside
    the block that is shown only when [isConnected] holds; so from the
    mounted component on, after every sequence of events that the screen
    can raise, the video container (and with it the overlay and the
    control buttons) is not rendered, no participant is known, the
    header counts one participant, and the translation flags are as at
    the start. *)
Theorem room_never_connects (evs : list Event) (s : State) :
  run evs mounted = Some s ->
  isConnected s = false
  /\ view s <> VideoContainer
  /\ livekit_rendered s = false
  /\ allParticipants s = []
  /\ participantCount s = 1
  /\ translationReady s = false
  /\ isTranslationEnabled s = false.
Proof.
  assert (Hinv : forall s0,
             isConnected s0 = false -> showParticipantsList s0 = false ->
             showSettings s0 = false -> room s0 = None ->
             localParticipant s0 = None -> remoteParticipants s0 = [] ->
             translationReady s0 = false -> isTranslationEnabled s0 = false ->
             run evs s0 = Some s ->
             isConnected s = false /\ localParticipant s = None
             /\ remoteParticipants s = [] /\ translationReady s = false
             /\ isTranslationEnabled s = false).
  { induction evs as [|ev evs IH]; intros s0 H1 H2 H3 H4 H5 H6 H7 H8 Hrun.
    - injection Hrun as <-. done.
    - simpl in Hrun. destruct (enabled s0 ev) eqn:Hen; [|discriminate].
      destruct (unconnected_step s0 ev H1 H2 H3 Hen)
        as (G1 & G2 & G3 & G4 & G5 & G6 & G7 & G8).
      apply (IH (step s0 ev)); try done; congruence. }
  intros Hrun.
  destruct (Hinv mounted) as (H1 & H2 & H3 & H4 & H5); try done.
  split; [done|]. split.
  { unfold view. rewrite H1. destruct (isConnecting s); [done|].
    destruct (error s) as [msg|]; [|done]. by destruct (String.eqb msg ""). }
  split; [unfold livekit_rendered; by rewrite H1|].
  split; [unfold allParticipants; by rewrite H2, H3|].
  split; [unfold participantCount; by rewrite H3|done].
Qed.

(** X25: after an accepted join nothing is on screen below the header:
    no video, no loading indicator, no error; the token is stored, and
    the only thing left to do is to leave. *)
Theorem accepted_join_shows_nothing (e : JoinEnv)
  (roomData : gmap string jsval) :
  join e = Response true (Some roomData) ->
  let s := joinRoom_finish e mounted in
  run [JoinAnswered e] mounted = Some s
  /\ view s = Nothing
  /\ roomToken s = get roomData "access_token"
  /\ serverUrl s = get roomData "livekit_url"
  /\ forall ev, enabled s ev = true -> ev = LeaveClicked.
Proof.
  intros Hjoin. simpl.
  assert (Hs : isConnected (joinRoom_finish e mounted) = false
               /\ isConnecting (joinRoom_finish e mounted) = false
               /\ isLeaving (joinRoom_finish e mounted) = false
               /\ error (joinRoom_finish e mounted) = None
               /\ showParticipantsList (joinRoom_finish e mounted) = false
               /\ showSettings (joinRoom_finish e mounted) = false
               /\ roomToken (joinRoom_finish e mounted)
                  = get roomData "access_token"
               /\ serverUrl (joinRoom_finish e mounted)
                  = get roomData "livekit_url").
  { unfold joinRoom_finish, fetchWineInfo. rewrite Hjoin.
    by destruct (wine e) as [|[] [info|]]. }
  destruct Hs as (H1 & H2 & H3 & H4 & H5 & H6 & H7 & H8).
  split; [done|]. split; [unfold view; by rewrite H1, H2, H4|].
  split; [done|]. split; [done|].
  intros ev Hen.
  destruct ev; unfold enabled, livekit_rendered, view in Hen;
    rewrite ?H1, ?H2, ?H3, ?H4, ?H5, ?H6 in Hen; simpl in Hen;
    try discriminate.
  done.
Qed.

Lemma find_after_strangers (l : list (gmap string jsval))
  (p : gmap string jsval) :
  Forall (fun q => strict_eq (get q "identity") (get p "identity") = false)
         l ->
  list_find
    (fun q => strict_eq (get q "identity") (get p "identity") = true)
    (l ++ [p])
  = Some (length l, p).
Proof.
  intros Hl. apply list_find_Some. split; [|split].
  - rewrite lookup_app_r by done. by rewrite Nat.sub_diag.
  - apply strict_eq_refl.
  - intros j y Hy Hj. rewrite lookup_app_l in Hy by done.
    rewrite Forall_forall in Hl.
    rewrite (Hl y) by (by eapply list_elem_of_lookup_2). done.
Qed.

(** X26: a participant that connects and disconnects leaves the room as
    it was, provided nobody listed has the same identity. *)
Theorem connect_then_disconnect (p : gmap string jsval) (s : State) :
  Forall (fun q => strict_eq (get q "identity") (get p "identity") = false)
         (remoteParticipants s) ->
  onParticipantDisconnected p (onParticipantConnected p s) = s.
Proof.
  intros Hl. unfold onParticipantDisconnected, onParticipantConnected.
  simpl. rewrite find_after_strangers by done.
  destruct s. unfold set_remoteParticipants. simpl. f_equal.
  rewrite delete_take_drop.
  rewrite take_app_length.
  rewrite drop_app_ge by lia.
  replace (S (length remoteParticipants0) - length remoteParticipants0)
    with 1 by lia.
  simpl. by rewrite app_nil_r.
Qed.

(** X27: a disconnect takes exactly one entry off the list when a
    listed participant has that identity (the first such entry, so a
    participant listed twice stays listed once), none otherwise, and
    never an entry with another identity. *)
Theorem disconnect_removes_one_entry (p : gmap string jsval) (s : State) :
  let same q := strict_eq (get q "identity") (get p "identity") = true in
  let after := remoteParticipants (onParticipantDisconnected p s) in
  (Exists same (remoteParticipants s) ->
   S (length after) = length (remoteParticipants s))
  /\ (~ Exists same (remoteParticipants s) ->
      after = remoteParticipants s)
  /\ (forall q, q ∈ remoteParticipants s -> ~ same q -> q ∈ after).
Proof.
  simpl. unfold onParticipantDisconnected.
  destruct (list_find _ (remoteParticipants s)) as [[i x]|] eqn:Hfind.
  - apply list_find_Some in Hfind as (Hi & Hx & _). simpl.
    split; [|split].
    + intros _. rewrite length_delete by eauto.
      apply lookup_lt_Some in Hi. lia.
    + intros Hno. exfalso. apply Hno. apply Exists_exists.
      exists x. split; [by eapply list_elem_of_lookup_2|done].
    + intros q Hq Hdiff.
      rewrite <- (take_drop_middle _ _ _ Hi) in Hq.
      rewrite delete_take_drop.
      apply elem_of_app in Hq as [Hq|Hq]; [apply elem_of_app; by left|].
      apply elem_of_cons in Hq as [->|Hq]; [done|].
      apply elem_of_app. by right.
  - apply list_find_None in Hfind. split; [|split]; try done.
    intros Hex. exfalso. apply Exists_exists in Hex as (q & Hq & Hsame).
    rewrite Forall_forall in Hfind. by apply (Hfind q).
Qed.

Lemma emitted_onMounted (e : Overlay.Env) :
  Overlay.emitted (Overlay.onMounted e Overlay.initial)
  = [if Overlay.websocket_constructs e && Overlay.audiocontext_constructs e
     then Overlay.translation_ready else Overlay.translation_error].
Proof.
  unfold Overlay.onMounted, Overlay.initializeTranslation,
    Overlay.initializeWebSocket, Overlay.loadAvailableVoices,
    Overlay.loadTranslationSettings, Overlay.setupMobileOptimizations.
  destruct (Overlay.innerWidth e <=? 768)%Z;
    destruct (Overlay.settings_fetch e) as [|[] []];
    destruct (Overlay.voices_fetch e) as [|[] []];
    destruct (Overlay.websocket_constructs e);
    destruct (Overlay.audiocontext_constructs e); simpl; done.
Qed.

(** X28: what the room knows about the translation service after the
    overlay was mounted: [translationReady] holds exactly when the
    socket and the audio context could be constructed; whether the
    settings or the voices could be loaded plays no part. *)
Theorem translation_ready_iff_constructed (e : Overlay.Env) (s : State) :
  translationReady
    (overlay_emits (Overlay.emitted (Overlay.onMounted e Overlay.initial)) s)
  = Overlay.websocket_constructs e && Overlay.audiocontext_constructs e.
Proof.
  rewrite emitted_onMounted. simpl.
  by destruct (Overlay.websocket_constructs e && _).
Qed.

End Room.

Lemma room_never_connects_witness :
  let e :=
    {| VideoRoom.join :=
         Response true (Some {[ "access_token" := JStr "tok";
                                "livekit_url" := JStr "wss://lk" ]});
       VideoRoom.statusText := "OK";
       VideoRoom.failure := "Failed to fetch";
       VideoRoom.wine := NetworkError |} in
  VideoRoom.isConnected
    (VideoRoom.leaveRoom_begin
       (VideoRoom.joinRoom_finish e VideoRoom.mounted)) = false.
Proof.
  apply (room_never_connects
           [VideoRoom.JoinAnswered
              {| VideoRoom.join :=
                   Response true (Some {[ "access_token" := JStr "tok";
                                          "livekit_url" := JStr "wss://lk" ]});
                 VideoRoom.statusText := "OK";
                 VideoRoom.failure := "Failed to fetch";
                 VideoRoom.wine := NetworkError |};
            VideoRoom.LeaveClicked]).
  reflexivity.
Defined.

Lemma accepted_join_shows_nothing_witness :
  let e :=
    {| VideoRoom.join :=
         Response true (Some {[ "access_token" := JStr "tok";
                                "livekit_url" := JStr "wss://lk" ]});
       VideoRoom.statusText := "OK";
       VideoRoom.failure := "Failed to fetch";
       VideoRoom.wine := NetworkError |} in
  VideoRoom.view (VideoRoom.joinRoom_finish e VideoRoom.mounted)
  = VideoRoom.Nothing.
Proof.
  apply (accepted_join_shows_nothing
           {| VideoRoom.join :=
                Response true (Some {[ "access_token" := JStr "tok";
                                       "livekit_url" := JStr "wss://lk" ]});
              VideoRoom.statusText := "OK";
              VideoRoom.failure := "Failed to fetch";
              VideoRoom.wine := NetworkError |}
           {[ "access_token" := JStr "tok";
              "livekit_url" := JStr "wss://lk" ]}).
  reflexivity.
Defined.

Lemma connect_then_disconnect_witness :
  let s :=
    VideoRoom.onParticipantConnected {[ "identity" := JStr "user-1" ]}
      VideoRoom.initial in
  VideoRoom.onParticipantDisconnected {[ "identity" := JStr "user-2" ]}
    (VideoRoom.onParticipantConnected {[ "identity" := JStr "user-2" ]} s)
  = s.
Proof.
  apply (connect_then_disconnect {[ "identity" := JStr "user-2" ]}).
  apply Forall_cons_2; [vm_compute; reflexivity | apply Forall_nil_2].
Defined.

(** ** The overlay under the event loop: turns of the device, late
    answers and reconnects *)

Section SessionFacts.

Import Session.

Variable P : Overlay.Platform.

Lemma earliest_None (q : list (Z * Task)) : earliest q = None -> q = [].
Proof.
  destruct q as [|[d task] rest]; [done|]. simpl.
  destruct (earliest rest) as [[i [d' task']]|]; [|done].
  by destruct (d' <? d)%Z.
Qed.

Lemma earliest_Some (q : list (Z * Task)) (i : nat) (d : Z) (task : Task) :
  earliest q = Some (i, (d, task)) ->
  q !! i = Some (d, task) /\ Forall (fun p => (d <= fst p)%Z) q.
Proof.
  revert i d task.
  induction q as [|[d0 task0] rest IH]; intros i d task; [done|]. simpl.
  destruct (earliest rest) as [[j [d' task']]|] eqn:E.
  - destruct (IH j d' task' eq_refl) as [Hj Hall].
    destruct (Z.ltb_spec d' d0); intros [= <- <- <-].
    + split; [done|]. constructor; [simpl; lia|done].
    + split; [done|]. constructor; [simpl; lia|].
      eapply Forall_impl; [exact Hall|]. simpl. intros p Hp. lia.
  - intros [= <- <- <-]. apply earliest_None in E as ->.
    split; [done|]. constructor; [simpl; lia|constructor].
Qed.

Lemma delete_pending_work (q : list (Z * Task)) (i : nat) (d : Z)
  (task : Task) :
  q !! i = Some (d, task) ->
  pending_work q
  = pending_work (delete i q) + (if is_rerender task then 2 else 1).
Proof.
  intros Hi. unfold pending_work.
  rewrite delete_take_drop.
  rewrite <- (take_drop_middle q i (d, task) Hi) at 1 2.
  rewrite !filter_app, !length_app, filter_cons. simpl.
  destruct (is_rerender task); case_decide; try done; simpl; lia.
Qed.

Lemma pending_work_app (q q' : list (Z * Task)) :
  pending_work (q ++ q') = pending_work q + pending_work q'.
Proof. unfold pending_work. rewrite filter_app, !length_app. lia. Qed.

(** What a timer that runs leaves in the queue. *)
Lemma run_task_queue (e : Overlay.Env) (d : Z) (task : Task) (s : State) :
  queue (run_task e d task s)
  = queue s
    ++ match task, Overlay.currentTranslation (overlay s) with
       | Rerender, Some temp =>
           [((Z.max (Overlay.now (overlay s)) d + 50)%Z, PutBack temp)]
       | _, _ => []
       end.
Proof.
  destruct task; simpl; try by rewrite app_nil_r.
  unfold overlay. simpl.
  destruct (Overlay.currentTranslation _); simpl; [done|].
  by rewrite app_nil_r.
Qed.

Lemma run_task_pending_work (e : Overlay.Env) (d : Z) (task : Task)
  (s : State) (i : nat) :
  queue s !! i = Some (d, task) ->
  pending_work (queue (run_task e d task (with_queue (delete i (queue s)) s)))
  < pending_work (queue s).
Proof.
  intros Hi. rewrite run_task_queue, pending_work_app.
  rewrite (delete_pending_work _ _ _ _ Hi). simpl.
  destruct task; simpl; try (unfold pending_work; simpl; lia).
  destruct (Overlay.currentTranslation _);
    unfold pending_work; simpl; lia.
Qed.

(** A property that every timer due by [t] preserves holds after the
    timers have run. *)
Lemma fire_preserves (I : State -> Prop) (e : Overlay.Env) (t : Z) :
  (forall s i d task,
     earliest (queue s) = Some (i, (d, task)) -> (d <= t)%Z -> I s ->
     I (run_task e d task (with_queue (delete i (queue s)) s))) ->
  forall fuel s, I s -> I (fire fuel e t s).
Proof.
  intros Hstep fuel.
  induction fuel as [|fuel IH]; intros s Hs; simpl; [done|].
  destruct (earliest (queue s)) as [[i [d task]]|] eqn:E; [|done].
  destruct (Z.leb_spec d t); [|done].
  apply IH. by apply (Hstep s i d task).
Qed.

(** With fuel for the work pending, no timer due by [t] is left. *)
Lemma fire_drains (e : Overlay.Env) (t : Z) (fuel : nat) (s : State) :
  pending_work (queue s) <= fuel ->
  Forall (fun p => (t < fst p)%Z) (queue (fire fuel e t s)).
Proof.
  revert s. induction fuel as [|fuel IH]; intros s Hfuel; simpl.
  - unfold pending_work in Hfuel.
    destruct (queue s); [constructor|simpl in Hfuel; lia].
  - destruct (earliest (queue s)) as [[i [d task]]|] eqn:E.
    + apply earliest_Some in E as [Hi Hall].
      destruct (Z.leb_spec d t).
      * apply IH.
        pose proof (run_task_pending_work e d task s i Hi). lia.
      * eapply Forall_impl; [exact Hall|]. simpl. intros p Hp. lia.
    + apply earliest_None in E. rewrite E. constructor.
Qed.

Lemma tick_drains (e : Overlay.Env) (t : Z) (s : State) :
  Forall (fun p => (t < fst p)%Z) (queue (tick t e s)).
Proof.
  unfold tick. simpl. apply fire_drains.
  unfold pending_work.
  pose proof (length_filter (fun p : Z * Task => is_rerender (snd p) = true)
                (queue s)).
  lia.
Qed.

Lemma elem_of_delete_other {A : Type} (l : list A) (i : nat) (x y : A) :
  l !! i = Some y -> x ∈ l -> x <> y -> x ∈ delete i l.
Proof.
  intros Hi [j Hj]%list_elem_of_lookup Hne.
  apply list_elem_of_lookup.
  destruct (decide (j < i)) as [Hlt|Hge].
  - exists j. by rewrite list_lookup_delete_lt.
  - assert (j <> i) by (intros ->; congruence).
    exists (pred j). rewrite list_lookup_delete_ge by lia.
    by replace (S (pred j)) with j by lia.
Qed.

Lemma initializeWebSocket_overlay (e : Overlay.Env) (c : Connection.State) :
  let o := Connection.overlay c in
  let o' := Connection.overlay (Connection.initializeWebSocket e c) in
  Overlay.currentTranslation o' = Overlay.currentTranslation o
  /\ Overlay.translationSettings o' = Overlay.translationSettings o
  /\ Overlay.started o' = Overlay.started o
  /\ Overlay.outbox o' = Overlay.outbox o
  /\ Overlay.requests o' = Overlay.requests o
  /\ Overlay.now o' = Overlay.now o
  /\ Overlay.timers o' = Overlay.timers o.
Proof.
  unfold Connection.initializeWebSocket, Overlay.initializeWebSocket.
  destruct (Overlay.websocket_constructs e),
    (Overlay.audiocontext_constructs e); simpl; done.
Qed.

(** The caption after a timer has run. *)
Lemma run_task_caption (e : Overlay.Env) (d : Z) (task : Task) (s : State) :
  Overlay.currentTranslation (overlay (run_task e d task s))
  = match task with
    | HideCaption text =>
        match Overlay.currentTranslation (overlay s) with
        | Some c =>
            if Overlay.still_showing (Overlay.originalText c) text
            then None else Some c
        | None => None
        end
    | Reconnect => Overlay.currentTranslation (overlay s)
    | Rerender => None
    | PutBack temp => Some temp
    end.
Proof.
  unfold run_task, at_time, with_overlay, with_component, with_queue,
    overlay.
  destruct task; simpl.
  - unfold Overlay.timer_callback. simpl.
    destruct (Overlay.currentTranslation (Connection.overlay (component s)))
      eqn:E; simpl; [|exact E].
    destruct (Overlay.still_showing _ _); simpl; [done|exact E].
  - match goal with
    | |- context [Connection.initializeWebSocket e ?c] =>
        destruct (initializeWebSocket_overlay e c) as (H & _)
    end.
    simpl in H. by rewrite H.
  - by destruct (Overlay.currentTranslation
                   (Connection.overlay (component s))) eqn:E.
  - done.
Qed.

(** What a text message leaves behind when the component's own lists
    are empty: the caption, and its timer at the end of the queue. *)
Lemma text_message_shown (s : State) (data : gmap string jsval) :
  receiving s = true ->
  settled s ->
  get data "type" = JStr "text_translation" ->
  let shown := step P s (Message data) in
  Overlay.currentTranslation (overlay shown) = Some (Overlay.caption_of data)
  /\ queue shown
     = queue s ++ [((Overlay.now (overlay s) + 5000)%Z,
                    HideCaption (get data "original_text"))]
  /\ Overlay.now (overlay shown) = Overlay.now (overlay s)
  /\ Overlay.translationSettings (overlay shown)
     = Overlay.translationSettings (overlay s)
  /\ settled shown.
Proof.
  intros Hrecv [Htimers Hrec] Hty. simpl. rewrite Hrecv.
  rewrite handle_text_translation by done.
  unfold collect, overlay, settled. simpl.
  unfold overlay in Htimers. rewrite Htimers, Hrec. simpl. done.
Qed.

Lemma fire_run (e : Overlay.Env) (t : Z) (fuel : nat) (s : State)
  (i : nat) (d : Z) (task : Task) :
  earliest (queue s) = Some (i, (d, task)) ->
  (d <= t)%Z ->
  fire (S fuel) e t s
  = fire fuel e t (run_task e d task (with_queue (delete i (queue s)) s)).
Proof.
  intros E Hd. simpl. rewrite E.
  by rewrite (proj2 (Z.leb_le d t) Hd).
Qed.

Lemma fire_rest (e : Overlay.Env) (t : Z) (fuel : nat) (s : State) :
  Forall (fun p => (t < fst p)%Z) (queue s) ->
  fire fuel e t s = s.
Proof.
  intros Hall. destruct fuel as [|fuel]; [done|]. simpl.
  destruct (earliest (queue s)) as [[i [d task]]|] eqn:E; [|done].
  apply earliest_Some in E as [Hi _].
  rewrite Forall_forall in Hall.
  apply list_elem_of_lookup_2, Hall in Hi. simpl in Hi.
  by rewrite (proj2 (Z.leb_gt d t) Hi).
Qed.

Lemma run_task_now (e : Overlay.Env) (d : Z) (task : Task) (s : State) :
  Overlay.now (overlay (run_task e d task s))
  = Z.max (Overlay.now (overlay s)) d.
Proof.
  unfold run_task, at_time, with_overlay, with_component, with_queue,
    overlay.
  destruct task; simpl.
  - unfold Overlay.timer_callback. simpl.
    destruct (Overlay.currentTranslation (Connection.overlay (component s)));
      [|done].
    by destruct (Overlay.still_showing _ _).
  - match goal with
    | |- context [Connection.initializeWebSocket e ?c] =>
        destruct (initializeWebSocket_overlay e c)
          as (_ & _ & _ & _ & _ & H & _)
    end.
    simpl in H. by rewrite H.
  - by destruct (Overlay.currentTranslation
                   (Connection.overlay (component s))).
  - done.
Qed.

(** A turn of the device shortly before the timer of the caption on
    display runs. *)
Lemma turn_brings_caption_back (s : State) (c : Overlay.Caption)
  (text : jsval) (n5 turn t : Z) (e : Overlay.Env) :
  queue s = [(n5, HideCaption text)] ->
  Overlay.currentTranslation (overlay s) = Some c ->
  (Overlay.now (overlay s) <= turn)%Z ->
  (turn + 100 < n5 <= turn + 150)%Z ->
  (turn + 150 <= t)%Z ->
  let turned := run P [Tick turn e; OrientationChanged; Tick t e] s in
  Overlay.currentTranslation (overlay turned) = Some c
  /\ queue turned = [].
Proof.
  intros Hq Hc Hnow Hturn Ht.
  change (run P [Tick turn e; OrientationChanged; Tick t e] s)
    with (step P (step P (step P s (Tick turn e)) OrientationChanged)
            (Tick t e)).
  cbv zeta.
  (* nothing is due at the turn *)
  assert (H1 : step P s (Tick turn e) = at_time turn s).
  { unfold step, tick. rewrite fire_rest; [done|].
    rewrite Hq. repeat constructor. simpl. lia. }
  rewrite H1.
  set (s2 := step P (at_time turn s) OrientationChanged).
  assert (Hq2 : queue s2 = [(n5, HideCaption text);
                            ((turn + 100)%Z, Rerender)]).
  { unfold s2. simpl. rewrite Hq. simpl.
    unfold overlay. simpl. by rewrite Z.max_r by exact Hnow. }
  assert (Hc2 : Overlay.currentTranslation (overlay s2) = Some c)
    by exact Hc.
  assert (Hn2 : Overlay.now (overlay s2) = turn).
  { unfold s2, overlay. simpl. by rewrite Z.max_r by exact Hnow. }
  clearbody s2.
  unfold step, tick. rewrite Hq2.
  change (2 * length [(n5, HideCaption text); ((turn + 100)%Z, Rerender)])
    with 4.
  (* the outer timer of the listener takes the caption away *)
  rewrite (fire_run e t 3 s2 1 (turn + 100)%Z Rerender); [|
    rewrite Hq2; simpl; by rewrite (proj2 (Z.ltb_lt (turn + 100) n5))
      by lia | lia].
  set (s3 := run_task e (turn + 100) Rerender
               (with_queue (delete 1 (queue s2)) s2)).
  assert (Hq3 : queue s3 = [(n5, HideCaption text);
                            ((turn + 150)%Z, PutBack c)]).
  { unfold s3. rewrite run_task_queue.
    change (overlay (with_queue (delete 1 (queue s2)) s2))
      with (overlay s2).
    rewrite Hc2, Hn2, Hq2. simpl.
    by replace (Z.max turn (turn + 100) + 50)%Z with (turn + 150)%Z by lia. }
  assert (Hc3 : Overlay.currentTranslation (overlay s3) = None).
  { unfold s3. by rewrite run_task_caption. }
  clearbody s3.
  (* the timer of the caption finds nothing to hide *)
  rewrite (fire_run e t 2 s3 0 n5 (HideCaption text)); [|
    rewrite Hq3; simpl; by rewrite (proj2 (Z.ltb_ge (turn + 150) n5))
      by lia | lia].
  set (s4 := run_task e n5 (HideCaption text)
               (with_queue (delete 0 (queue s3)) s3)).
  assert (Hq4 : queue s4 = [((turn + 150)%Z, PutBack c)]).
  { unfold s4. rewrite run_task_queue. simpl. by rewrite Hq3. }
  clearbody s4.
  (* the inner timer puts the caption back *)
  rewrite (fire_run e t 1 s4 0 (turn + 150)%Z (PutBack c)); [|
    by rewrite Hq4 | lia].
  set (s5 := run_task e (turn + 150) (PutBack c)
               (with_queue (delete 0 (queue s4)) s4)).
  assert (Hq5 : queue s5 = []).
  { unfold s5. rewrite run_task_queue. simpl. by rewrite Hq4. }
  assert (Hc5 : Overlay.currentTranslation (overlay s5) = Some c).
  { unfold s5. by rewrite run_task_caption. }
  clearbody s5.
  rewrite fire_rest by (rewrite Hq5; constructor).
  split; [exact Hc5|exact Hq5].
Qed.

(** X1: on a device that is not turned, a caption whose original text is
    not an object is off the screen from five seconds after it was put
    on display, at every later moment, whatever other timers were
    pending, as long as no further message arrives.  A turn of the
    device between 150 and 100 ms before the five seconds are over
    brings the caption back after its timer has run: with nothing else
    pending it is on display afterwards with no timer left to hide
    it. *)
Theorem caption_hidden_from_five_seconds_on (s : State)
  (data : gmap string jsval) (t : Z) (e : Overlay.Env) :
  receiving s = true ->
  settled s ->
  get data "type" = JStr "text_translation" ->
  Overlay.is_object (get data "original_text") = false ->
  Forall (fun p => is_layout (snd p) = false) (queue s) ->
  (Overlay.now (overlay s) + 5000 <= t)%Z ->
  let shown := step P s (Message data) in
  Overlay.currentTranslation (overlay shown) = Some (Overlay.caption_of data)
  /\ Overlay.currentTranslation (overlay (step P shown (Tick t e))) = None
  /\ Overlay.subtitle (overlay (step P shown (Tick t e))) = None
  /\ (forall turn : Z,
        queue s = [] ->
        (Overlay.now (overlay s) <= turn)%Z ->
        (turn + 100 < Overlay.now (overlay s) + 5000 <= turn + 150)%Z ->
        (turn + 150 <= t)%Z ->
        let turned :=
          run P [Tick turn e; OrientationChanged; Tick t e] shown in
        Overlay.currentTranslation (overlay turned)
        = Some (Overlay.caption_of data)
        /\ queue turned = []).
Proof.
  intros Hrecv Hset Hty Htext Hlayout Ht.
  destruct (text_message_shown s data Hrecv Hset Hty)
    as (Hcap & Hqueue & Hnow & _ & _).
  cbv zeta. split; [exact Hcap|].
  set (shown := step P s (Message data)) in *.
  set (n5 := (Overlay.now (overlay s) + 5000)%Z) in *.
  set (text := get data "original_text") in *.
  assert (Hgone : Overlay.currentTranslation
                    (overlay (step P shown (Tick t e))) = None).
  { pose proof (tick_drains e t shown) as Hdrain.
    assert (Hinv :
              Forall (fun p => is_layout (snd p) = false)
                     (queue (fire (2 * length (queue shown)) e t shown))
              /\ (Overlay.currentTranslation
                    (overlay (fire (2 * length (queue shown)) e t shown))
                  = None
                  \/ (Overlay.currentTranslation
                        (overlay (fire (2 * length (queue shown)) e t shown))
                      = Some (Overlay.caption_of data)
                      /\ (n5, HideCaption text)
                         ∈ queue (fire (2 * length (queue shown)) e t
                                    shown)))).
    { apply (fire_preserves
               (fun s' =>
                  Forall (fun p => is_layout (snd p) = false) (queue s')
                  /\ (Overlay.currentTranslation (overlay s') = None
                      \/ (Overlay.currentTranslation (overlay s')
                          = Some (Overlay.caption_of data)
                          /\ (n5, HideCaption text) ∈ queue s'))) e t).
      2:{ split.
          - rewrite Hqueue. apply Forall_app. split; [done|].
            by repeat constructor.
          - right. split; [done|]. rewrite Hqueue.
            apply elem_of_app. right. by apply list_elem_of_singleton. }
      clear Hcap Hqueue Hnow Hdrain.
      intros s' i d task [Hi _]%earliest_Some Hd [Hlay Hcap].
      assert (Htask : is_layout task = false).
      { rewrite Forall_forall in Hlay.
        apply (Hlay (d, task)). by apply list_elem_of_lookup_2 in Hi. }
      rewrite run_task_queue, run_task_caption.
      assert (Hq : queue (with_queue (delete i (queue s')) s')
                   ++ match task,
                        Overlay.currentTranslation
                          (overlay (with_queue (delete i (queue s')) s'))
                      with
                      | Rerender, Some temp =>
                          [((Z.max (Overlay.now
                                      (overlay
                                         (with_queue (delete i (queue s'))
                                            s'))) d + 50)%Z,
                            PutBack temp)]
                      | _, _ => []
                      end
                   = delete i (queue s')).
      { destruct task; try discriminate Htask; simpl; by rewrite app_nil_r. }
      rewrite Hq. clear Hq.
      split; [by apply Forall_delete|].
      change (overlay (with_queue (delete i (queue s')) s'))
        with (overlay s').
      destruct task as [text'| | |]; try discriminate Htask.
      - destruct Hcap as [->|[-> Hin]]; [by left|]. simpl.
        destruct (Overlay.still_showing _ text') eqn:Hshow; [by left|].
        right. split; [done|].
        apply (elem_of_delete_other _ i _ (d, HideCaption text')); try done.
        intros [= _ Heq]. rewrite <- Heq in Hshow.
        unfold text in *. simpl in Hshow.
        rewrite (still_showing_same _ Htext) in Hshow.
        discriminate Hshow.
      - destruct Hcap as [Hnone|[Hsome Hin]]; [by left|].
        right. split; [done|].
        apply (elem_of_delete_other _ i _ (d, Reconnect)); done. }
    destruct Hinv as [_ [Hnone|[_ Hin]]].
    - simpl. unfold tick. exact Hnone.
    - unfold tick in Hdrain. simpl in Hdrain.
      rewrite Forall_forall in Hdrain. apply Hdrain in Hin. simpl in Hin.
      unfold n5 in Hin. lia. }
  split; [exact Hgone|].
  split.
  { unfold Overlay.subtitle. rewrite Hgone. by destruct (truthy _). }
  intros turn Hempty Hturn Hbetween Hlate.
  apply (turn_brings_caption_back shown _ text n5); try done.
  - by rewrite Hqueue, Hempty.
  - by rewrite Hnow.
Qed.

(** A turn of the device takes the caption on display away for 50 ms. *)
Lemma turn_takes_caption_away (s : State) (c : Overlay.Caption)
  (text : jsval) (n5 turn t : Z) (e : Overlay.Env) :
  queue s = [(n5, HideCaption text)] ->
  Overlay.currentTranslation (overlay s) = Some c ->
  (Overlay.now (overlay s) <= turn)%Z ->
  (turn + 100 <= t < turn + 150)%Z ->
  (t < n5)%Z ->
  Overlay.currentTranslation
    (overlay (run P [Tick turn e; OrientationChanged; Tick t e] s)) = None.
Proof.
  intros Hq Hc Hnow Hturn Ht.
  change (run P [Tick turn e; OrientationChanged; Tick t e] s)
    with (step P (step P (step P s (Tick turn e)) OrientationChanged)
            (Tick t e)).
  assert (H1 : step P s (Tick turn e) = at_time turn s).
  { unfold step, tick. rewrite fire_rest; [done|].
    rewrite Hq. repeat constructor. simpl. lia. }
  rewrite H1.
  set (s2 := step P (at_time turn s) OrientationChanged).
  assert (Hq2 : queue s2 = [(n5, HideCaption text);
                            ((turn + 100)%Z, Rerender)]).
  { unfold s2. simpl. rewrite Hq. simpl.
    unfold overlay. simpl. by rewrite Z.max_r by exact Hnow. }
  assert (Hc2 : Overlay.currentTranslation (overlay s2) = Some c)
    by exact Hc.
  assert (Hn2 : Overlay.now (overlay s2) = turn).
  { unfold s2, overlay. simpl. by rewrite Z.max_r by exact Hnow. }
  clearbody s2.
  unfold step, tick. rewrite Hq2.
  change (2 * length [(n5, HideCaption text); ((turn + 100)%Z, Rerender)])
    with 4.
  rewrite (fire_run e t 3 s2 1 (turn + 100)%Z Rerender); [|
    rewrite Hq2; simpl; by rewrite (proj2 (Z.ltb_lt (turn + 100) n5))
      by lia | lia].
  set (s3 := run_task e (turn + 100) Rerender
               (with_queue (delete 1 (queue s2)) s2)).
  assert (Hq3 : queue s3 = [(n5, HideCaption text);
                            ((turn + 150)%Z, PutBack c)]).
  { unfold s3. rewrite run_task_queue.
    change (overlay (with_queue (delete 1 (queue s2)) s2))
      with (overlay s2).
    rewrite Hc2, Hn2, Hq2. simpl.
    by replace (Z.max turn (turn + 100) + 50)%Z with (turn + 150)%Z by lia. }
  assert (Hc3 : Overlay.currentTranslation (overlay s3) = None).
  { unfold s3. by rewrite run_task_caption. }
  clearbody s3.
  rewrite fire_rest; [exact Hc3|].
  rewrite Hq3. repeat constructor; simpl; lia.
Qed.

(** X2: on a device that is not turned, a caption stays on display
    until its five seconds are over, provided no timer of an earlier
    caption that would hide it falls due in the meantime; a caption
    whose original text is an object stays beyond that, since no timer
    hides it, its own included.  A turn of the device takes a caption
    off the screen early: from 100 ms to 150 ms after the turn nothing
    is on display. *)
Theorem caption_stays_until_its_timeout (s : State)
  (data : gmap string jsval) (t : Z) (e : Overlay.Env) :
  receiving s = true ->
  settled s ->
  get data "type" = JStr "text_translation" ->
  (t < Overlay.now (overlay s) + 5000)%Z
  \/ Overlay.is_object (get data "original_text") = true ->
  Forall (fun p => is_layout (snd p) = false) (queue s) ->
  Forall (fun p => (fst p <= t)%Z ->
                   hides (get data "original_text") (snd p) = false)
         (queue s) ->
  let shown := step P s (Message data) in
  Overlay.currentTranslation (overlay (step P shown (Tick t e)))
  = Some (Overlay.caption_of data)
  /\ (forall turn : Z,
        queue s = [] ->
        (Overlay.now (overlay s) <= turn)%Z ->
        (turn + 100 <= t < turn + 150)%Z ->
        (t < Overlay.now (overlay s) + 5000)%Z ->
        Overlay.currentTranslation
          (overlay (run P [Tick turn e; OrientationChanged; Tick t e] shown))
        = None).
Proof.
  intros Hrecv Hset Hty Ht Hlayout Hother.
  destruct (text_message_shown s data Hrecv Hset Hty)
    as (Hcap & Hqueue & Hnow & _ & _).
  cbv zeta.
  set (shown := step P s (Message data)) in *.
  set (text := get data "original_text") in *.
  split.
  - assert (Hinv :
              Overlay.currentTranslation
                (overlay (fire (2 * length (queue shown)) e t shown))
              = Some (Overlay.caption_of data)
              /\ Forall (fun p => is_layout (snd p) = false)
                   (queue (fire (2 * length (queue shown)) e t shown))
              /\ Forall (fun p => (fst p <= t)%Z ->
                                  hides text (snd p) = false)
                   (queue (fire (2 * length (queue shown)) e t shown))).
    { apply (fire_preserves
               (fun s' =>
                  Overlay.currentTranslation (overlay s')
                  = Some (Overlay.caption_of data)
                  /\ Forall (fun p => is_layout (snd p) = false) (queue s')
                  /\ Forall (fun p => (fst p <= t)%Z ->
                                      hides text (snd p) = false)
                       (queue s')) e t).
      2:{ split; [done|]. rewrite Hqueue. split.
          - apply Forall_app. split; [done|]. by repeat constructor.
          - apply Forall_app. split; [done|].
            repeat constructor. simpl. intros Hdue.
            destruct Ht as [Ht|Ht]; [lia|].
            unfold text in *.
            by destruct (get data "original_text"). }
      clear Hcap Hqueue Hnow.
      intros s' i d task [Hi _]%earliest_Some Hd (Hcap & Hlay & Hoth).
      apply list_elem_of_lookup_2 in Hi as Hin.
      assert (Htask : is_layout task = false).
      { rewrite Forall_forall in Hlay. apply (Hlay (d, task) Hin). }
      assert (Hhide : hides text task = false).
      { rewrite Forall_forall in Hoth. by apply (Hoth (d, task) Hin). }
      rewrite run_task_queue, run_task_caption.
      change (overlay (with_queue (delete i (queue s')) s'))
        with (overlay s').
      change (queue (with_queue (delete i (queue s')) s'))
        with (delete i (queue s')).
      rewrite Hcap.
      destruct task as [text'| | |]; try discriminate Htask;
        rewrite app_nil_r.
      - simpl in Hhide. simpl. unfold text in Hhide. rewrite Hhide.
        split; [done|]. split; by apply Forall_delete.
      - split; [done|]. split; by apply Forall_delete. }
    destruct Hinv as [Hshown _]. exact Hshown.
  - intros turn Hempty Hturn Hbetween Hearly.
    apply (turn_takes_caption_away shown (Overlay.caption_of data) text
             (Overlay.now (overlay s) + 5000)%Z); try done.
    + by rewrite Hqueue, Hempty.
    + by rewrite Hnow.
Qed.

(** X6: the frame that follows an accepted request carries the settings
    as they are when the answer arrives, not the object that was
    submitted.  With the socket open, an edit is submitted, a second
    edit is submitted before the first is answered, the store accepts
    the first request and rejects the second: the relay is sent one
    frame, and it carries the settings of the second edit, which the
    store rejected. *)
Theorem accepted_answer_forwards_later_edit (s : State) (k1 k2 : string)
  (v1 v2 : jsval) (body : option unit) (r2 : Fetched unit) :
  Overlay.translationWebSocket (overlay s) = Some Overlay.OPEN ->
  accepted r2 = false ->
  let first := set (Overlay.translationSettings (overlay s)) k1 v1 in
  let second := set first k2 v2 in
  let n := length (in_flight s) in
  let submitted := run P [Submitted k1 v1; Submitted k2 v2] s in
  let answered := step P submitted (Answered n (Response true body)) in
  let s' := step P answered (Answered n r2) in
  in_flight submitted = in_flight s ++ [first; second]
  /\ Overlay.requests (overlay submitted)
     = Overlay.requests (overlay s) ++ [first; second]
  /\ Overlay.outbox (overlay submitted) = Overlay.outbox (overlay s)
  /\ in_flight answered = in_flight s ++ [second]
  /\ Overlay.outbox (overlay answered)
     = Overlay.outbox (overlay s) ++ [Overlay.update_settings second]
  /\ in_flight s' = in_flight s
  /\ Overlay.outbox (overlay s')
     = Overlay.outbox (overlay s) ++ [Overlay.update_settings second]
  /\ Overlay.requests (overlay s')
     = Overlay.requests (overlay s) ++ [first; second]
  /\ Overlay.translationSettings (overlay s') = second.
Proof.
  intros Hopen Hrej. cbv zeta.
  destruct s as [[o recs socks ctxs cur] q bodies].
  unfold overlay in *. simpl in Hopen.
  unfold run, step. simpl.
  rewrite <- !app_assoc. simpl.
  rewrite list_lookup_middle by done.
  unfold with_in_flight, with_overlay, with_component, overlay. simpl.
  rewrite Hopen. simpl.
  rewrite (delete_middle bodies).
  rewrite (list_lookup_middle bodies [] _ (length bodies)) by done.
  simpl. rewrite (delete_middle bodies). rewrite app_nil_r.
  split; [done|]. split; [done|]. split; [done|]. split; [done|].
  split; [done|]. split; [done|].
  destruct r2 as [|[] ?]; try discriminate Hrej; simpl;
    rewrite <- ?app_assoc; done.
Qed.

(** X7: an edit that is accepted while the socket is still connecting
    is saved but not forwarded, and the opening of the socket does not
    send it either.  When the socket opens before the answer arrives,
    the frame is sent. *)
Theorem edit_before_open_is_never_forwarded (s : State) (key : string)
  (v : jsval) (body : option unit) :
  Overlay.translationWebSocket (overlay s) = Some Overlay.CONNECTING ->
  let edited := set (Overlay.translationSettings (overlay s)) key v in
  let n := length (in_flight s) in
  let early :=
    run P [Submitted key v; Answered n (Response true body); SocketOpened] s
  in
  let late :=
    run P [Submitted key v; SocketOpened; Answered n (Response true body)] s
  in
  Overlay.translationSettings (overlay early) = edited
  /\ Overlay.requests (overlay early)
     = Overlay.requests (overlay s) ++ [edited]
  /\ Overlay.translationWebSocket (overlay early) = Some Overlay.OPEN
  /\ in_flight early = in_flight s
  /\ Overlay.outbox (overlay early) = Overlay.outbox (overlay s)
  /\ Overlay.requests (overlay late)
     = Overlay.requests (overlay s) ++ [edited]
  /\ in_flight late = in_flight s
  /\ Overlay.outbox (overlay late)
     = Overlay.outbox (overlay s) ++ [Overlay.update_settings edited].
Proof.
  intros Hws. cbv zeta.
  destruct s as [[o recs socks ctxs cur] q bodies].
  unfold overlay in *. simpl in Hws.
  unfold run, step. simpl.
  rewrite list_lookup_middle by done.
  unfold with_in_flight, with_overlay, with_component, overlay,
    Connection.socket_opened. simpl.
  rewrite Hws. simpl.
  rewrite (delete_middle bodies), app_nil_r. simpl.
  rewrite !Hws. simpl.
  done.
Qed.

Lemma handle_keeps_socket (o : Overlay.State) (data : gmap string jsval) :
  Overlay.translationWebSocket (Overlay.handleWebSocketMessage P o data)
  = Overlay.translationWebSocket o.
Proof.
  unfold Overlay.handleWebSocketMessage.
  destruct (strict_eq _ (JStr "text_translation")); [done|].
  destruct (strict_eq _ (JStr "voice_translation")).
  { unfold Overlay.playTranslatedAudio, Overlay.play_decoded. simpl.
    destruct (_ || _); [done|].
    destruct (Overlay.atob P _); [|done]. simpl.
    destruct (Overlay.decodeAudioData P _); [|done]. simpl.
    by destruct (Overlay.to_gain P _). }
  by destruct (strict_eq _ (JStr "voices_list")).
Qed.

(** What a timer other than a reconnect leaves alone. *)
Lemma run_task_frame (e : Overlay.Env) (d : Z) (task : Task) (s : State) :
  is_reconnect task = false ->
  let s' := run_task e d task s in
  Overlay.timers (overlay s') = Overlay.timers (overlay s)
  /\ Connection.reconnects (component s') = Connection.reconnects (component s)
  /\ Overlay.audioContext (overlay s') = Overlay.audioContext (overlay s)
  /\ Overlay.started (overlay s') = Overlay.started (overlay s)
  /\ Overlay.translationWebSocket (overlay s')
     = Overlay.translationWebSocket (overlay s).
Proof.
  intros Htask.
  unfold run_task, at_time, with_overlay, with_component, with_queue,
    overlay.
  destruct task; try discriminate Htask; simpl.
  - unfold Overlay.timer_callback. simpl.
    destruct (Overlay.currentTranslation (Connection.overlay (component s)));
      [|done].
    by destruct (Overlay.still_showing _ _).
  - by destruct (Overlay.currentTranslation
                   (Connection.overlay (component s))).
  - done.
Qed.

(** A reconnect whose constructors succeed leaves an audio context. *)
Lemma run_task_reconnect (e : Overlay.Env) (d : Z) (s : State) :
  Overlay.websocket_constructs e = true ->
  Overlay.audiocontext_constructs e = true ->
  Overlay.audioContext (overlay (run_task e d Reconnect s)) = true.
Proof.
  intros Hws Hctx.
  unfold run_task, with_component, overlay, Connection.initializeWebSocket,
    Overlay.initializeWebSocket.
  by rewrite Hws, Hctx.
Qed.

(** The mounted component whose audio context could not be constructed:
    nothing it does without a socket closing brings one. *)
Lemma step_without_context (s : State) (ev : Event) :
  is_close ev = false ->
  settled s ->
  Overlay.audioContext (overlay s) = false ->
  Overlay.started (overlay s) = [] ->
  Forall (fun p => is_reconnect (snd p) = false) (queue s) ->
  Connection.live (component s) = true ->
  settled (step P s ev)
  /\ Overlay.audioContext (overlay (step P s ev)) = false
  /\ Overlay.started (overlay (step P s ev)) = []
  /\ Forall (fun p => is_reconnect (snd p) = false) (queue (step P s ev))
  /\ Connection.live (component (step P s ev)) = true.
Proof.
  intros Hev [Htimers Hrec] Hctx Hnone Hqueue Hlive.
  destruct ev as [data|t e| | |key v|n r|]; try discriminate Hev.
  - (* a frame *)
    simpl. destruct (receiving s); [|done].
    unfold collect, settled, overlay, Connection.live in *. simpl.
    rewrite Hrec, app_nil_r.
    pose proof (step_keeps_audioContext P (Connection.overlay (component s))
                  (Overlay.Message data)) as Ha.
    pose proof (step_without_context_starts_nothing P
                  (Connection.overlay (component s))
                  (Overlay.Message data) Hctx) as Hs.
    simpl in Ha, Hs. rewrite Ha, Hs, handle_keeps_socket.
    split; [done|]. split; [done|]. split; [done|]. split; [|done].
    apply Forall_app. split; [done|].
    apply Forall_fmap, Forall_forall. by intros tm _.
  - (* time passes *)
    simpl. unfold tick.
    assert (Hinv :
              let s' := fire (2 * length (queue s)) e t s in
              settled s'
              /\ Overlay.audioContext (overlay s') = false
              /\ Overlay.started (overlay s') = []
              /\ Forall (fun p => is_reconnect (snd p) = false) (queue s')
              /\ Connection.live (component s') = true).
    { apply (fire_preserves
               (fun s' =>
                  settled s'
                  /\ Overlay.audioContext (overlay s') = false
                  /\ Overlay.started (overlay s') = []
                  /\ Forall (fun p => is_reconnect (snd p) = false)
                       (queue s')
                  /\ Connection.live (component s') = true) e t);
        [|done].
      clear. intros s i d task [Hi _]%earliest_Some _
        ([Htimers Hrec] & Hctx & Hnone & Hqueue & Hlive).
      assert (Htask : is_reconnect task = false).
      { rewrite Forall_forall in Hqueue.
        apply (Hqueue (d, task)). by apply list_elem_of_lookup_2 in Hi. }
      destruct (run_task_frame e d task
                  (with_queue (delete i (queue s)) s) Htask)
        as (H1 & H2 & H3 & H4 & H5).
      unfold settled, Connection.live in *.
      change (Connection.overlay (component ?x)) with (overlay x).
      rewrite H1, H2, H3, H4, H5, run_task_queue.
      split; [done|]. split; [done|]. split; [done|]. split; [|done].
      apply Forall_app. split; [by apply Forall_delete|].
      destruct task; try by constructor.
      destruct (Overlay.currentTranslation _); by repeat constructor. }
    cbv zeta in Hinv.
    destruct Hinv as ([H1 H2] & H3 & H4 & H5 & H6).
    unfold settled, Connection.live, at_time, overlay in *. simpl.
    done.
  - (* the socket opens *)
    unfold settled, Connection.live, overlay in *. simpl.
    unfold Connection.socket_opened.
    destruct (Overlay.translationWebSocket
                (Connection.overlay (component s))) as [[]|] eqn:E;
      simpl; rewrite ?E; done.
  - (* an edit is submitted *)
    unfold settled, Connection.live, overlay in *. simpl. done.
  - (* an answer arrives *)
    simpl. destruct (in_flight s !! n); [|done].
    unfold settled, Connection.live, overlay in *. simpl.
    unfold Overlay.updateSettings_answer.
    destruct r as [|[] ?]; try done.
    destruct (Overlay.translationWebSocket
                (Connection.overlay (component s))) as [[]|] eqn:E;
      simpl; rewrite ?E; done.
  - (* the device is turned *)
    unfold settled, Connection.live, overlay in *. simpl.
    split; [done|]. split; [done|]. split; [done|]. split; [|done].
    apply Forall_app. split; [done|]. by repeat constructor.
Qed.

Lemma run_without_context (evs : list Event) (s : State) :
  forallb (fun ev => negb (is_close ev)) evs = true ->
  settled s ->
  Overlay.audioContext (overlay s) = false ->
  Overlay.started (overlay s) = [] ->
  Forall (fun p => is_reconnect (snd p) = false) (queue s) ->
  Connection.live (component s) = true ->
  settled (run P evs s)
  /\ Overlay.audioContext (overlay (run P evs s)) = false
  /\ Overlay.started (overlay (run P evs s)) = []
  /\ Connection.live (component (run P evs s)) = true.
Proof.
  unfold run. revert s.
  induction evs as [|ev evs IH]; intros s Hevs Hset Hctx Hnone Hq Hlive;
    simpl; [done|].
  simpl in Hevs. apply andb_prop in Hevs as [Hev Hevs].
  apply negb_true_iff in Hev.
  destruct (step_without_context s ev Hev Hset Hctx Hnone Hq Hlive)
    as (H1 & H2 & H3 & H4 & H5).
  by apply IH.
Qed.

(** After the socket has closed, three seconds later a reconnect whose
    constructors succeed has left an audio context. *)
Lemma close_then_wait_brings_context (s : State) (t : Z) (e : Overlay.Env) :
  settled s ->
  Connection.live (component s) = true ->
  Overlay.websocket_constructs e = true ->
  Overlay.audiocontext_constructs e = true ->
  (Overlay.now (overlay s) + 3000 <= t)%Z ->
  Overlay.audioContext (overlay (run P [SocketClosed; Tick t e] s)) = true.
Proof.
  intros [Htimers Hrec] Hlive Hws Hctx Ht.
  change (run P [SocketClosed; Tick t e] s)
    with (step P (step P s SocketClosed) (Tick t e)).
  set (s1 := step P s SocketClosed).
  assert (Hq1 : ((Overlay.now (overlay s) + 3000)%Z, Reconnect) ∈ queue s1).
  { unfold s1, step, collect, overlay, Connection.socket_closed,
      Connection.live in *.
    destruct (Overlay.translationWebSocket
                (Connection.overlay (component s))) as [[]|];
      try discriminate Hlive; try done; simpl;
      rewrite Hrec; simpl;
      apply elem_of_app; right; apply elem_of_app; right;
      by apply list_elem_of_singleton. }
  clearbody s1.
  unfold step, tick.
  pose proof (fire_drains e t (2 * length (queue s1)) s1) as Hdrain.
  assert (Hinv :
            let s' := fire (2 * length (queue s1)) e t s1 in
            Overlay.audioContext (overlay s') = true
            \/ ((Overlay.now (overlay s) + 3000)%Z, Reconnect) ∈ queue s').
  { apply (fire_preserves
             (fun s' =>
                Overlay.audioContext (overlay s') = true
                \/ ((Overlay.now (overlay s) + 3000)%Z, Reconnect)
                   ∈ queue s') e t); [|by right].
    intros s' i d task [Hi _]%earliest_Some _ Hcase.
    destruct (is_reconnect task) eqn:Htask.
    - left. destruct task; try discriminate Htask.
      by apply run_task_reconnect.
    - destruct (run_task_frame e d task
                  (with_queue (delete i (queue s')) s') Htask)
        as (_ & _ & H3 & _).
      rewrite H3, run_task_queue.
      destruct Hcase as [Hyes|Hin]; [by left|]. right.
      apply elem_of_app. left.
      apply (elem_of_delete_other _ i _ (d, task)); try done.
      intros [= _ <-]. discriminate Htask. }
  cbv zeta in Hinv. destruct Hinv as [Hyes|Hin].
  - exact Hyes.
  - exfalso.
    assert (Hfuel : pending_work (queue s1) <= 2 * length (queue s1)).
    { unfold pending_work.
      pose proof (length_filter
                    (fun p : Z * Task => is_rerender (snd p) = true)
                    (queue s1)).
      lia. }
    specialize (Hdrain Hfuel). rewrite Forall_forall in Hdrain.
    apply Hdrain in Hin. simpl in Hin. lia.
Qed.

Lemma mount_without_context (e : Overlay.Env) :
  Overlay.websocket_constructs e = true ->
  Overlay.audiocontext_constructs e = false ->
  settled (mount e)
  /\ queue (mount e) = []
  /\ Overlay.emitted (overlay (mount e)) = [Overlay.translation_error]
  /\ Overlay.translationWebSocket (overlay (mount e))
     = Some Overlay.CONNECTING
  /\ Overlay.audioContext (overlay (mount e)) = false
  /\ Overlay.started (overlay (mount e)) = [].
Proof.
  intros Hws Hctx.
  unfold settled, mount, overlay, Connection.mount. simpl.
  unfold Overlay.onMounted, Overlay.initializeTranslation,
    Overlay.initializeWebSocket.
  rewrite Hws, Hctx.
  unfold Overlay.loadAvailableVoices, Overlay.loadTranslationSettings,
    Overlay.setupMobileOptimizations.
  destruct (Overlay.innerWidth e <=? 768)%Z;
    destruct (Overlay.settings_fetch e) as [|[] []];
    destruct (Overlay.voices_fetch e) as [|[] []]; simpl; done.
Qed.

(** X8: when the audio context cannot be constructed while the
    component starts, the socket is nevertheless in place and
    [translation-error] is emitted.  As long as that socket does not
    close, no translated audio is played, whatever arrives and whatever
    the user switches on.  When it closes, the reconnect three seconds
    later constructs an audio context again, and if that succeeds the
    component has one from then on. *)
Theorem no_voice_without_audio_context (e e' : Overlay.Env)
  (evs : list Event) (t : Z) :
  Overlay.websocket_constructs e = true ->
  Overlay.audiocontext_constructs e = false ->
  forallb (fun ev => negb (is_close ev)) evs = true ->
  Overlay.websocket_constructs e' = true ->
  Overlay.audiocontext_constructs e' = true ->
  let s := mount e in
  let s1 := run P evs s in
  Overlay.emitted (overlay s) = [Overlay.translation_error]
  /\ Overlay.translationWebSocket (overlay s) = Some Overlay.CONNECTING
  /\ Overlay.audioContext (overlay s1) = false
  /\ Overlay.started (overlay s1) = []
  /\ ((Overlay.now (overlay s1) + 3000 <= t)%Z ->
      Overlay.audioContext (overlay (run P [SocketClosed; Tick t e'] s1))
      = true).
Proof.
  intros Hws Hctx Hevs Hws' Hctx'. cbv zeta.
  destruct (mount_without_context e Hws Hctx)
    as (Hset & Hq & Hemit & Hsock & Hnoctx & Hnone).
  assert (Hlive : Connection.live (component (mount e)) = true).
  { unfold Connection.live. unfold overlay in Hsock. by rewrite Hsock. }
  destruct (run_without_context evs (mount e) Hevs Hset Hnoctx Hnone)
    as (Hset1 & Hnoctx1 & Hnone1 & Hlive1); [by rewrite Hq|done|].
  split; [done|]. split; [done|]. split; [done|]. split; [done|].
  intros Ht. by apply close_then_wait_brings_context.
Qed.

(** The component's own lists stay empty: every state the mounted
    component reaches is settled. *)
Lemma run_task_settled (e : Overlay.Env) (d : Z) (task : Task) (s : State) :
  settled s -> settled (run_task e d task s).
Proof.
  intros [Htimers Hrec].
  destruct (is_reconnect task) eqn:Htask.
  - destruct task; try discriminate Htask.
    unfold settled, run_task, with_component, overlay in *.
    match goal with
    | |- context [Connection.initializeWebSocket e ?c] =>
        destruct (initializeWebSocket_overlay e c)
          as (_ & _ & _ & _ & _ & _ & H)
    end.
    simpl in H. simpl. rewrite H. split; [exact Htimers|].
    unfold Connection.initializeWebSocket.
    by destruct (Overlay.initializeWebSocket e _).
  - destruct (run_task_frame e d task s Htask) as (H1 & H2 & _).
    unfold settled. by rewrite H1, H2.
Qed.

Lemma step_settled (s : State) (ev : Event) :
  settled s -> settled (step P s ev).
Proof.
  intros Hs.
  destruct ev as [data|t e| | |key v|n r|]; simpl.
  - by destruct (receiving s).
  - unfold tick.
    assert (H : settled (fire (2 * length (queue s)) e t s)).
    { apply (fire_preserves settled e t); [|done].
      intros s' i d task _ _ Hs'. by apply run_task_settled. }
    destruct H as [H1 H2]. unfold settled, at_time, overlay in *. by simpl.
  - destruct Hs as [H1 H2].
    unfold settled, overlay, Connection.socket_opened in *. simpl.
    by destruct (Overlay.translationWebSocket _) as [[]|].
  - done.
  - destruct Hs as [H1 H2]. unfold settled, overlay in *. by simpl.
  - destruct (in_flight s !! n); [|done].
    destruct Hs as [H1 H2]. unfold settled, overlay in *. simpl.
    unfold Overlay.updateSettings_answer.
    destruct r as [|[] ?]; try done.
    by destruct (Overlay.translationWebSocket _) as [[]|].
  - done.
Qed.

Lemma run_settled (e : Overlay.Env) (evs : list Event) :
  settled (run P evs (mount e)).
Proof.
  assert (H : settled (mount e)).
  { unfold settled, mount, overlay, Connection.mount. simpl.
    unfold Overlay.onMounted, Overlay.initializeTranslation,
      Overlay.initializeWebSocket, Overlay.loadAvailableVoices,
      Overlay.loadTranslationSettings, Overlay.setupMobileOptimizations.
    destruct (Overlay.websocket_constructs e),
      (Overlay.audiocontext_constructs e),
      (Overlay.innerWidth e <=? 768)%Z;
      destruct (Overlay.settings_fetch e) as [|[] []];
      destruct (Overlay.voices_fetch e) as [|[] []]; simpl; done. }
  revert H. generalize (mount e). unfold run.
  induction evs as [|ev evs IH]; intros s Hs; simpl; [done|].
  by apply IH, step_settled.
Qed.

End SessionFacts.

Lemma caption_hidden_from_five_seconds_on_witness :
  let s :=
    Session.step Samples.browser (Session.mount Samples.desktop)
      Session.SocketOpened in
  let data := Samples.text_message "A" "Hello" "Bonjour" in
  let shown := Session.step Samples.browser s (Session.Message data) in
  Overlay.currentTranslation
    (Session.overlay
       (Session.step Samples.browser shown
          (Session.Tick 6000 Samples.desktop))) = None
  /\ Overlay.currentTranslation
       (Session.overlay
          (Session.run Samples.browser
             [Session.Tick 4880 Samples.desktop; Session.OrientationChanged;
              Session.Tick 6000 Samples.desktop] shown))
     = Some (Overlay.caption_of data).
Proof.
  destruct (caption_hidden_from_five_seconds_on Samples.browser
              (Session.step Samples.browser (Session.mount Samples.desktop)
                 Session.SocketOpened)
              (Samples.text_message "A" "Hello" "Bonjour") 6000
              Samples.desktop)
    as (_ & Hgone & _ & Hturn).
  - reflexivity.
  - split; reflexivity.
  - vm_compute. reflexivity.
  - reflexivity.
  - constructor.
  - simpl. lia.
  - split; [exact Hgone|].
    destruct (Hturn 4880%Z) as [Hback _].
    + reflexivity.
    + simpl. lia.
    + simpl. lia.
    + lia.
    + exact Hback.
Defined.

Lemma caption_stays_until_its_timeout_witness :
  let s :=
    Session.step Samples.browser (Session.mount Samples.desktop)
      Session.SocketOpened in
  let data := Samples.text_message "A" "Hello" "Bonjour" in
  let shown := Session.step Samples.browser s (Session.Message data) in
  Overlay.currentTranslation
    (Session.overlay
       (Session.step Samples.browser shown
          (Session.Tick 4970 Samples.desktop)))
  = Some (Overlay.caption_of data)
  /\ Overlay.currentTranslation
       (Session.overlay
          (Session.run Samples.browser
             [Session.Tick 4850 Samples.desktop; Session.OrientationChanged;
              Session.Tick 4970 Samples.desktop] shown)) = None.
Proof.
  destruct (caption_stays_until_its_timeout Samples.browser
              (Session.step Samples.browser (Session.mount Samples.desktop)
                 Session.SocketOpened)
              (Samples.text_message "A" "Hello" "Bonjour") 4970
              Samples.desktop)
    as (Hstays & Hturn).
  - reflexivity.
  - split; reflexivity.
  - vm_compute. reflexivity.
  - left. simpl. lia.
  - constructor.
  - constructor.
  - split; [exact Hstays|].
    apply (Hturn 4850%Z).
    + reflexivity.
    + simpl. lia.
    + lia.
    + simpl. lia.
Defined.

Lemma accepted_answer_forwards_later_edit_witness :
  let s :=
    Session.step Samples.browser (Session.mount Samples.desktop)
      Session.SocketOpened in
  let s' :=
    Session.run Samples.browser
      [Session.Submitted "voiceTranslationEnabled" (JBool true);
       Session.Submitted "voiceSpeed" (JStr "2");
       Session.Answered 0 (Response true None);
       Session.Answered 0 (Response false None)] s in
  Overlay.outbox (Session.overlay s')
  = [Overlay.update_settings
       (set (set Overlay.default_settings
               "voiceTranslationEnabled" (JBool true))
            "voiceSpeed" (JStr "2"))].
Proof.
  destruct (accepted_answer_forwards_later_edit Samples.browser
              (Session.step Samples.browser (Session.mount Samples.desktop)
                 Session.SocketOpened)
              "voiceTranslationEnabled" "voiceSpeed" (JBool true) (JStr "2")
              None (Response false None))
    as (_ & _ & _ & _ & _ & _ & Hout & _).
  - reflexivity.
  - reflexivity.
  - exact Hout.
Defined.

Lemma edit_before_open_is_never_forwarded_witness :
  let s := Session.mount Samples.desktop in
  let early :=
    Session.run Samples.browser
      [Session.Submitted "voiceTranslationEnabled" (JBool true);
       Session.Answered 0 (Response true None); Session.SocketOpened] s in
  let late :=
    Session.run Samples.browser
      [Session.Submitted "voiceTranslationEnabled" (JBool true);
       Session.SocketOpened; Session.Answered 0 (Response true None)] s in
  Overlay.outbox (Session.overlay early) = []
  /\ Overlay.outbox (Session.overlay late)
     = [Overlay.update_settings
          (set Overlay.default_settings
             "voiceTranslationEnabled" (JBool true))].
Proof.
  destruct (edit_before_open_is_never_forwarded Samples.browser
              (Session.mount Samples.desktop)
              "voiceTranslationEnabled" (JBool true) None)
    as (_ & _ & _ & _ & Hearly & _ & _ & Hlate).
  - reflexivity.
  - split; [exact Hearly|exact Hlate].
Defined.

Lemma no_voice_without_audio_context_witness :
  let s :=
    Session.run Samples.browser
      [Session.SocketOpened;
       Session.Message (Samples.voice_message "A" "SGk=")]
      (Session.mount Samples.without_audio) in
  Overlay.started (Session.overlay s) = []
  /\ Overlay.audioContext
       (Session.overlay
          (Session.run Samples.browser
             [Session.SocketClosed; Session.Tick 3000 Samples.desktop] s))
     = true.
Proof.
  destruct (no_voice_without_audio_context Samples.browser
              Samples.without_audio Samples.desktop
              [Session.SocketOpened;
               Session.Message (Samples.voice_message "A" "SGk=")] 3000)
    as (_ & _ & _ & Hnone & Hback).
  - reflexivity.
  - reflexivity.
  - reflexivity.
  - reflexivity.
  - reflexivity.
  - split; [exact Hnone|]. apply Hback. vm_compute. discriminate.
Defined.
